(** * hideifdef: the inactive-region tracker of the VS Code extension

    A shallow embedding of the tracker: the three-mode variant with the
    folding aggregator (the second unit of [src/extension.ts]) and, for the
    directive pattern it shares, the older two-mode [src/ifdef.ts]:
    the directive regular expression, the folding aggregator
    [collectHiddenFoldingRanges], the region cache [$inactiveRegionsMap],
    the decoration accessor [getDecoration], [updateEditorDecoration],
    [autoFoldHiddenRanges], the clangd notification handler and the toggle
    command.

    JavaScript strings are sequences of UTF-16 code units ([list N]); line
    and character numbers are [nat] ([vscode.Position] refuses negative
    ones).  Module state is threaded explicitly and every call into the host
    editor is recorded, in order, in a trace of [Effect]s. *)

From Stdlib Require Import NArith ZArith Lia.
From stdpp Require Import base option list strings gmap sorting.

Local Open Scope nat_scope.

(** ** JavaScript strings *)

(** A UTF-16 code unit. *)
Definition char16 : Type := N.
Bind Scope N_scope with char16.

Definition JSString : Type := list char16.

(** The code units of an ASCII literal. *)
Definition utf16 (s : string) : JSString :=
  map Ascii.N_of_ascii (String.list_ascii_of_string s).

(** ** Regular expressions

    The fragment of ECMAScript patterns that [PREPROCESSOR_REGEX] uses,
    with the backtracking semantics of the language definition: a matcher
    takes the current position and a continuation. *)
Module RegExp.

Inductive Regex : Type :=
| Empty
| Char (c : char16)
| Class (p : char16 -> bool)
| Seq (r1 r2 : Regex)
| Alt (r1 r2 : Regex)
| Star (r : Regex)
| Group (r : Regex)
| AssertStart
| WordBoundary.

(** A position in the subject: the code unit just before it ([None] at
    index 0) and the code units from it on. *)
Record Pos : Type := mkPos { before : option char16; rest : JSString }.

Definition Continuation : Type := Pos -> bool.
Definition Matcher : Type := Pos -> Continuation -> bool.

Definition inRange (lo hi c : char16) : bool := ((lo <=? c) && (c <=? hi))%N.

(** [\w]: [A-Za-z0-9_]. *)
Definition isWordChar (c : char16) : bool :=
  inRange 97 122 c || inRange 65 90 c || inRange 48 57 c || (c =? 95)%N.

(** [\s]: WhiteSpace and LineTerminator code points. *)
Definition isWhiteSpace (c : char16) : bool :=
  inRange 9 13 c || (c =? 32)%N || (c =? 160)%N || (c =? 5760)%N
  || inRange 8192 8202 c || (c =? 8232)%N || (c =? 8233)%N
  || (c =? 8239)%N || (c =? 8287)%N || (c =? 12288)%N || (c =? 65279)%N.

Definition wordBefore (x : Pos) : bool :=
  match before x with Some c => isWordChar c | None => false end.

Definition wordAfter (x : Pos) : bool :=
  match rest x with c :: _ => isWordChar c | [] => false end.

(** One code unit accepted by [p]. *)
Definition CharacterSetMatcher (p : char16 -> bool) : Matcher :=
  fun x k =>
    match rest x with
    | c :: s => if p c then k (mkPos (Some c) s) else false
    | [] => false
    end.

(** Greedy [r*]: an iteration that consumes nothing is refused.  Every
    iteration consumes a code unit, so [fuel = length (rest x)] is never
    exhausted before the subject is. *)
Fixpoint RepeatMatcher (m : Matcher) (fuel : nat) (x : Pos) (k : Continuation)
  : bool :=
  match fuel with
  | 0 => k x
  | S fuel' =>
      m x (fun y =>
             if length (rest y) <? length (rest x)
             then RepeatMatcher m fuel' y k
             else false)
      || k x
  end.

Fixpoint exec (r : Regex) (x : Pos) (k : Continuation) : bool :=
  match r with
  | Empty => k x
  | Char c => CharacterSetMatcher (N.eqb c) x k
  | Class p => CharacterSetMatcher p x k
  | Seq r1 r2 => exec r1 x (fun y => exec r2 y k)
  | Alt r1 r2 => exec r1 x k || exec r2 x k
  | Star r1 => RepeatMatcher (exec r1) (length (rest x)) x k
  | Group r1 => exec r1 x k
  | AssertStart => match before x with None => k x | Some _ => false end
  | WordBoundary => if xorb (wordBefore x) (wordAfter x) then k x else false
  end.

(** The search of [RegExp.prototype.test] without the [g] and [y] flags:
    the first index, from 0 on, at which the pattern matches. *)
Fixpoint search (r : Regex) (b : option char16) (s : JSString) : bool :=
  exec r (mkPos b s) (fun _ => true)
  || match s with
     | [] => false
     | c :: s' => search r (Some c) s'
     end.

Definition test (r : Regex) (s : JSString) : bool := search r None s.

(** A literal word of the pattern. *)
Fixpoint lit (w : JSString) : Regex :=
  match w with
  | [] => Empty
  | c :: w' => Seq (Char c) (lit w')
  end.

End RegExp.

Import RegExp.

(** ** The directive scanner *)

(** The alternatives of the pattern's group, in its order. *)
Definition KEYWORDS : list JSString :=
  map utf16 ["if"; "ifdef"; "ifndef"; "elif"; "else"; "endif"]%string.

Definition word (s : string) : Regex := lit (utf16 s).

(** [/^\s*#\s*(if|ifdef|ifndef|elif|else|endif)\b/] *)
Definition PREPROCESSOR_REGEX : Regex :=
  Seq AssertStart
    (Seq (Star (Class isWhiteSpace))
       (Seq (Char 35)
          (Seq (Star (Class isWhiteSpace))
             (Seq (Group (Alt (word "if")
                            (Alt (word "ifdef")
                               (Alt (word "ifndef")
                                  (Alt (word "elif")
                                     (Alt (word "else") (word "endif")))))))
                WordBoundary)))).

(** ** Editor data *)

Record Position : Type := mkPosition { line : nat; character : nat }.

Module Range.
Record t : Type := mk { start : Position; end_ : Position }.
End Range.

Definition isBefore (a b : Position) : bool :=
  (line a <? line b) || ((line a =? line b) && (character a <? character b)).

(** [new vscode.Range(start, end)]: the host swaps the two positions when
    [start] is not before [end]. *)
Definition newRange (a b : Position) : Range.t :=
  if isBefore a b then Range.mk a b else Range.mk b a.

Inductive FoldingRangeKind : Type := Comment | Imports | Region.

Module FoldingRange.
Record t : Type := mk { start : nat; end_ : nat; kind : FoldingRangeKind }.
End FoldingRange.

Record TextLine : Type := mkTextLine { text : JSString; range : Range.t }.

Record Uri : Type := mkUri { scheme : JSString; fsPath : JSString }.

Record TextDocument : Type := mkTextDocument {
  uri : Uri;
  languageId : JSString;
  lines : list JSString
}.

Definition lineCount (document : TextDocument) : nat := length (lines document).

(** [document.lineAt(i)] for [i < lineCount]: the line's text and the range
    from its first to its last character. *)
Definition lineAt (document : TextDocument) (i : nat) : TextLine :=
  let t := nth i (lines document) [] in
  mkTextLine t (Range.mk (mkPosition i 0) (mkPosition i (length t))).

(** Editors are host objects; [editorId] stands for their identity. *)
Record TextEditor : Type := mkTextEditor { editorId : nat; document : TextDocument }.

(** ** [Set<number>] and [Array.prototype.sort] *)

Definition Set_has (x : nat) (s : list nat) : bool := existsb (Nat.eqb x) s.

(** [s.add(x)]: a set keeps its elements in insertion order, once each. *)
Definition Set_add (s : list nat) (x : nat) : list nat :=
  if Set_has x s then s else s ++ [x].

Fixpoint sort_insert {A : Type} (cmp : A -> A -> Z) (x : A) (l : list A) : list A :=
  match l with
  | [] => [x]
  | y :: l' => if (cmp x y <=? 0)%Z then x :: y :: l' else y :: sort_insert cmp x l'
  end.

(** [(a, b) => a - b] *)
Definition compareNumbers (a b : nat) : Z := (Z.of_nat a - Z.of_nat b)%Z.

(** [a.sort(cmp)]: the sort is stable; here by insertion, from the right. *)
Definition Array_sort {A : Type} (cmp : A -> A -> Z) (a : list A) : list A :=
  foldr (sort_insert cmp) [] a.

(** ** The folding aggregator *)

(** [for (let i = range.start.line; i <= range.end.line; i++)] *)
Definition rangeLines (r : Range.t) : list nat :=
  seq (line (Range.start r)) (S (line (Range.end_ r)) - line (Range.start r)).

(** The first two loops: every line number that the decoration hides. *)
Definition hiddenLinesOf (document : TextDocument) (inactiveRanges : list Range.t)
  : list nat :=
  let fromRanges :=
    fold_left (fun hiddenLines r => fold_left Set_add (rangeLines r) hiddenLines)
      inactiveRanges [] in
  fold_left
    (fun hiddenLines i =>
       if test PREPROCESSOR_REGEX (text (lineAt document i))
       then Set_add hiddenLines i else hiddenLines)
    (seq 0 (lineCount document)) fromRanges.

(** The loop's variables: [blockStart], [blockEnd], [foldingRanges]. *)
Definition Blocks : Type := (nat * nat * list FoldingRange.t)%type.

(** [if (blockEnd > blockStart) foldingRanges.push(...)] *)
Definition pushBlock (blockStart blockEnd : nat) (foldingRanges : list FoldingRange.t)
  : list FoldingRange.t :=
  if blockStart <? blockEnd
  then foldingRanges ++ [FoldingRange.mk blockStart blockEnd Region]
  else foldingRanges.

(** One turn of the grouping loop, at [sorted[i] = x]. *)
Definition groupStep (b : Blocks) (x : nat) : Blocks :=
  let '(blockStart, blockEnd, foldingRanges) := b in
  if x =? blockEnd + 1
  then (blockStart, x, foldingRanges)
  else (x, x, pushBlock blockStart blockEnd foldingRanges).

Definition groupConsecutive (sorted : list nat) : list FoldingRange.t :=
  match sorted with
  | [] => []
  | first :: others =>
      let '(blockStart, blockEnd, foldingRanges) :=
        fold_left groupStep others (first, first, []) in
      pushBlock blockStart blockEnd foldingRanges
  end.

Definition collectHiddenFoldingRanges
  (document : TextDocument) (inactiveRanges : list Range.t) : list FoldingRange.t :=
  let hiddenLines := hiddenLinesOf document inactiveRanges in
  if length hiddenLines =? 0 then []
  else
    let sorted := Array_sort compareNumbers hiddenLines in
    groupConsecutive sorted.

(** ** The region cache, [$inactiveRegionsMap] *)

Definition Map_set (m : gmap JSString (list Range.t)) (key : JSString)
  (regions : list Range.t) : gmap JSString (list Range.t) :=
  <[key := regions]> m.

(** [$inactiveRegionsMap.get(key) ?? []] *)
Definition Map_get_or_empty (m : gmap JSString (list Range.t)) (key : JSString)
  : list Range.t :=
  default [] (m !! key).

(** [$inactiveRegionsMap.clear()] *)
Definition Map_clear (m : gmap JSString (list Range.t)) : gmap JSString (list Range.t) := ∅.

(** ** Modes *)

Inductive HideIfdefMode : Type := visible | hidden | hiddenFolded.

#[global] Instance HideIfdefMode_eq_dec : EqDecision HideIfdefMode.
Proof. solve_decision. Defined.

Definition MODES : list HideIfdefMode := [visible; hidden; hiddenFolded].

(** [a.indexOf(x)], with [-1] when [x] is absent. *)
Fixpoint indexOf (a : list HideIfdefMode) (x : HideIfdefMode) : Z :=
  match a with
  | [] => (-1)%Z
  | y :: a' =>
      if decide (x = y) then 0%Z
      else let i := indexOf a' x in if (i <? 0)%Z then (-1)%Z else (i + 1)%Z
  end.

(** [MODES[(currentIndex + 1) % MODES.length]]; [Z.rem] is JavaScript's [%]. *)
Definition nextMode (mode : HideIfdefMode) : HideIfdefMode :=
  let currentIndex := indexOf MODES mode in
  nth (Z.to_nat (Z.rem (currentIndex + 1) (Z.of_nat (length MODES)))) MODES visible.

(** ** Module state and host effects *)

(** A decoration type is a host object: [decorationKey] stands for its
    identity, [opacity] for the render option it was created with. *)
Record TextEditorDecorationType : Type := mkDecoration {
  decorationKey : nat;
  opacity : JSString
}.

(** The module's variables; [created] counts the decoration types made so
    far and numbers the next one. *)
Record State : Type := mkState {
  inactiveRegionsMap : gmap JSString (list Range.t);
  lastDecoration : option TextEditorDecorationType;
  lastOpacity : JSString;
  hideIfdefMode : HideIfdefMode;
  created : nat
}.

(** What a handler does to the host and to the cache, in program order. *)
Inductive Effect : Type :=
| SetDecorations (editor : nat) (decorationType : TextEditorDecorationType)
    (ranges : list Range.t)
| CreateDecorationType (d : TextEditorDecorationType)
| DisposeDecorationType (d : TextEditorDecorationType)
| EditorUnfold (selectionLines : list nat) (levels : nat)
| EditorFold (selectionLines : list nat) (levels : nat)
| FoldingChangeFire
| FoldingChangeDispose
| Delay (ms : nat)
| WorkspaceStateUpdate (mode : HideIfdefMode)
| StatusBarAssign (mode : HideIfdefMode)
| InactiveRegionsSet (docKey : JSString) (regions : list Range.t)
| InactiveRegionsClear.

(** State passing with a trace of effects. *)
Definition M (A : Type) : Type := State -> A * State * list Effect.

#[global] Instance M_ret : MRet M := fun A a s => (a, s, []).

#[global] Instance M_bind : MBind M := fun A B f m s =>
  let '(a, s1, t1) := m s in
  let '(b, s2, t2) := f a s1 in
  (b, s2, t1 ++ t2).

Definition emit (e : Effect) : M unit := fun s => (tt, s, [e]).
Definition getState : M State := fun s => (s, s, []).
Definition putState (s' : State) : M unit := fun _ => (tt, s', []).

(** [for (const x of l) { await body(x); }] *)
Fixpoint forEach {A : Type} (l : list A) (body : A -> M unit) : M unit :=
  match l with
  | [] => mret tt
  | x :: l' => body x ;; forEach l' body
  end.

Definition stateOf {A : Type} (r : A * State * list Effect) : State := r.1.2.
Definition traceOf {A : Type} (r : A * State * list Effect) : list Effect := r.2.
Definition valueOf {A : Type} (r : A * State * list Effect) : A := r.1.1.

Arguments stateOf {A} !r /.
Arguments traceOf {A} !r /.
Arguments valueOf {A} !r /.

Definition isUnfold (e : Effect) : bool :=
  match e with EditorUnfold _ _ => true | _ => false end.
Definition isFold (e : Effect) : bool :=
  match e with EditorFold _ _ => true | _ => false end.
Definition isInactiveRegionsSet (e : Effect) : bool :=
  match e with InactiveRegionsSet _ _ => true | _ => false end.

Record LspPosition : Type := mkLspPosition { lsp_line : nat; lsp_character : nat }.
Record LspRange : Type := mkLspRange { lsp_start : LspPosition; lsp_end : LspPosition }.

(** The notification's payload; the handler reads [textDocument.uri] and
    [regions] only. *)
Record InactiveRegionsParams : Type := mkParams {
  textDocument_uri : JSString;
  regions : list LspRange
}.

(** [scheme !== "file" || !(languageId === "c" || languageId === "cpp")] *)
Definition unsupported (document : TextDocument) : bool :=
  negb (bool_decide (scheme (uri document) = utf16 "file"))
  || negb (bool_decide (languageId document = utf16 "c")
           || bool_decide (languageId document = utf16 "cpp")).

Definition preprocessorRangesOf (document : TextDocument) : list Range.t :=
  map range
    (filter (fun l => test PREPROCESSOR_REGEX (text l) = true)
       (map (lineAt document) (seq 0 (lineCount document)))).

(** The range list handed to [setDecorations]. *)
Definition decorationRanges (mode : HideIfdefMode)
  (inactiveRanges preprocessorRanges : list Range.t) : list Range.t :=
  if decide (mode <> visible)
  then inactiveRanges ++ preprocessorRanges
  else inactiveRanges.

(** Assignments to the module's variables. *)
Definition withMode (s : State) (mode : HideIfdefMode) : State :=
  mkState (inactiveRegionsMap s) (lastDecoration s) (lastOpacity s) mode (created s).

Definition withRegions (s : State) (m : gmap JSString (list Range.t)) : State :=
  mkState m (lastDecoration s) (lastOpacity s) (hideIfdefMode s) (created s).

Definition withDecoration (s : State) (d : option TextEditorDecorationType)
  (o : JSString) (n : nat) : State :=
  mkState (inactiveRegionsMap s) d o (hideIfdefMode s) n.

Section Extension.

(** [String.prototype.toLowerCase], [vscode.Uri.parse(_).fsPath] and
    [Number.prototype.toString] are the platform's. *)
Variable toLowerCase : JSString -> JSString.
Variable parseFsPath : JSString -> JSString.
Variable number : Type.
Variable toString : number -> JSString.

(** What the handlers read from the host: the editors on screen and the
    two configured opacities ([getHideIfdefOpacity()], [getClangdOpacity()],
    defaults applied). *)
Record Host : Type := mkHost {
  visibleTextEditors : list TextEditor;
  activeTextEditor : option TextEditor;
  getHideIfdefOpacity : number;
  getClangdOpacity : number
}.

Variable host : Host.

Definition docKeyOf (document : TextDocument) : JSString :=
  toLowerCase (fsPath (uri document)).

Definition targetOpacityOf (mode : HideIfdefMode) : JSString :=
  toString (if decide (mode <> visible)
            then getHideIfdefOpacity host else getClangdOpacity host).

Definition getDecoration : M TextEditorDecorationType :=
  s ← getState;
  let targetOpacity := targetOpacityOf (hideIfdefMode s) in
  let recreate : M TextEditorDecorationType :=
    match lastDecoration s with
    | Some old => emit (DisposeDecorationType old)
    | None => mret tt
    end;;
    let fresh := mkDecoration (created s) targetOpacity in
    emit (CreateDecorationType fresh);;
    putState (withDecoration s (Some fresh) targetOpacity (S (created s)));;
    mret fresh in
  match lastDecoration s with
  | Some d => if decide (lastOpacity s = targetOpacity) then mret d else recreate
  | None => recreate
  end.

Definition updateEditorDecoration (editor : TextEditor)
  (decorationType : TextEditorDecorationType) : M unit :=
  if unsupported (document editor) then mret tt
  else
    s ← getState;
    let inactiveRanges :=
      Map_get_or_empty (inactiveRegionsMap s) (docKeyOf (document editor)) in
    let preprocessorRanges := preprocessorRangesOf (document editor) in
    emit (SetDecorations (editorId editor) decorationType
            (decorationRanges (hideIfdefMode s) inactiveRanges preprocessorRanges)).

Definition autoFoldHiddenRanges (editor : TextEditor) : M unit :=
  s ← getState;
  if decide (hideIfdefMode s <> hiddenFolded) then mret tt
  else if unsupported (document editor) then mret tt
  else
    let docKey := docKeyOf (document editor) in
    let inactiveRanges := Map_get_or_empty (inactiveRegionsMap s) docKey in
    let foldingRanges := collectHiddenFoldingRanges (document editor) inactiveRanges in
    if length foldingRanges =? 0 then mret tt
    else
      emit (Delay 100);;
      emit (EditorFold (map FoldingRange.start foldingRanges) 1).

Definition updateActiveEditor : M unit :=
  decoration ← getDecoration;
  let active := activeTextEditor host in
  match active with
  | Some a => updateEditorDecoration a decoration
  | None => mret tt
  end;;
  forEach
    (filter (fun e => Some (editorId e) <> editorId <$> active)
       (visibleTextEditors host))
    (fun editor => updateEditorDecoration editor decoration).

(** The provider registered by [registerFoldingProvider]. *)
Definition provideFoldingRanges (s : State) (document : TextDocument)
  : list FoldingRange.t :=
  if decide (hideIfdefMode s = visible) then []
  else collectHiddenFoldingRanges document
         (Map_get_or_empty (inactiveRegionsMap s) (docKeyOf document)).

(** The body of the two unfold loops (notification handler, toggle
    command): [editor.unfold] at the start lines of the blocks computed
    from the cache as it is at that moment, when there are any. *)
Definition unfoldHiddenRanges (docKey : JSString) (editor : TextEditor) : M unit :=
  s ← getState;
  let ranges := Map_get_or_empty (inactiveRegionsMap s) docKey in
  let folding := collectHiddenFoldingRanges (document editor) ranges in
  if 0 <? length folding
  then emit (EditorUnfold (map FoldingRange.start folding) 1)
  else mret tt.

(** The handler of [textDocument/inactiveRegions]. *)
Definition onInactiveRegions (params : InactiveRegionsParams) : M unit :=
  let docKey := toLowerCase (parseFsPath (textDocument_uri params)) in
  let regions :=
    map (fun region =>
           newRange
             (mkPosition (lsp_line (lsp_start region)) (lsp_character (lsp_start region)))
             (mkPosition (lsp_line (lsp_end region)) (lsp_character (lsp_end region))))
      (regions params) in
  let affectedEditors :=
    filter (fun e => docKeyOf (document e) = docKey) (visibleTextEditors host) in
  s ← getState;
  (if decide (hideIfdefMode s = hiddenFolded)
   then forEach affectedEditors (unfoldHiddenRanges docKey)
   else mret tt);;
  s1 ← getState;
  putState (withRegions s1 (Map_set (inactiveRegionsMap s1) docKey regions));;
  emit (InactiveRegionsSet docKey regions);;
  emit FoldingChangeFire;;
  forEach affectedEditors
    (fun editor => d ← getDecoration; updateEditorDecoration editor d);;
  forEach affectedEditors autoFoldHiddenRanges.

(** The command registered by [registerToggleCommand]. *)
Definition toggleCommand : M unit :=
  s ← getState;
  let previousMode := hideIfdefMode s in
  let mode := nextMode (hideIfdefMode s) in
  putState (withMode s mode);;
  emit (WorkspaceStateUpdate mode);;
  emit FoldingChangeFire;;
  emit (StatusBarAssign mode);;
  updateActiveEditor;;
  s1 ← getState;
  (if decide (hideIfdefMode s1 = visible /\ previousMode = hiddenFolded)
   then forEach (visibleTextEditors host)
          (fun editor => unfoldHiddenRanges (docKeyOf (document editor)) editor)
   else mret tt);;
  s2 ← getState;
  (if decide (hideIfdefMode s2 = hiddenFolded)
   then forEach (visibleTextEditors host) autoFoldHiddenRanges
   else mret tt).

Definition deactivateIfDefHider : M unit :=
  s ← getState;
  match lastDecoration s with
  | Some d => emit (DisposeDecorationType d)
  | None => mret tt
  end;;
  putState (withRegions (withDecoration s None (lastOpacity s) (created s))
              (Map_clear (inactiveRegionsMap s)));;
  emit InactiveRegionsClear;;
  emit FoldingChangeDispose.

End Extension.

Arguments Host number : clear implicits.
Arguments mkHost {number}.
Arguments visibleTextEditors {number}.
Arguments activeTextEditor {number}.
Arguments getHideIfdefOpacity {number}.
Arguments getClangdOpacity {number}.
Arguments targetOpacityOf {number}.
Arguments getDecoration {number}.
Arguments updateActiveEditor toLowerCase {number}.
Arguments onInactiveRegions toLowerCase parseFsPath {number}.
Arguments toggleCommand toLowerCase {number}.

(** * The vocabulary of the properties *)

Fixpoint dropWhile (p : char16 -> bool) (l : JSString) : JSString :=
  match l with
  | c :: l' => if p c then dropWhile p l' else l
  | [] => []
  end.

(** A line as section 4.1 reads it: leading whitespace, an optional [#] with
    optional following whitespace, then a text that starts with a keyword. *)
Definition spec_stripOptionalHash (l : JSString) : JSString :=
  match l with
  | 35%N :: l' => dropWhile isWhiteSpace l'
  | _ => l
  end.

Fixpoint startsWith (l w : JSString) : bool :=
  match w, l with
  | [], _ => true
  | c :: w', d :: l' => (c =? d)%N && startsWith l' w'
  | _ :: _, [] => false
  end.

Definition spec_directiveLine (l : JSString) : bool :=
  existsb
    (startsWith (spec_stripOptionalHash (dropWhile isWhiteSpace l)))
    KEYWORDS.

(** What the pattern accepts: whitespace, [#], whitespace, a keyword, and
    then the end of the line or a code unit that is no word character. *)
Definition atWordEnd (tail : JSString) : Prop :=
  match tail with [] => True | c :: _ => isWordChar c = false end.

Definition DirectiveLine (l : JSString) : Prop :=
  exists ws1 ws2 kw tail,
    l = ws1 ++ 35%N :: ws2 ++ kw ++ tail
    /\ Forall (fun c => isWhiteSpace c = true) ws1
    /\ Forall (fun c => isWhiteSpace c = true) ws2
    /\ kw ∈ KEYWORDS
    /\ atWordEnd tail.

(** The code unit before the position reached by reading [w]. *)
Definition beforeAfter (b : option char16) (w : JSString) : option char16 :=
  match last w with Some c => Some c | None => b end.

Definition byStart (a b : FoldingRange.t) : Prop :=
  FoldingRange.start a < FoldingRange.start b.

Definition spansTwoLines (b : FoldingRange.t) : Prop :=
  FoldingRange.start b < FoldingRange.end_ b.

(** The loop invariant: the open block is well formed, and every emitted
    block spans two lines or more, ends before the open block starts, and
    starts after the blocks emitted before it. *)
Definition groupInv (b : Blocks) : Prop :=
  let '(blockStart, blockEnd, foldingRanges) := b in
  blockStart <= blockEnd
  /\ Forall (fun r => spansTwoLines r /\ FoldingRange.end_ r < blockStart) foldingRanges
  /\ StronglySorted byStart foldingRanges.

(** The effects of decorating: nothing is folded, unfolded or cached. *)
Definition isDecorationEffect (e : Effect) : bool :=
  match e with
  | SetDecorations _ _ _ | CreateDecorationType _ | DisposeDecorationType _ => true
  | _ => false
  end.

(** [s'] has the cache and the mode of [s]. *)
Definition sameRegionsAndMode (s s' : State) : Prop :=
  inactiveRegionsMap s' = inactiveRegionsMap s /\ hideIfdefMode s' = hideIfdefMode s.

(** The unfold command of one editor, from the cache [m] under [docKey]. *)
Definition unfoldTrace (m : gmap JSString (list Range.t)) (docKey : JSString)
  (editor : TextEditor) : list Effect :=
  let folding :=
    collectHiddenFoldingRanges (document editor) (Map_get_or_empty m docKey) in
  if 0 <? length folding
  then [EditorUnfold (map FoldingRange.start folding) 1]
  else [].

(** The fold command of one editor in [hiddenFolded] mode, from the
    inactive ranges of its document. *)
Definition foldTrace (inactiveRanges : list Range.t) (editor : TextEditor)
  : list Effect :=
  if unsupported (document editor) then []
  else
    let foldingRanges := collectHiddenFoldingRanges (document editor) inactiveRanges in
    if length foldingRanges =? 0 then []
    else [Delay 100; EditorFold (map FoldingRange.start foldingRanges) 1].

(** The ranges handed to [setDecorations] in a trace. *)
Definition decoratedRanges (t : list Effect) : list Range.t :=
  flat_map (fun e => match e with SetDecorations _ _ ranges => ranges | _ => [] end) t.

(** The lines a range list touches. *)
Definition coversLine (ranges : list Range.t) (i : nat) : Prop :=
  exists r, r ∈ ranges /\ line (Range.start r) <= i <= line (Range.end_ r).

(** The range of line [i] of a document: from its first character to its
    end. *)
Definition lineRange (document : TextDocument) (i : nat) : Range.t :=
  Range.mk (mkPosition i 0) (mkPosition i (length (nth i (lines document) []))).

(** The document of the scenario, a C file at [path]. *)
Definition scenarioDocument (path : JSString) : TextDocument :=
  mkTextDocument (mkUri (utf16 "file") path) (utf16 "c")
    (map utf16 ["#if 1"; "int x;"; "#else"; "int y;"; "#endif"]%string).

(** [$lastOpacity] is the opacity of [$lastDecoration], when there is one. *)
Definition styleRecorded (s : State) : Prop :=
  forall d, lastDecoration s = Some d -> opacity d = lastOpacity s.

(** The regions the handler stores: each reported span as a
    [vscode.Range]. *)
Definition receivedRegions (params : InactiveRegionsParams) : list Range.t :=
  map (fun region =>
         newRange
           (mkPosition (lsp_line (lsp_start region)) (lsp_character (lsp_start region)))
           (mkPosition (lsp_line (lsp_end region)) (lsp_character (lsp_end region))))
    (regions params).

(** A computation that only decorates: it keeps the cache, the mode and the
    record of the last style's opacity, and its effects are decoration
    effects. *)
Definition decorates {A : Type} (m : M A) : Prop :=
  forall s, sameRegionsAndMode s (stateOf (m s))
            /\ Forall (fun e => isDecorationEffect e = true) (traceOf (m s))
            /\ (styleRecorded s -> styleRecorded (stateOf (m s))).

Section Vocabulary.

Variable toLowerCase : JSString -> JSString.
Variable parseFsPath : JSString -> JSString.
Variable number : Type.
Variable toString : number -> JSString.
Variable host : Host number.

Definition receivedDocKey (params : InactiveRegionsParams) : JSString :=
  toLowerCase (parseFsPath (textDocument_uri params)).

Definition affectedEditorsOf (params : InactiveRegionsParams) : list TextEditor :=
  filter (fun e => docKeyOf toLowerCase (document e) = receivedDocKey params)
    (visibleTextEditors host).

(** The unfold and fold commands of the toggle command in state [s], one
    entry per visible editor. *)
Definition toggleUnfolds (s : State) : list Effect :=
  flat_map
    (fun editor =>
       unfoldTrace (inactiveRegionsMap s)
         (docKeyOf toLowerCase (document editor)) editor)
    (visibleTextEditors host).

Definition toggleFolds (s : State) : list Effect :=
  flat_map
    (fun editor =>
       foldTrace (Map_get_or_empty (inactiveRegionsMap s)
                    (docKeyOf toLowerCase (document editor))) editor)
    (visibleTextEditors host).

(** The opacity the decoration must have in [mode]. *)
Definition styleOpacity (mode : HideIfdefMode) : JSString :=
  toString (match mode with
            | visible => getClangdOpacity host
            | hidden | hiddenFolded => getHideIfdefOpacity host
            end).

End Vocabulary.

Arguments receivedDocKey toLowerCase parseFsPath params /.
Arguments affectedEditorsOf toLowerCase parseFsPath {number} host params.
Arguments toggleUnfolds toLowerCase {number} host s.
Arguments toggleFolds toLowerCase {number} host s.
Arguments styleOpacity {number} toString host mode.

(** ** The scenario of section 8 *)

Definition exampleToString (n : nat) : JSString := [N.of_nat n].

Definition exampleEditor : TextEditor := mkTextEditor 1 (scenarioDocument (utf16 "/a.c")).

Definition exampleHost : Host nat :=
  mkHost [exampleEditor] (Some exampleEditor) 0 55.

Definition exampleRegion : Range.t := Range.mk (mkPosition 2 0) (mkPosition 3 6).

(** [hiddenFolded] mode, the region of lines 2 to 3 cached, no style yet. *)
Definition exampleState : State :=
  mkState (Map_set ∅ (utf16 "/a.c") [exampleRegion]) None [] hiddenFolded 0.

(** A notification that reports no inactive region for the document. *)
Definition exampleParams : InactiveRegionsParams := mkParams (utf16 "/a.c") [].

(** * The rest of the extension *)

(** The modes as the workspace state and the configuration name them. *)
Definition modeName (mode : HideIfdefMode) : JSString :=
  match mode with
  | visible => utf16 "visible"
  | hidden => utf16 "hidden"
  | hiddenFolded => utf16 "hiddenFolded"
  end.

(** [MODES.includes(storedMode)]: the mode that a stored string names, if it
    names one. *)
Definition modeOfName (name : JSString) : option HideIfdefMode :=
  List.find (fun mode => bool_decide (modeName mode = name)) MODES.

(** [initializeHideIfdefSetting]: [storedMode] is the workspace state's entry
    ([None] for [undefined]), [configuredMode] the setting [ifdef.mode]
    ([None] when unset, for which [get] answers ["visible"]). *)
Definition initializeHideIfdefSetting (storedMode : option JSString)
  (configuredMode : option HideIfdefMode) : M unit :=
  match storedMode ≫= modeOfName with
  | Some mode => s ← getState; putState (withMode s mode)
  | None =>
      s ← getState;
      let mode := default visible configuredMode in
      putState (withMode s mode);;
      emit (WorkspaceStateUpdate mode)
  end.

(** The module's variables as the file initialises them. *)
Definition initialState : State := mkState ∅ None [] hiddenFolded 0.

(** The filter that [subscribeClangdInactiveNotifications] puts around
    clangd's own folding ranges; [ranges] is what clangd answered ([None] for
    [null] or [undefined]). *)
Definition clangdProvideFoldingRanges (s : State) (document : TextDocument)
  (ranges : option (list FoldingRange.t)) : list FoldingRange.t :=
  match ranges with
  | None => []
  | Some ranges =>
      if decide (hideIfdefMode s = visible) then ranges
      else
        filter
          (fun r =>
             lineCount document <= FoldingRange.start r
             \/ test PREPROCESSOR_REGEX
                  (text (lineAt document (FoldingRange.start r))) = false)
          ranges
  end.

Section Lifecycle.

Variable toLowerCase : JSString -> JSString.
Variable parseFsPath : JSString -> JSString.
Variable number : Type.
Variable toString : number -> JSString.

(** The handlers of [registerEventHandlers]. *)
Definition onDidChangeTextDocument (host : Host number) (ofActiveDocument : bool)
  : M unit :=
  match activeTextEditor host with
  | Some active =>
      if ofActiveDocument
      then d ← getDecoration toString host;
           updateEditorDecoration toLowerCase active d
      else mret tt
  | None => mret tt
  end.

Definition onDidChangeActiveTextEditor (host : Host number)
  (editor : option TextEditor) : M unit :=
  match editor with
  | Some editor =>
      d ← getDecoration toString host;
      updateEditorDecoration toLowerCase editor d;;
      autoFoldHiddenRanges toLowerCase editor
  | None => mret tt
  end.

Definition onDidChangeConfiguration (host : Host number) (affectsIfdef : bool)
  : M unit :=
  (if affectsIfdef then updateActiveEditor toLowerCase toString host else mret tt);;
  s ← getState;
  emit (StatusBarAssign (hideIfdefMode s)).

(** [activateIfDefHider]: the registrations install the handlers and the
    providers and do nothing else; what runs at once is the initialisation,
    the status bar's first text, the decorations and the start-up fold. *)
Definition activateIfDefHider (host : Host number) (storedMode : option JSString)
  (configuredMode : option HideIfdefMode) : M unit :=
  initializeHideIfdefSetting storedMode configuredMode;;
  s ← getState;
  emit (StatusBarAssign (hideIfdefMode s));;
  updateActiveEditor toLowerCase toString host;;
  forEach (visibleTextEditors host) (autoFoldHiddenRanges toLowerCase).

(** What the host can ask of the activated extension. *)
Inductive Event : Type :=
| InactiveRegionsChanged (params : InactiveRegionsParams)
| ToggleInvoked
| TextDocumentChanged (ofActiveDocument : bool)
| ActiveTextEditorChanged (editor : option TextEditor)
| ConfigurationChanged (affectsIfdef : bool).

Definition handle (host : Host number) (e : Event) : M unit :=
  match e with
  | InactiveRegionsChanged params =>
      onInactiveRegions toLowerCase parseFsPath toString host params
  | ToggleInvoked => toggleCommand toLowerCase toString host
  | TextDocumentChanged ofActiveDocument =>
      onDidChangeTextDocument host ofActiveDocument
  | ActiveTextEditorChanged editor => onDidChangeActiveTextEditor host editor
  | ConfigurationChanged affectsIfdef => onDidChangeConfiguration host affectsIfdef
  end.

(** The events of a session, one after the other, each with the host as it
    is when the event arrives. *)
Definition handleAll (events : list (Host number * Event)) : M unit :=
  forEach events (fun he => handle he.1 he.2).

End Lifecycle.

Arguments onDidChangeTextDocument toLowerCase {number}.
Arguments onDidChangeActiveTextEditor toLowerCase {number}.
Arguments onDidChangeConfiguration toLowerCase {number}.
Arguments activateIfDefHider toLowerCase {number}.
Arguments handle toLowerCase parseFsPath {number}.
Arguments handleAll toLowerCase parseFsPath {number}.

(** * The two-state tracker of [ifdef.ts] *)

(** [ifdef.ts] is the tracker without folding: a boolean [$hideIfdefEnabled]
    stands where [extension.ts] has the mode, and there is neither a folding
    provider nor a fold or unfold command. *)
Module Legacy.

Record State : Type := mkState {
  inactiveRegionsMap : gmap JSString (list Range.t);
  lastDecoration : option TextEditorDecorationType;
  lastOpacity : JSString;
  hideIfdefEnabled : bool;
  created : nat
}.

Inductive Effect : Type :=
| SetDecorations (editor : nat) (decorationType : TextEditorDecorationType)
    (ranges : list Range.t)
| CreateDecorationType (d : TextEditorDecorationType)
| DisposeDecorationType (d : TextEditorDecorationType)
| WorkspaceStateUpdate (enabled : bool)
| StatusBarAssign (enabled : bool)
| InactiveRegionsSet (docKey : JSString) (regions : list Range.t)
| InactiveRegionsClear.

Definition M (A : Type) : Type := State -> A * State * list Effect.

#[global] Instance M_ret : MRet M := fun A a s => (a, s, []).

#[global] Instance M_bind : MBind M := fun A B f m s =>
  let '(a, s1, t1) := m s in
  let '(b, s2, t2) := f a s1 in
  (b, s2, t1 ++ t2).

Definition emit (e : Effect) : M unit := fun s => (tt, s, [e]).
Definition getState : M State := fun s => (s, s, []).
Definition putState (s' : State) : M unit := fun _ => (tt, s', []).

Fixpoint forEach {A : Type} (l : list A) (body : A -> M unit) : M unit :=
  match l with
  | [] => mret tt
  | x :: l' => body x ;; forEach l' body
  end.

Definition withEnabled (s : State) (enabled : bool) : State :=
  mkState (inactiveRegionsMap s) (lastDecoration s) (lastOpacity s) enabled (created s).

Definition withRegions (s : State) (m : gmap JSString (list Range.t)) : State :=
  mkState m (lastDecoration s) (lastOpacity s) (hideIfdefEnabled s) (created s).

Definition withDecoration (s : State) (d : option TextEditorDecorationType)
  (o : JSString) (n : nat) : State :=
  mkState (inactiveRegionsMap s) d o (hideIfdefEnabled s) n.

(** The module's variables as the file initialises them. *)
Definition initialState : State := mkState ∅ None [] true 0.

(** [initializeHideIfdefSetting]: [storedEnabled] is the workspace state's
    entry ([None] for [undefined]), [configuredEnabled] the setting
    [ifdef.enabled] ([None] when unset, for which [get] answers [false]). *)
Definition initializeHideIfdefSetting (storedEnabled configuredEnabled : option bool)
  : M unit :=
  match storedEnabled with
  | Some enabled => s ← getState; putState (withEnabled s enabled)
  | None =>
      s ← getState;
      let enabled := default false configuredEnabled in
      putState (withEnabled s enabled);;
      emit (WorkspaceStateUpdate enabled)
  end.

Section Tracker.

Variable toLowerCase : JSString -> JSString.
Variable parseFsPath : JSString -> JSString.
Variable number : Type.
Variable toString : number -> JSString.
Variable host : Host number.

Definition getDecoration : M TextEditorDecorationType :=
  s ← getState;
  let targetOpacity :=
    toString (if hideIfdefEnabled s
              then getHideIfdefOpacity host else getClangdOpacity host) in
  let recreate : M TextEditorDecorationType :=
    match lastDecoration s with
    | Some old => emit (DisposeDecorationType old)
    | None => mret tt
    end;;
    let fresh := mkDecoration (created s) targetOpacity in
    emit (CreateDecorationType fresh);;
    putState (withDecoration s (Some fresh) targetOpacity (S (created s)));;
    mret fresh in
  match lastDecoration s with
  | Some d => if decide (lastOpacity s = targetOpacity) then mret d else recreate
  | None => recreate
  end.

Definition updateEditorDecoration (editor : TextEditor)
  (decorationType : TextEditorDecorationType) : M unit :=
  if unsupported (document editor) then mret tt
  else
    s ← getState;
    let inactiveRanges :=
      Map_get_or_empty (inactiveRegionsMap s)
        (docKeyOf toLowerCase (document editor)) in
    let preprocessorRanges := preprocessorRangesOf (document editor) in
    emit (SetDecorations (editorId editor) decorationType
            (if hideIfdefEnabled s
             then inactiveRanges ++ preprocessorRanges
             else inactiveRanges)).

Definition updateActiveEditor : M unit :=
  decoration ← getDecoration;
  let active := activeTextEditor host in
  match active with
  | Some a => updateEditorDecoration a decoration
  | None => mret tt
  end;;
  forEach
    (filter (fun e => Some (editorId e) <> editorId <$> active)
       (visibleTextEditors host))
    (fun editor => updateEditorDecoration editor decoration).

(** The handler of [textDocument/inactiveRegions]. *)
Definition onInactiveRegions (params : InactiveRegionsParams) : M unit :=
  let docKey := toLowerCase (parseFsPath (textDocument_uri params)) in
  let regions :=
    map (fun region =>
           newRange
             (mkPosition (lsp_line (lsp_start region)) (lsp_character (lsp_start region)))
             (mkPosition (lsp_line (lsp_end region)) (lsp_character (lsp_end region))))
      (regions params) in
  s ← getState;
  putState (withRegions s (Map_set (inactiveRegionsMap s) docKey regions));;
  emit (InactiveRegionsSet docKey regions);;
  forEach
    (filter (fun e => docKeyOf toLowerCase (document e) = docKey)
       (visibleTextEditors host))
    (fun editor => d ← getDecoration; updateEditorDecoration editor d).

(** The command registered by [registerToggleCommand]. *)
Definition toggleCommand : M unit :=
  s ← getState;
  let enabled := negb (hideIfdefEnabled s) in
  putState (withEnabled s enabled);;
  emit (WorkspaceStateUpdate enabled);;
  emit (StatusBarAssign enabled);;
  updateActiveEditor.

(** The handlers of [registerEventHandlers]. *)
Definition onDidChangeTextDocument (ofActiveDocument : bool) : M unit :=
  match activeTextEditor host with
  | Some active =>
      if ofActiveDocument
      then d ← getDecoration; updateEditorDecoration active d
      else mret tt
  | None => mret tt
  end.

Definition onDidChangeActiveTextEditor (editor : option TextEditor) : M unit :=
  match editor with
  | Some editor => d ← getDecoration; updateEditorDecoration editor d
  | None => mret tt
  end.

Definition onDidChangeConfiguration (affectsIfdef : bool) : M unit :=
  (if affectsIfdef then updateActiveEditor else mret tt);;
  s ← getState;
  emit (StatusBarAssign (hideIfdefEnabled s)).

Definition activateIfDefHider (storedEnabled configuredEnabled : option bool)
  : M unit :=
  initializeHideIfdefSetting storedEnabled configuredEnabled;;
  s ← getState;
  emit (StatusBarAssign (hideIfdefEnabled s));;
  updateActiveEditor.

Definition handle (e : Event) : M unit :=
  match e with
  | InactiveRegionsChanged params => onInactiveRegions params
  | ToggleInvoked => toggleCommand
  | TextDocumentChanged ofActiveDocument => onDidChangeTextDocument ofActiveDocument
  | ActiveTextEditorChanged editor => onDidChangeActiveTextEditor editor
  | ConfigurationChanged affectsIfdef => onDidChangeConfiguration affectsIfdef
  end.

End Tracker.

Definition handleAll (toLowerCase parseFsPath : JSString -> JSString) {number : Type}
  (toString : number -> JSString) (events : list (Host number * Event)) : M unit :=
  forEach events (fun he => handle toLowerCase parseFsPath number toString he.1 he.2).

Definition deactivateIfDefHider : M unit :=
  s ← getState;
  match lastDecoration s with
  | Some d =>
      emit (DisposeDecorationType d);;
      putState (withDecoration s None (lastOpacity s) (created s))
  | None => mret tt
  end;;
  s1 ← getState;
  putState (withRegions s1 (Map_clear (inactiveRegionsMap s1)));;
  emit InactiveRegionsClear.

Arguments getDecoration {number}.
Arguments updateActiveEditor toLowerCase {number}.
Arguments onInactiveRegions toLowerCase parseFsPath {number}.
Arguments toggleCommand toLowerCase {number}.
Arguments onDidChangeTextDocument toLowerCase {number}.
Arguments onDidChangeActiveTextEditor toLowerCase {number}.
Arguments onDidChangeConfiguration toLowerCase {number}.
Arguments activateIfDefHider toLowerCase {number}.
Arguments handle toLowerCase parseFsPath {number}.

End Legacy.

(** ** The vocabulary of the further properties *)

(** What the grouping loop emits from [blockStart], [blockEnd] on the lines
    still to come, read as a recursion. *)
Fixpoint runsFrom (blockStart blockEnd : nat) (sorted : list nat)
  : list FoldingRange.t :=
  match sorted with
  | [] => pushBlock blockStart blockEnd []
  | x :: sorted' =>
      if x =? blockEnd + 1 then runsFrom blockStart x sorted'
      else pushBlock blockStart blockEnd [] ++ runsFrom x x sorted'
  end.

(** The lines the loop still has in hand: the open block and the lines to
    come. *)
Definition pendingLine (blockStart blockEnd : nat) (sorted : list nat) (i : nat)
  : Prop :=
  blockStart <= i <= blockEnd \/ i ∈ sorted.

Definition inBlock (b : FoldingRange.t) (i : nat) : Prop :=
  FoldingRange.start b <= i <= FoldingRange.end_ b.

(** A line that the decoration hides: a line of an inactive range or a
    directive line of the document. *)
Definition hiddenLine (document : TextDocument) (inactiveRanges : list Range.t)
  (i : nat) : Prop :=
  coversLine inactiveRanges i
  \/ (i < lineCount document
      /\ test PREPROCESSOR_REGEX (text (lineAt document i)) = true).

#[global] Instance TextEditorDecorationType_eq_dec : EqDecision TextEditorDecorationType.
Proof. solve_decision. Defined.

(** The [setDecorations] calls of a trace: editor, style and ranges. *)
Definition decorationsOf (t : list Effect)
  : list (nat * TextEditorDecorationType * list Range.t) :=
  flat_map
    (fun e => match e with
              | SetDecorations editor d ranges => [(editor, d, ranges)]
              | _ => []
              end)
    t.

(** The [setDecorations] call that [updateEditorDecoration] makes for
    [editor] with style [d], mode [mode] and cache [m]: none for an
    unsupported document. *)
Definition decorationOf (toLowerCase : JSString -> JSString) (mode : HideIfdefMode)
  (m : gmap JSString (list Range.t)) (d : TextEditorDecorationType)
  (editor : TextEditor) : list (nat * TextEditorDecorationType * list Range.t) :=
  if unsupported (document editor) then []
  else [(editorId editor, d,
         decorationRanges mode
           (Map_get_or_empty m (docKeyOf toLowerCase (document editor)))
           (preprocessorRangesOf (document editor)))].

(** The styles alive after an effect, from those alive before it: [None]
    when the effect disposes of, or decorates with, a style that is not
    alive. *)
Definition stylesStep (live : list TextEditorDecorationType) (e : Effect)
  : option (list TextEditorDecorationType) :=
  match e with
  | CreateDecorationType d => Some (d :: live)
  | DisposeDecorationType d =>
      if decide (d ∈ live) then Some (filter (fun d' => d' <> d) live) else None
  | SetDecorations _ d _ => if decide (d ∈ live) then Some live else None
  | _ => Some live
  end.

Fixpoint stylesAfter (live : list TextEditorDecorationType) (t : list Effect)
  : option (list TextEditorDecorationType) :=
  match t with
  | [] => Some live
  | e :: t' => stylesStep live e ≫= fun live' => stylesAfter live' t'
  end.

(** Run from [s], the computation [m] uses the styles soundly: it starts
    with the last style alive, if there is one, and ends with the last style
    alive, and no other. *)
Definition keepsStyles {A : Type} (m : M A) (s : State) : Prop :=
  stylesAfter (option_list (lastDecoration s)) (traceOf (m s))
  = Some (option_list (lastDecoration (stateOf (m s)))).

(** The mode and the cache after a session's events: only the toggle steps
    the mode, only a notification writes the cache. *)
Definition modeAfter {number : Type} (events : list (Host number * Event))
  (mode : HideIfdefMode) : HideIfdefMode :=
  foldl (fun mode he => match he.2 with
                        | ToggleInvoked => nextMode mode
                        | _ => mode
                        end)
    mode events.

Definition regionsAfter {number : Type} (toLowerCase parseFsPath : JSString -> JSString)
  (events : list (Host number * Event)) (m : gmap JSString (list Range.t))
  : gmap JSString (list Range.t) :=
  foldl (fun m he => match he.2 with
                     | InactiveRegionsChanged params =>
                         Map_set m (receivedDocKey toLowerCase parseFsPath params)
                           (receivedRegions params)
                     | _ => m
                     end)
    m events.

(** The editors that [updateActiveEditor] visits, in its order: the active
    one, then the visible ones that are not the active one. *)
Definition editorsInTurn {number : Type} (host : Host number) : list TextEditor :=
  option_list (activeTextEditor host)
  ++ filter (fun e => Some (editorId e) <> editorId <$> activeTextEditor host)
       (visibleTextEditors host).

(** The mode that [initializeHideIfdefSetting] picks. *)
Definition startMode (storedMode : option JSString)
  (configuredMode : option HideIfdefMode) : HideIfdefMode :=
  default (default visible configuredMode) (storedMode ≫= modeOfName).

(** ** [extension.ts] seen as [ifdef.ts] *)

(** A mode read as the older file's boolean: hiding is on unless the mode is
    [visible]. *)
Definition enabledOf (mode : HideIfdefMode) : bool := bool_decide (mode <> visible).

(** The variables of [extension.ts] read as those of [ifdef.ts]. *)
Definition legacyStateOf (s : State) : Legacy.State :=
  Legacy.mkState (inactiveRegionsMap s) (lastDecoration s) (lastOpacity s)
    (enabledOf (hideIfdefMode s)) (created s).

(** An effect of [extension.ts] read as an effect of [ifdef.ts]: what
    concerns folding has no counterpart, and a mode written to the workspace
    state or to the status bar is read as the boolean. *)
Definition legacyView (e : Effect) : list Legacy.Effect :=
  match e with
  | SetDecorations editor d ranges => [Legacy.SetDecorations editor d ranges]
  | CreateDecorationType d => [Legacy.CreateDecorationType d]
  | DisposeDecorationType d => [Legacy.DisposeDecorationType d]
  | WorkspaceStateUpdate mode => [Legacy.WorkspaceStateUpdate (enabledOf mode)]
  | StatusBarAssign mode => [Legacy.StatusBarAssign (enabledOf mode)]
  | InactiveRegionsSet docKey regions => [Legacy.InactiveRegionsSet docKey regions]
  | InactiveRegionsClear => [Legacy.InactiveRegionsClear]
  | EditorUnfold _ _ | EditorFold _ _ | FoldingChangeFire | FoldingChangeDispose
  | Delay _ => []
  end.

(** Run from [s], the computation [m] of [extension.ts] does what [m'] of
    [ifdef.ts] does from the state read off [s]: the same value, the state
    read off the final state, the effects read off the trace. *)
Definition refinesAt {A : Type} (s : State) (m : M A) (m' : Legacy.M A) : Prop :=
  m' (legacyStateOf s)
  = (valueOf (m s), legacyStateOf (stateOf (m s)),
     flat_map legacyView (traceOf (m s))).

Definition refines {A : Type} (m : M A) (m' : Legacy.M A) : Prop :=
  forall s, refinesAt s m m'.

(** A computation of [extension.ts] that [ifdef.ts] does not see. *)
Definition silent {A : Type} (m : M A) : Prop :=
  forall s, stateOf (m s) = s /\ flat_map legacyView (traceOf (m s)) = [].

(** The toggles of a session, from [mode] on, are toggles that [ifdef.ts]
    has too: none is invoked in [hidden] mode, where [extension.ts] goes on to
    [hiddenFolded] and [ifdef.ts] would switch the hiding off. *)
Fixpoint togglesAsLegacy {number : Type} (events : list (Host number * Event))
  (mode : HideIfdefMode) : Prop :=
  match events with
  | [] => True
  | he :: events' =>
      (he.2 = ToggleInvoked -> mode <> hidden)
      /\ togglesAsLegacy events'
           (match he.2 with ToggleInvoked => nextMode mode | _ => mode end)
  end.

(** The [setDecorations] calls listed by [decorationsOf], as effects. *)
Definition setDecorationsOf
  (calls : list (nat * TextEditorDecorationType * list Range.t)) : list Effect :=
  (fun call => SetDecorations call.1.1 call.1.2 call.2) <$> calls.

(** Every [setDecorations] call of the trace uses a style of opacity [o]. *)
Definition decoratesWith (o : JSString) (t : list Effect) : Prop :=
  forall editor d ranges, SetDecorations editor d ranges ∈ t -> opacity d = o.

(** Run from [s], where the last style's opacity is on record, the
    computation [m] keeps the mode and the record, and decorates only with
    styles of the opacity that [host] asks for in that mode. *)
Definition rendersMode {number : Type} (toString : number -> JSString)
  (host : Host number) {A : Type} (m : M A) (s : State) : Prop :=
  styleRecorded s ->
  styleRecorded (stateOf (m s))
  /\ hideIfdefMode (stateOf (m s)) = hideIfdefMode s
  /\ decoratesWith (styleOpacity toString host (hideIfdefMode s)) (traceOf (m s)).

(** * Properties *)

(** ** The matcher *)

Lemma beforeAfter_cons b c w : beforeAfter b (c :: w) = beforeAfter (Some c) w.
Proof.
  unfold beforeAfter. destruct w as [|d w]; [reflexivity|].
  rewrite last_cons. destruct (last (d :: w)) eqn:E; [reflexivity|].
  exfalso. revert E. rewrite last_None. discriminate.
Qed.

Lemma exec_lit w k : forall b s,
  exec (lit w) (mkPos b s) k = true
  <-> exists s', s = w ++ s' /\ k (mkPos (beforeAfter b w) s') = true.
Proof.
  induction w as [|c w IH]; intros b s; simpl.
  - split; [intros H; exists s; auto | intros (s' & -> & H); exact H].
  - unfold CharacterSetMatcher; simpl. destruct s as [|d s].
    + split; [discriminate | intros (s' & E & _); discriminate].
    + destruct (N.eqb_spec c d) as [->|Hne].
      * rewrite IH. setoid_rewrite beforeAfter_cons.
        split; intros (s' & E & H); exists s'; split; auto; congruence.
      * split; [discriminate | intros (s' & E & _); congruence].
Qed.

Lemma RepeatMatcher_class p k : forall fuel b s,
  length s <= fuel ->
  RepeatMatcher (exec (Class p)) fuel (mkPos b s) k = true
  <-> exists ws s', s = ws ++ s' /\ Forall (fun c => p c = true) ws
                    /\ k (mkPos (beforeAfter b ws) s') = true.
Proof.
  induction fuel as [|fuel IH]; intros b s Hlen.
  - destruct s; [|simpl in Hlen; lia]. simpl. split.
    + intros H. exists [], []. auto.
    + intros (ws & s' & E & _ & H). symmetry in E.
      apply app_eq_nil in E as [-> ->]. exact H.
  - simpl. unfold CharacterSetMatcher. simpl. destruct s as [|c s].
    + simpl. split.
      * intros H. exists [], []. auto.
      * intros (ws & s' & E & _ & H). symmetry in E.
        apply app_eq_nil in E as [-> ->]. exact H.
    + rewrite orb_true_iff. simpl in Hlen.
      assert (Hlt : (length s <? S (length s)) = true) by (apply Nat.ltb_lt; lia).
      simpl length. rewrite Hlt. split.
      * intros [H | H].
        -- destruct (p c) eqn:Hp; [|discriminate].
           apply IH in H as (ws & s' & -> & Hws & H); [|lia].
           exists (c :: ws), s'. rewrite beforeAfter_cons. auto.
        -- exists [], (c :: s). auto.
      * intros (ws & s' & E & Hws & H). destruct ws as [|d ws].
        -- simpl in E. subst s'. right. exact H.
        -- simpl in E. injection E as <- ->. left.
           apply Forall_cons in Hws as [Hp Hws]. rewrite Hp.
           apply IH; [lia|].
           exists ws, s'. rewrite beforeAfter_cons in H. auto.
Qed.

Lemma exec_star_class p k b s :
  exec (Star (Class p)) (mkPos b s) k = true
  <-> exists ws s', s = ws ++ s' /\ Forall (fun c => p c = true) ws
                    /\ k (mkPos (beforeAfter b ws) s') = true.
Proof. simpl. apply RepeatMatcher_class. lia. Qed.

Lemma search_anchored r c : forall s, search (Seq AssertStart r) (Some c) s = false.
Proof.
  intros s. revert c. induction s as [|d s IH]; intros c; simpl; [reflexivity|].
  apply IH.
Qed.

Lemma test_anchored r s :
  test (Seq AssertStart r) s = exec r (mkPos None s) (fun _ => true).
Proof.
  unfold test. destruct s as [|c s]; simpl.
  - apply orb_false_r.
  - rewrite search_anchored. apply orb_false_r.
Qed.

Lemma exec_char c r k b s :
  exec (Seq (Char c) r) (mkPos b s) k = true
  <-> exists s', s = c :: s' /\ exec r (mkPos (Some c) s') k = true.
Proof.
  cbn [exec]. unfold CharacterSetMatcher; simpl. destruct s as [|d s].
  - split; [discriminate | intros (s' & E & _); discriminate].
  - destruct (N.eqb_spec c d) as [->|Hne].
    + split; [intros H; exists s; auto | intros (s' & E & H); congruence].
    + split; [discriminate | intros (s' & E & _); congruence].
Qed.

Lemma elem_of_KEYWORDS kw :
  kw ∈ KEYWORDS
  <-> kw = utf16 "if" \/ kw = utf16 "ifdef" \/ kw = utf16 "ifndef"
      \/ kw = utf16 "elif" \/ kw = utf16 "else" \/ kw = utf16 "endif".
Proof.
  unfold KEYWORDS. cbn [map]. rewrite !elem_of_cons, elem_of_nil. tauto.
Qed.

(** The group of the pattern reads one of the keywords and nothing else. *)
Lemma exec_keyword_group k b s :
  exec (Group (Alt (word "if") (Alt (word "ifdef") (Alt (word "ifndef")
          (Alt (word "elif") (Alt (word "else") (word "endif")))))))
    (mkPos b s) k = true
  <-> exists kw tail, kw ∈ KEYWORDS /\ s = kw ++ tail
                      /\ k (mkPos (beforeAfter b kw) tail) = true.
Proof.
  cbn [exec]. unfold word. rewrite !orb_true_iff, !exec_lit. split.
  - intros H. repeat destruct H as [H | H]; destruct H as (tail & E & H);
      eexists _, tail; (split; [apply elem_of_KEYWORDS|split; [exact E|exact H]]);
      tauto.
  - intros (kw & tail & Hkw & E & H). apply elem_of_KEYWORDS in Hkw.
    repeat destruct Hkw as [Hkw | Hkw]; subst kw; eauto 10.
Qed.

(** Every keyword ends in a word character. *)
Lemma keyword_ends_in_word kw b tail :
  kw ∈ KEYWORDS -> wordBefore (mkPos (beforeAfter b kw) tail) = true.
Proof.
  intros H. apply elem_of_KEYWORDS in H.
  repeat destruct H as [H | H]; subst kw; reflexivity.
Qed.

Lemma atWordEnd_wordAfter b tail :
  atWordEnd tail <-> wordAfter (mkPos b tail) = false.
Proof. unfold atWordEnd, wordAfter; simpl. destruct tail; intuition. Qed.

(** The pattern accepts exactly the lines of the form
    whitespace [#] whitespace keyword, with the keyword ending the word. *)
Lemma PREPROCESSOR_REGEX_spec l :
  test PREPROCESSOR_REGEX l = true <-> DirectiveLine l.
Proof.
  unfold PREPROCESSOR_REGEX, DirectiveLine. rewrite test_anchored.
  change (exec (Seq ?r1 ?r2) ?x ?k) with (exec r1 x (fun y => exec r2 y k)) at 1.
  rewrite exec_star_class. split.
  - intros (ws1 & s1 & -> & Hws1 & H).
    apply exec_char in H as (s2 & -> & H).
    change (exec (Seq ?r1 ?r2) ?x ?k) with (exec r1 x (fun y => exec r2 y k)) in H at 1.
    apply exec_star_class in H as (ws2 & s3 & -> & Hws2 & H).
    change (exec (Seq ?r1 ?r2) ?x ?k) with (exec r1 x (fun y => exec r2 y k)) in H at 1.
    apply exec_keyword_group in H as (kw & tail & Hkw & -> & H).
    cbn [exec] in H. rewrite (keyword_ends_in_word kw _ tail Hkw) in H.
    exists ws1, ws2, kw, tail. repeat split; auto.
    eapply atWordEnd_wordAfter. destruct (wordAfter _) eqn:E in H; [discriminate|].
    exact E.
  - intros (ws1 & ws2 & kw & tail & -> & Hws1 & Hws2 & Hkw & Hend).
    exists ws1, (35%N :: ws2 ++ kw ++ tail). repeat split; auto.
    apply exec_char. eexists; split; [reflexivity|].
    change (exec (Seq ?r1 ?r2) ?x ?k) with (exec r1 x (fun y => exec r2 y k)) at 1.
    apply exec_star_class. exists ws2, (kw ++ tail). repeat split; auto.
    change (exec (Seq ?r1 ?r2) ?x ?k) with (exec r1 x (fun y => exec r2 y k)) at 1.
    apply exec_keyword_group. exists kw, tail. repeat split; auto.
    cbn [exec]. rewrite (keyword_ends_in_word kw _ tail Hkw).
    match goal with
    | |- context [wordAfter ?x] =>
        replace (wordAfter x) with false; [reflexivity|]
    end.
    symmetry. apply atWordEnd_wordAfter, Hend.
Qed.

(** A run of code units accepted by [p], followed by one that is not (or
    by the end), is determined by the text. *)
Lemma span_unique (p : char16 -> bool) (l1 l2 r1 r2 : JSString) :
  l1 ++ r1 = l2 ++ r2 ->
  Forall (fun c => p c = true) l1 -> Forall (fun c => p c = true) l2 ->
  match r1 with [] => True | c :: _ => p c = false end ->
  match r2 with [] => True | c :: _ => p c = false end ->
  l1 = l2 /\ r1 = r2.
Proof.
  revert l2. induction l1 as [|a l1 IH]; intros [|b l2] E H1 H2 Hr1 Hr2; simpl in E.
  - auto.
  - subst r1. apply Forall_cons in H2 as [Hb _]. congruence.
  - subst r2. apply Forall_cons in H1 as [Ha _]. congruence.
  - injection E as -> E. apply Forall_cons in H1 as [_ H1].
    apply Forall_cons in H2 as [_ H2].
    destruct (IH l2 E H1 H2 Hr1 Hr2) as [-> ->]. auto.
Qed.

Lemma word_not_space c : isWordChar c = true -> isWhiteSpace c = false.
Proof.
  intros Hw. apply not_true_iff_false. intros Hs. revert Hw Hs.
  unfold isWordChar, isWhiteSpace, inRange.
  rewrite !orb_true_iff, !andb_true_iff, !N.leb_le, !N.eqb_eq. lia.
Qed.

Lemma keyword_shape kw :
  kw ∈ KEYWORDS ->
  Forall (fun c => isWordChar c = true) kw
  /\ exists c kw', kw = c :: kw' /\ isWhiteSpace c = false.
Proof.
  intros H. apply elem_of_KEYWORDS in H.
  repeat destruct H as [H | H]; subst kw;
    (split; [repeat constructor | eexists _, _; split; reflexivity]).
Qed.

Example scan_examples :
  map (fun s => test PREPROCESSOR_REGEX (utf16 s))
    ["#if 1"; "int x;"; "  #  else"; "#endif"; "if (x)"; "#iffy"; "#ifdef X";
     "#endiffoo"; "x #if"; "#if"; "#else//c"; "#elif_"]%string
  = [true; false; true; true; false; false; true; false; false; true; true; false].
Proof. vm_compute. reflexivity. Qed.

(** C10.  The keyword must end the word that follows [#]: when the line is
    whitespace, [#], whitespace, a non-empty run [w] of word characters and
    then the end or a non-word character, it is flagged if and only if the
    whole word [w] is one of the six keywords.  So [#iffy] and [#endiffoo]
    are not flagged (the words [iffy] and [endiffoo] are no keywords), and
    [#ifdef X] is (its word is [ifdef], not the shorter [if]). *)
Theorem directive_keyword_ends_at_word_boundary :
  (forall ws1 ws2 w tail,
      Forall (fun c => isWhiteSpace c = true) ws1 ->
      Forall (fun c => isWhiteSpace c = true) ws2 ->
      w <> [] ->
      Forall (fun c => isWordChar c = true) w ->
      atWordEnd tail ->
      test PREPROCESSOR_REGEX (ws1 ++ 35%N :: ws2 ++ w ++ tail) = true
      <-> w ∈ KEYWORDS)
  /\ test PREPROCESSOR_REGEX (utf16 "#iffy") = false
  /\ test PREPROCESSOR_REGEX (utf16 "#endiffoo") = false
  /\ test PREPROCESSOR_REGEX (utf16 "#ifdef X") = true.
Proof.
  split; [|repeat split; vm_compute; reflexivity].
  intros ws1 ws2 w tail Hws1 Hws2 Hne Hw Hend. rewrite PREPROCESSOR_REGEX_spec.
  split.
  - intros (ws1' & ws2' & kw & tail' & E & Hws1' & Hws2' & Hkw & Hend').
    destruct (keyword_shape kw Hkw) as (Hkww & c & kw' & Ekw & Hc).
    apply (span_unique isWhiteSpace) in E as [_ E]; auto.
    injection E as E.
    destruct w as [|d w]; [congruence|].
    apply Forall_cons in Hw as [Hd Hw].
    apply (span_unique isWhiteSpace) in E as [_ E]; auto.
    + apply (span_unique isWordChar) in E as [E _]; auto.
      rewrite E. exact Hkw.
    + simpl. apply word_not_space, Hd.
    + rewrite Ekw. simpl. exact Hc.
  - intros Hkw. exists ws1, ws2, w, tail. auto.
Qed.

Lemma directive_keyword_ends_at_word_boundary_witness :
  test PREPROCESSOR_REGEX ([] ++ 35%N :: [32%N] ++ utf16 "ifdef" ++ utf16 " X") = true
  <-> utf16 "ifdef" ∈ KEYWORDS.
Proof.
  apply (proj1 directive_keyword_ends_at_word_boundary
           [] [32%N] (utf16 "ifdef") (utf16 " X")).
  - constructor.
  - repeat constructor.
  - discriminate.
  - repeat constructor.
  - reflexivity.
Defined.

(** ** Sets and sorting *)

Lemma Set_has_true x s : Set_has x s = true <-> x ∈ s.
Proof.
  unfold Set_has. rewrite existsb_exists. split.
  - intros (y & Hy & E). apply Nat.eqb_eq in E as ->. apply list_elem_of_In, Hy.
  - intros H. exists x. split; [apply list_elem_of_In, H | apply Nat.eqb_refl].
Qed.

Lemma elem_of_Set_add s x y : y ∈ Set_add s x <-> y ∈ s \/ y = x.
Proof.
  unfold Set_add. destruct (Set_has x s) eqn:E.
  - apply Set_has_true in E. split; [auto | intros [H | ->]; auto].
  - rewrite elem_of_app, list_elem_of_singleton. tauto.
Qed.

Lemma NoDup_Set_add s x : NoDup s -> NoDup (Set_add s x).
Proof.
  intros H. unfold Set_add. destruct (Set_has x s) eqn:E; [exact H|].
  apply NoDup_app. split; [exact H|]. split; [|apply NoDup_singleton].
  intros y Hy Hx. apply list_elem_of_singleton in Hx as ->.
  apply Set_has_true in Hy. congruence.
Qed.

Lemma elem_of_fold_Set_add l : forall s y,
  y ∈ fold_left Set_add l s <-> y ∈ s \/ y ∈ l.
Proof.
  induction l as [|x l IH]; intros s y; simpl.
  - rewrite elem_of_nil. tauto.
  - rewrite IH, elem_of_Set_add, elem_of_cons. tauto.
Qed.

Lemma NoDup_fold_Set_add l : forall s, NoDup s -> NoDup (fold_left Set_add l s).
Proof.
  induction l as [|x l IH]; intros s H; simpl; [exact H|].
  apply IH, NoDup_Set_add, H.
Qed.

Lemma elem_of_rangeLines r i :
  i ∈ rangeLines r <-> line (Range.start r) <= i <= line (Range.end_ r).
Proof. unfold rangeLines. rewrite elem_of_seq. lia. Qed.

(** The hidden lines are the lines of the inactive ranges and the directive
    lines of the document, each once. *)
Lemma elem_of_hiddenLinesOf document inactiveRanges i :
  i ∈ hiddenLinesOf document inactiveRanges
  <-> (exists r, r ∈ inactiveRanges
                 /\ line (Range.start r) <= i <= line (Range.end_ r))
      \/ (i < lineCount document
          /\ test PREPROCESSOR_REGEX (text (lineAt document i)) = true).
Proof.
  unfold hiddenLinesOf.
  assert (Hranges : forall l s,
             i ∈ fold_left (fun h r => fold_left Set_add (rangeLines r) h) l s
             <-> i ∈ s \/ exists r, r ∈ l
                   /\ line (Range.start r) <= i <= line (Range.end_ r)).
  { induction l as [|r l IH]; intros s; simpl.
    - split; [auto | intros [H | (r & Hr & _)]; [exact H | inversion Hr]].
    - rewrite IH, elem_of_fold_Set_add, elem_of_rangeLines. split.
      + intros [[H | H] | (r' & Hr' & H)]; eauto using list_elem_of_here.
        right. exists r'. split; [apply list_elem_of_further, Hr' | exact H].
      + intros [H | (r' & Hr' & H)]; [auto|].
        apply elem_of_cons in Hr' as [-> | Hr']; eauto. }
  assert (Hlines : forall l s,
             i ∈ fold_left
                   (fun h j => if test PREPROCESSOR_REGEX (text (lineAt document j))
                               then Set_add h j else h) l s
             <-> i ∈ s \/ (i ∈ l
                   /\ test PREPROCESSOR_REGEX (text (lineAt document i)) = true)).
  { induction l as [|j l IH]; intros s; cbn [fold_left].
    - rewrite elem_of_nil. tauto.
    - rewrite IH, elem_of_cons.
      destruct (test PREPROCESSOR_REGEX (text (lineAt document j))) eqn:E.
      + rewrite elem_of_Set_add. split.
        * intros [[H | ->] | [H1 H2]]; auto.
        * intros [H | [[-> | H1] H2]]; auto.
      + split.
        * intros [H | [H1 H2]]; auto.
        * intros [H | [[-> | H1] H2]]; auto. congruence. }
  rewrite Hlines, Hranges, elem_of_nil, elem_of_seq. split.
  - intros [[[] | H] | [H1 H2]]; [left; exact H | right; split; [lia | exact H2]].
  - intros [H | [H1 H2]]; [left; right; exact H | right; split; [lia | exact H2]].
Qed.

Lemma NoDup_hiddenLinesOf document inactiveRanges :
  NoDup (hiddenLinesOf document inactiveRanges).
Proof.
  unfold hiddenLinesOf.
  assert (Hranges : forall l s, NoDup s ->
             NoDup (fold_left (fun h r => fold_left Set_add (rangeLines r) h) l s)).
  { induction l as [|r l IH]; intros s H; simpl; [exact H|].
    apply IH, NoDup_fold_Set_add, H. }
  assert (Hlines : forall l s, NoDup s ->
             NoDup (fold_left
                      (fun h j => if test PREPROCESSOR_REGEX (text (lineAt document j))
                                  then Set_add h j else h) l s)).
  { induction l as [|j l IH]; intros s H; cbn [fold_left]; [exact H|].
    apply IH. destruct (test _ _); [apply NoDup_Set_add, H | exact H]. }
  apply Hlines, Hranges, NoDup_nil_2.
Qed.

Lemma sort_insert_Permutation {A : Type} (cmp : A -> A -> Z) x l :
  sort_insert cmp x l ≡ₚ x :: l.
Proof.
  induction l as [|y l IH]; simpl; [reflexivity|].
  destruct (cmp x y <=? 0)%Z; [reflexivity|].
  rewrite IH. apply Permutation_swap.
Qed.

Lemma Array_sort_Permutation {A : Type} (cmp : A -> A -> Z) l :
  Array_sort cmp l ≡ₚ l.
Proof.
  induction l as [|x l IH]; simpl; [reflexivity|].
  rewrite sort_insert_Permutation, IH. reflexivity.
Qed.

Lemma sort_insert_sorted x l :
  StronglySorted le l -> StronglySorted le (sort_insert compareNumbers x l).
Proof.
  induction l as [|y l IH]; intros H; simpl.
  - repeat constructor.
  - apply StronglySorted_inv in H as [Hl Hy].
    unfold compareNumbers at 1. destruct (Z.leb_spec (Z.of_nat x - Z.of_nat y) 0).
    + constructor; [constructor; assumption|].
      constructor; [lia|]. eapply Forall_impl; [exact Hy|]. simpl. lia.
    + constructor; [apply IH, Hl|].
      rewrite sort_insert_Permutation. constructor; [lia | exact Hy].
Qed.

Lemma Array_sort_sorted l : StronglySorted le (Array_sort compareNumbers l).
Proof.
  induction l as [|x l IH]; simpl; [constructor|].
  apply sort_insert_sorted, IH.
Qed.

(** Sorting a duplicate-free array of numbers leaves it strictly ascending. *)
Lemma Array_sort_strict l :
  NoDup l -> StronglySorted lt (Array_sort compareNumbers l).
Proof.
  intros Hnd. rewrite <- (Array_sort_Permutation compareNumbers l) in Hnd.
  pose proof (Array_sort_sorted l) as Hs.
  induction Hs as [|x s Hs IH Hx]; [constructor|].
  apply NoDup_cons in Hnd as [Hnotin Hnd].
  constructor; [apply IH, Hnd|].
  apply Forall_forall. intros y Hy.
  assert (x <= y) by (rewrite Forall_forall in Hx; apply Hx, Hy).
  assert (x <> y) by (intros ->; apply Hnotin, Hy).
  lia.
Qed.

(** ** The grouping loop *)

Lemma pushBlock_inv blockStart blockEnd foldingRanges bound :
  groupInv (blockStart, blockEnd, foldingRanges) ->
  blockEnd < bound ->
  Forall (fun r => spansTwoLines r /\ FoldingRange.end_ r < bound)
    (pushBlock blockStart blockEnd foldingRanges)
  /\ StronglySorted byStart (pushBlock blockStart blockEnd foldingRanges).
Proof.
  intros (Hle & Hall & Hsorted) Hb. unfold pushBlock.
  destruct (Nat.ltb_spec blockStart blockEnd) as [Hlt | Hge].
  - split.
    + apply Forall_app. split.
      * eapply Forall_impl; [exact Hall|]. simpl. intros r [H1 H2]. split; [exact H1 | lia].
      * repeat constructor; [exact Hlt | simpl; lia].
    + clear Hb. induction Hsorted as [|r l Hs IH Hr]; simpl.
      * repeat constructor.
      * apply Forall_cons in Hall as [[Hr1 Hr2] Hall]. constructor; [apply IH, Hall|].
        apply Forall_app. split; [exact Hr|].
        repeat constructor. unfold byStart, spansTwoLines in *. simpl. lia.
  - split; [|exact Hsorted].
    eapply Forall_impl; [exact Hall|]. simpl. intros r [H1 H2]. split; [exact H1 | lia].
Qed.

Lemma groupStep_inv b x :
  groupInv b -> b.1.2 < x -> groupInv (groupStep b x) /\ (groupStep b x).1.2 = x.
Proof.
  destruct b as [[blockStart blockEnd] foldingRanges]. simpl.
  intros Hinv Hlt. destruct (Nat.eqb_spec x (blockEnd + 1)) as [-> | Hne]; simpl.
  - destruct Hinv as (Hle & Hall & Hsorted). repeat split; auto. lia.
  - split; [|reflexivity]. split; [lia|]. apply pushBlock_inv; assumption.
Qed.

Lemma fold_groupStep_inv sorted : forall b,
  groupInv b -> StronglySorted lt (b.1.2 :: sorted) ->
  groupInv (fold_left groupStep sorted b).
Proof.
  induction sorted as [|x sorted IH]; intros b Hinv Hs; simpl; [exact Hinv|].
  apply StronglySorted_inv in Hs as [Hs Hb].
  apply Forall_cons in Hb as [Hx Hb].
  destruct (groupStep_inv b x Hinv Hx) as [Hinv' Hend].
  apply IH; [exact Hinv'|]. rewrite Hend. exact Hs.
Qed.

(** On a strictly ascending array the loop emits blocks in ascending order
    of their start lines, each spanning two lines or more. *)
Lemma groupConsecutive_sorted sorted :
  StronglySorted lt sorted ->
  StronglySorted byStart (groupConsecutive sorted)
  /\ Forall spansTwoLines (groupConsecutive sorted).
Proof.
  intros Hs. destruct sorted as [|first others]; simpl.
  - split; constructor.
  - pose proof (fold_groupStep_inv others (first, first, [])) as H.
    destruct (fold_left groupStep others (first, first, []))
      as [[blockStart blockEnd] foldingRanges].
    assert (Hinv : groupInv (blockStart, blockEnd, foldingRanges)).
    { apply H; [|exact Hs]. simpl. repeat split; constructor. }
    destruct (pushBlock_inv _ _ _ (S blockEnd) Hinv) as [Hall Hsorted]; [lia|].
    split; [exact Hsorted|]. eapply Forall_impl; [exact Hall|]. simpl. tauto.
Qed.

Example fold_example :
  collectHiddenFoldingRanges
    (mkTextDocument (mkUri (utf16 "file") (utf16 "/a.c")) (utf16 "c")
       (map utf16 ["#if 1"; "int x;"; "#else"; "int y;"; "#endif"]%string))
    [Range.mk (mkPosition 2 0) (mkPosition 3 6)]
  = [FoldingRange.mk 2 4 Region].
Proof. vm_compute. reflexivity. Qed.

(** C1.  For every document and every list of inactive ranges, the blocks
    returned by [collectHiddenFoldingRanges] are strictly ascending by start
    line and each has [end > start]; and a document without directive lines,
    with no inactive range, yields no block. *)
Theorem collectHiddenFoldingRanges_sorted_spans :
  (forall document inactiveRanges,
      StronglySorted byStart (collectHiddenFoldingRanges document inactiveRanges)
      /\ Forall spansTwoLines (collectHiddenFoldingRanges document inactiveRanges))
  /\ (forall document,
         (forall i, i < lineCount document ->
                    test PREPROCESSOR_REGEX (text (lineAt document i)) = false) ->
         collectHiddenFoldingRanges document [] = []).
Proof.
  split.
  - intros document inactiveRanges. unfold collectHiddenFoldingRanges.
    destruct (length (hiddenLinesOf document inactiveRanges) =? 0).
    + split; constructor.
    + apply groupConsecutive_sorted.
      apply (Array_sort_strict (hiddenLinesOf document inactiveRanges)).
      apply NoDup_hiddenLinesOf.
  - intros document Hnone. unfold collectHiddenFoldingRanges.
    assert (E : hiddenLinesOf document [] = []).
    { apply elem_of_nil_inv. intros i Hi.
      apply elem_of_hiddenLinesOf in Hi as [(r & Hr & _) | [Hlt Ht]].
      - inversion Hr.
      - rewrite (Hnone i Hlt) in Ht. discriminate. }
    rewrite E. reflexivity.
Qed.

Lemma collectHiddenFoldingRanges_sorted_spans_witness :
  collectHiddenFoldingRanges
    (mkTextDocument (mkUri (utf16 "file") (utf16 "/a.c")) (utf16 "c")
       (map utf16 ["int x;"; "if (x) {}"]%string)) []
  = [].
Proof.
  apply (proj2 collectHiddenFoldingRanges_sorted_spans).
  intros i Hi. destruct i as [|[|i]]; [reflexivity | reflexivity |].
  exfalso. revert Hi. unfold lineCount. simpl. lia.
Defined.

(** ** Running the handlers *)

Lemma run_bind {A B : Type} (m : M A) (f : A -> M B) s :
  (m ≫= f) s
  = (valueOf (f (valueOf (m s)) (stateOf (m s))),
     stateOf (f (valueOf (m s)) (stateOf (m s))),
     traceOf (m s) ++ traceOf (f (valueOf (m s)) (stateOf (m s)))).
Proof.
  unfold mbind, M_bind, valueOf, stateOf, traceOf.
  destruct (m s) as [[a s1] t1]. simpl. destruct (f a s1) as [[b s2] t2]. reflexivity.
Qed.

Section ExtensionProperties.

Variable toLowerCase : JSString -> JSString.
Variable parseFsPath : JSString -> JSString.
Variable number : Type.
Variable toString : number -> JSString.
Variable host : Host number.

Local Abbreviation docKeyIn params := (receivedDocKey toLowerCase parseFsPath params).
Local Abbreviation affectedBy params :=
  (affectedEditorsOf toLowerCase parseFsPath host params).

Lemma unfoldHiddenRanges_run docKey editor s :
  unfoldHiddenRanges docKey editor s
  = (tt, s, unfoldTrace (inactiveRegionsMap s) docKey editor).
Proof.
  unfold unfoldHiddenRanges, unfoldTrace. rewrite run_bind. simpl.
  destruct (0 <? length _); reflexivity.
Qed.

Lemma autoFoldHiddenRanges_run editor s :
  autoFoldHiddenRanges toLowerCase editor s
  = (tt, s,
     if decide (hideIfdefMode s = hiddenFolded)
     then foldTrace (Map_get_or_empty (inactiveRegionsMap s)
                       (docKeyOf toLowerCase (document editor))) editor
     else []).
Proof.
  unfold autoFoldHiddenRanges, foldTrace. rewrite run_bind. simpl.
  destruct (decide (hideIfdefMode s = hiddenFolded)) as [E | E].
  - rewrite decide_False by (intros H; apply H, E).
    destruct (unsupported (document editor)); [reflexivity|].
    destruct (length _ =? 0); reflexivity.
  - rewrite decide_True by exact E. reflexivity.
Qed.

Lemma updateEditorDecoration_run editor d s :
  updateEditorDecoration toLowerCase editor d s
  = (tt, s,
     if unsupported (document editor) then []
     else [SetDecorations (editorId editor) d
             (decorationRanges (hideIfdefMode s)
                (Map_get_or_empty (inactiveRegionsMap s)
                   (docKeyOf toLowerCase (document editor)))
                (preprocessorRangesOf (document editor)))]).
Proof.
  unfold updateEditorDecoration. destruct (unsupported (document editor)); reflexivity.
Qed.

Lemma flat_map_ext_elem {A B : Type} (f g : A -> list B) (l : list A) :
  (forall x, x ∈ l -> f x = g x) -> flat_map f l = flat_map g l.
Proof.
  induction l as [|x l IH]; intros H; simpl; [reflexivity|].
  rewrite (H x) by apply list_elem_of_here.
  rewrite IH; [reflexivity|]. intros y Hy. apply H, list_elem_of_further, Hy.
Qed.

Lemma flat_map_nil {A B : Type} (l : list A) :
  flat_map (fun _ => @nil B) l = [].
Proof. induction l as [|x l IH]; [reflexivity | exact IH]. Qed.

(** A loop whose body leaves the state alone concatenates the bodies'
    traces. *)
Lemma forEach_readonly {A : Type} (body : A -> M unit) (g : State -> A -> list Effect) :
  (forall x s, body x s = (tt, s, g s x)) ->
  forall l s, forEach l body s = (tt, s, flat_map (g s) l).
Proof.
  intros Hbody. induction l as [|x l IH]; intros s; simpl; [reflexivity|].
  rewrite run_bind, Hbody. unfold valueOf, stateOf, traceOf. simpl.
  rewrite IH. reflexivity.
Qed.

(** [getDecoration], case by case. *)
Lemma getDecoration_run s :
  getDecoration toString host s
  = let targetOpacity := targetOpacityOf toString host (hideIfdefMode s) in
    let fresh := mkDecoration (created s) targetOpacity in
    let s' := withDecoration s (Some fresh) targetOpacity (S (created s)) in
    match lastDecoration s with
    | Some d =>
        if decide (lastOpacity s = targetOpacity) then (d, s, [])
        else (fresh, s', [DisposeDecorationType d; CreateDecorationType fresh])
    | None => (fresh, s', [CreateDecorationType fresh])
    end.
Proof.
  unfold getDecoration. rewrite run_bind.
  change (valueOf (getState s)) with s. change (stateOf (getState s)) with s.
  change (traceOf (getState s)) with (@nil Effect). cbv zeta.
  destruct (lastDecoration s) as [d|].
  - destruct (decide (lastOpacity s = _)); reflexivity.
  - reflexivity.
Qed.

Lemma decorates_ret {A : Type} (a : A) : decorates (mret a).
Proof. intros s. split; [split; reflexivity|]. split; [constructor | auto]. Qed.

Lemma decorates_bind {A B : Type} (m : M A) (f : A -> M B) :
  decorates m -> (forall a, decorates (f a)) -> decorates (m ≫= f).
Proof.
  intros Hm Hf s. specialize (Hm s). unfold mbind, M_bind.
  destruct (m s) as [[a s1] t1]. specialize (Hf a s1).
  destruct (f a s1) as [[b s2] t2].
  unfold sameRegionsAndMode, stateOf, traceOf in *. simpl in *.
  destruct Hm as ([Hm1 Hm2] & Ht1 & Hr1). destruct Hf as ([Hf1 Hf2] & Ht2 & Hr2).
  split; [split; congruence|]. split; [apply Forall_app; split; assumption | auto].
Qed.

Lemma decorates_forEach {A : Type} (body : A -> M unit) l :
  (forall x, decorates (body x)) -> decorates (forEach l body).
Proof.
  intros Hbody. induction l as [|x l IH]; simpl.
  - apply decorates_ret.
  - apply decorates_bind; [apply Hbody | intros _; exact IH].
Qed.

Lemma decorates_getDecoration : decorates (getDecoration toString host).
Proof.
  intros s. rewrite getDecoration_run. cbv zeta. unfold sameRegionsAndMode.
  assert (Hfresh : forall o n,
             styleRecorded (withDecoration s (Some (mkDecoration n o)) o (S n))).
  { intros o n d' E. simpl in E. injection E as <-. reflexivity. }
  destruct (lastDecoration s) as [d|].
  - destruct (decide (lastOpacity s = _)); simpl;
      (split; [split; reflexivity|]); (split; [repeat constructor | auto]).
  - simpl. split; [split; reflexivity|]. split; [repeat constructor | auto].
Qed.

Lemma decorates_updateEditorDecoration editor d :
  decorates (updateEditorDecoration toLowerCase editor d).
Proof.
  intros s. rewrite updateEditorDecoration_run.
  destruct (unsupported _); simpl;
    (split; [split; reflexivity|]); (split; [repeat constructor | auto]).
Qed.

Lemma decorates_updateActiveEditor :
  decorates (updateActiveEditor toLowerCase toString host).
Proof.
  unfold updateActiveEditor.
  apply decorates_bind; [apply decorates_getDecoration | intros d].
  apply decorates_bind.
  - destruct (activeTextEditor host);
      [apply decorates_updateEditorDecoration | apply decorates_ret].
  - intros _. apply decorates_forEach. intros e.
    apply decorates_updateEditorDecoration.
Qed.

Lemma onInactiveRegions_run params s :
  exists s' decorate,
    onInactiveRegions toLowerCase parseFsPath toString host params s
    = (tt, s',
       (if decide (hideIfdefMode s = hiddenFolded)
        then flat_map (unfoldTrace (inactiveRegionsMap s) (docKeyIn params))
               (affectedBy params)
        else [])
       ++ InactiveRegionsSet (docKeyIn params) (receivedRegions params)
          :: FoldingChangeFire
          :: decorate
          ++ (if decide (hideIfdefMode s = hiddenFolded)
              then flat_map (foldTrace (receivedRegions params))
                     (affectedBy params)
              else []))
    /\ sameRegionsAndMode
         (withRegions s (Map_set (inactiveRegionsMap s)
                           (docKeyIn params)
                           (receivedRegions params))) s'
    /\ Forall (fun e => isDecorationEffect e = true) decorate
    /\ (styleRecorded s -> styleRecorded s').
Proof.
  unfold onInactiveRegions.
  fold (docKeyIn params) (receivedRegions params) (affectedBy params).
  set (unfoldLoop := forEach _ (unfoldHiddenRanges _)).
  set (decorateLoop := forEach _ (fun editor => _ ≫= _)).
  set (foldLoop := forEach _ (autoFoldHiddenRanges _)).
  assert (Hunfold : forall s0, unfoldLoop s0
            = (tt, s0, flat_map (unfoldTrace (inactiveRegionsMap s0)
                                   (docKeyIn params))
                         (affectedBy params))).
  { apply (forEach_readonly _ (fun s0 => unfoldTrace (inactiveRegionsMap s0) _)).
    intros; apply unfoldHiddenRanges_run. }
  assert (Hfold : forall s0, foldLoop s0
            = (tt, s0, flat_map
                         (fun editor =>
                            if decide (hideIfdefMode s0 = hiddenFolded)
                            then foldTrace
                                   (Map_get_or_empty (inactiveRegionsMap s0)
                                      (docKeyOf toLowerCase (document editor)))
                                   editor
                            else [])
                         (affectedBy params))).
  { apply (forEach_readonly _
             (fun s0 editor =>
                if decide (hideIfdefMode s0 = hiddenFolded)
                then foldTrace
                       (Map_get_or_empty (inactiveRegionsMap s0)
                          (docKeyOf toLowerCase (document editor))) editor
                else [])).
    intros; apply autoFoldHiddenRanges_run. }
  assert (Hdecorate : decorates decorateLoop).
  { apply decorates_forEach. intros editor.
    apply decorates_bind; [apply decorates_getDecoration|].
    intros d. apply decorates_updateEditorDecoration. }
  clearbody unfoldLoop decorateLoop foldLoop.
  set (s2 := withRegions s (Map_set (inactiveRegionsMap s) (docKeyIn params)
                              (receivedRegions params))).
  specialize (Hdecorate s2).
  destruct (decorateLoop s2) as [[[] s3] decorate] eqn:Edecorate.
  simpl in Hdecorate. destruct Hdecorate as (Hs3 & Hdecorate & Hstyle).
  exists s3, decorate. split; [|split; [exact Hs3 | split; [exact Hdecorate | exact Hstyle]]].
  cbv [mbind M_bind getState putState emit mret M_ret].
  assert (Hfirst : (if decide (hideIfdefMode s = hiddenFolded)
                    then unfoldLoop else (fun s0 => (tt, s0, []))) s
                   = (tt, s, if decide (hideIfdefMode s = hiddenFolded)
                             then flat_map (unfoldTrace (inactiveRegionsMap s)
                                              (docKeyIn params))
                                    (affectedBy params)
                             else [])).
  { destruct (decide (hideIfdefMode s = hiddenFolded)); [apply Hunfold | reflexivity]. }
  rewrite Hfirst. fold s2. rewrite Edecorate, Hfold.
  destruct Hs3 as [Hmap Hmode]. rewrite Hmode. simpl hideIfdefMode.
  cbn [app]. do 5 f_equal.
  destruct (decide (hideIfdefMode s = hiddenFolded)).
  - apply flat_map_ext_elem. intros editor Hin.
    unfold affectedEditorsOf in Hin. apply list_elem_of_filter in Hin as [Hkey _].
    rewrite Hkey, Hmap. unfold s2, Map_get_or_empty, Map_set. simpl.
    rewrite lookup_insert_eq. reflexivity.
  - apply flat_map_nil.
Qed.

Lemma toggleCommand_run s :
  let mode := nextMode (hideIfdefMode s) in
  exists s' decorate,
    toggleCommand toLowerCase toString host s
    = (tt, s',
       WorkspaceStateUpdate mode :: FoldingChangeFire :: StatusBarAssign mode
       :: decorate
       ++ (if decide (mode = visible /\ hideIfdefMode s = hiddenFolded)
           then toggleUnfolds toLowerCase host s else [])
       ++ (if decide (mode = hiddenFolded) then toggleFolds toLowerCase host s else []))
    /\ sameRegionsAndMode (withMode s mode) s'
    /\ Forall (fun e => isDecorationEffect e = true) decorate
    /\ (styleRecorded s -> styleRecorded s').
Proof.
  intros mode. unfold toggleCommand. fold mode.
  set (unfoldLoop := forEach _ (fun editor => unfoldHiddenRanges _ editor)).
  set (foldLoop := forEach _ (autoFoldHiddenRanges _)).
  assert (Hunfold : forall s0, unfoldLoop s0 = (tt, s0, toggleUnfolds toLowerCase host s0)).
  { apply (forEach_readonly _
             (fun s0 editor =>
                unfoldTrace (inactiveRegionsMap s0)
                  (docKeyOf toLowerCase (document editor)) editor)).
    intros; apply unfoldHiddenRanges_run. }
  assert (Hfold : forall s0, foldLoop s0
            = (tt, s0, if decide (hideIfdefMode s0 = hiddenFolded)
                       then toggleFolds toLowerCase host s0 else [])).
  { intros s0. unfold foldLoop.
    rewrite (forEach_readonly _
               (fun s0 editor =>
                  if decide (hideIfdefMode s0 = hiddenFolded)
                  then foldTrace
                         (Map_get_or_empty (inactiveRegionsMap s0)
                            (docKeyOf toLowerCase (document editor))) editor
                  else []))
      by (intros; apply autoFoldHiddenRanges_run).
    destruct (decide (hideIfdefMode s0 = hiddenFolded));
      [reflexivity | rewrite flat_map_nil; reflexivity]. }
  pose proof (decorates_updateActiveEditor (withMode s mode)) as Hdecorate.
  set (decorateAll := updateActiveEditor toLowerCase toString host) in *.
  clearbody unfoldLoop foldLoop decorateAll.
  destruct (decorateAll (withMode s mode)) as [[[] s1] decorate] eqn:Edecorate.
  simpl in Hdecorate. destruct Hdecorate as (Hs1 & Hdecorate & Hstyle).
  exists s1, decorate. split; [|split; [exact Hs1 | split; [exact Hdecorate | exact Hstyle]]].
  cbv [mbind M_bind getState putState emit mret M_ret]. fold mode.
  rewrite Edecorate. destruct Hs1 as [Hmap Hmode]. simpl in Hmap, Hmode.
  assert (Hsecond : (if decide (hideIfdefMode s1 = visible
                                /\ hideIfdefMode s = hiddenFolded)
                     then unfoldLoop else (fun s0 => (tt, s0, []))) s1
                    = (tt, s1, if decide (mode = visible
                                          /\ hideIfdefMode s = hiddenFolded)
                               then toggleUnfolds toLowerCase host s else [])).
  { rewrite Hmode.
    destruct (decide (mode = visible /\ hideIfdefMode s = hiddenFolded));
      [|reflexivity].
    rewrite Hunfold. unfold toggleUnfolds. rewrite Hmap. reflexivity. }
  rewrite Hsecond.
  assert (Hthird : (if decide (hideIfdefMode s1 = hiddenFolded)
                    then foldLoop else (fun s0 => (tt, s0, []))) s1
                   = (tt, s1, if decide (mode = hiddenFolded)
                              then toggleFolds toLowerCase host s else [])).
  { rewrite Hmode. destruct (decide (mode = hiddenFolded)) as [E|E]; [|reflexivity].
    rewrite Hfold, Hmode. rewrite decide_True by exact E.
    unfold toggleFolds. rewrite Hmap. reflexivity. }
  rewrite Hthird. cbn [app]. reflexivity.
Qed.

Lemma unfoldTrace_unfolds m docKey editor :
  Forall (fun e => isUnfold e = true) (unfoldTrace m docKey editor).
Proof. unfold unfoldTrace. destruct (0 <? _); repeat constructor. Qed.

Lemma foldTrace_folds inactiveRanges editor :
  Forall (fun e => isUnfold e = false /\ isInactiveRegionsSet e = false)
    (foldTrace inactiveRanges editor).
Proof.
  unfold foldTrace. destruct (unsupported _); [constructor|].
  destruct (_ =? 0); repeat constructor.
Qed.

Lemma decoration_effect_quiet e :
  isDecorationEffect e = true ->
  isFold e = false /\ isUnfold e = false /\ isInactiveRegionsSet e = false.
Proof. destruct e; simpl; intros H; try discriminate; auto. Qed.

(** C2.  In [hiddenFolded] mode the notification handler's trace is: the
    unfold commands of the affected editors, computed from the cache as it
    was on arrival; then the cache write; then the change signal, the
    decorations and the fold commands of the affected editors, computed
    from the regions just stored.  No unfold command follows the write and
    nothing but unfold commands precedes it. *)
Theorem notification_unfolds_old_stores_then_folds_new params s :
  hideIfdefMode s = hiddenFolded ->
  exists before after decorate,
    traceOf (onInactiveRegions toLowerCase parseFsPath toString host params s)
    = before
      ++ InactiveRegionsSet (docKeyIn params) (receivedRegions params) :: after
    /\ before = flat_map (unfoldTrace (inactiveRegionsMap s) (docKeyIn params))
                  (affectedBy params)
    /\ after = FoldingChangeFire
               :: decorate
               ++ flat_map (foldTrace (receivedRegions params))
                    (affectedBy params)
    /\ Forall (fun e => isDecorationEffect e = true) decorate
    /\ Forall (fun e => isUnfold e = true) before
    /\ Forall (fun e => isUnfold e = false /\ isInactiveRegionsSet e = false) after
    /\ Map_get_or_empty
         (inactiveRegionsMap
            (stateOf (onInactiveRegions toLowerCase parseFsPath toString host params s)))
         (docKeyIn params)
       = receivedRegions params.
Proof.
  intros Hmode.
  destruct (onInactiveRegions_run params s) as (s' & decorate & Hrun & Hs' & Hdec & _).
  rewrite Hrun. rewrite !decide_True by exact Hmode. simpl.
  eexists _, _, decorate. split; [reflexivity|]. split; [reflexivity|].
  split; [reflexivity|]. split; [exact Hdec|]. split; [|split].
  - apply Forall_flat_map, Forall_forall. intros e _. apply unfoldTrace_unfolds.
  - constructor; [split; reflexivity|]. apply Forall_app. split.
    + eapply Forall_impl; [exact Hdec|]. intros e He.
      apply decoration_effect_quiet in He. tauto.
    + apply Forall_flat_map, Forall_forall. intros e _. apply foldTrace_folds.
  - destruct Hs' as [Hmap _]. rewrite Hmap. unfold Map_get_or_empty, Map_set. simpl.
    rewrite lookup_insert_eq. reflexivity.
Qed.

(** C5.  Leaving [hiddenFolded] for [visible], the toggle command issues,
    after the bookkeeping and the decorations, the unfold command of every
    visible editor, whose lines are the start lines of all the blocks
    computed from the cache and the editor's text; it issues no fold
    command.  From any other mode it issues no unfold command. *)
Theorem toggle_unfolds_only_when_leaving_hiddenFolded :
  (forall s,
      hideIfdefMode s = hiddenFolded ->
      exists decorate,
        traceOf (toggleCommand toLowerCase toString host s)
        = WorkspaceStateUpdate visible :: FoldingChangeFire :: StatusBarAssign visible
          :: decorate ++ toggleUnfolds toLowerCase host s
        /\ Forall (fun e => isDecorationEffect e = true) decorate
        /\ hideIfdefMode (stateOf (toggleCommand toLowerCase toString host s)) = visible
        /\ Forall (fun e => isFold e = false)
             (traceOf (toggleCommand toLowerCase toString host s))
        /\ forall editor b,
             editor ∈ visibleTextEditors host ->
             b ∈ collectHiddenFoldingRanges (document editor)
                   (Map_get_or_empty (inactiveRegionsMap s)
                      (docKeyOf toLowerCase (document editor))) ->
             exists selectionLines,
               EditorUnfold selectionLines 1
                 ∈ traceOf (toggleCommand toLowerCase toString host s)
               /\ FoldingRange.start b ∈ selectionLines)
  /\ (forall s,
         hideIfdefMode s <> hiddenFolded ->
         Forall (fun e => isUnfold e = false)
           (traceOf (toggleCommand toLowerCase toString host s))).
Proof.
  split; intros s Hmode;
    destruct (toggleCommand_run s) as (s' & decorate & Hrun & Hs' & Hdec & _);
    rewrite Hrun; simpl.
  - rewrite Hmode. change (nextMode hiddenFolded) with visible.
    rewrite decide_True by (split; reflexivity).
    rewrite decide_False by discriminate. rewrite app_nil_r.
    exists decorate. split; [reflexivity|]. split; [exact Hdec|].
    split; [|split].
    + destruct Hs' as [_ Hm]. rewrite Hm. simpl. rewrite Hmode. reflexivity.
    + repeat (constructor; [reflexivity|]). apply Forall_app. split.
      * eapply Forall_impl; [exact Hdec|]. intros e He.
        apply decoration_effect_quiet in He. tauto.
      * apply Forall_flat_map, Forall_forall. intros e _.
        eapply Forall_impl; [apply unfoldTrace_unfolds|].
        intros [] He; simpl in *; congruence.
    + intros editor b Hed Hb. eexists. split.
      * do 3 apply list_elem_of_further. apply elem_of_app. right.
        unfold toggleUnfolds. apply list_elem_of_In, in_flat_map.
        exists editor. split; [apply list_elem_of_In, Hed|].
        unfold unfoldTrace.
        destruct (0 <? length _) eqn:E; [left; reflexivity|].
        apply Nat.ltb_ge in E. destruct (collectHiddenFoldingRanges _ _);
          [inversion Hb | simpl in E; lia].
      * apply list_elem_of_fmap. exists b. split; [reflexivity | exact Hb].
  - rewrite decide_False by tauto. simpl.
    repeat (constructor; [reflexivity|]). apply Forall_app. split.
    + eapply Forall_impl; [exact Hdec|]. intros e He.
      apply decoration_effect_quiet in He. tauto.
    + destruct (decide (nextMode (hideIfdefMode s) = hiddenFolded)) as [Hn|Hn];
        [|constructor].
      apply Forall_flat_map, Forall_forall. intros e _.
      eapply Forall_impl; [apply foldTrace_folds|]. simpl. tauto.
Qed.

Lemma StronglySorted_lt_seq start len : StronglySorted lt (seq start len).
Proof.
  revert start. induction len as [|len IH]; intros start; [constructor|].
  cbn [seq]. constructor; [apply IH|].
  apply Forall_forall. intros j Hj. apply elem_of_seq in Hj. lia.
Qed.

Lemma StronglySorted_lt_filter (P : nat -> Prop) `{forall i, Decision (P i)} l :
  StronglySorted lt l -> StronglySorted lt (filter P l).
Proof.
  induction 1 as [|x l Hl IH Hx]; [constructor|].
  rewrite filter_cons. destruct (decide (P x)); [|exact IH].
  constructor; [exact IH|].
  rewrite Forall_forall in Hx. apply Forall_forall. intros j Hj.
  apply list_elem_of_filter in Hj as [_ Hj]. apply Hx, Hj.
Qed.

(** The ranges that the decoration adds outside [visible] mode are the
    ranges of the directive lines, one for each, in the order of the
    lines. *)
Lemma preprocessorRangesOf_directive_lines document :
  exists directiveLines,
    StronglySorted lt directiveLines
    /\ (forall i,
           i ∈ directiveLines
           <-> i < lineCount document /\ DirectiveLine (text (lineAt document i)))
    /\ preprocessorRangesOf document = lineRange document <$> directiveLines.
Proof.
  exists (filter (fun i => test PREPROCESSOR_REGEX (text (lineAt document i)) = true)
            (seq 0 (lineCount document))).
  split; [apply StronglySorted_lt_filter, StronglySorted_lt_seq|]. split.
  - intros i. rewrite list_elem_of_filter, elem_of_seq, PREPROCESSOR_REGEX_spec.
    split; [intros [Hd Hi]; split; [lia | exact Hd] | intros [Hi Hd]; split; [exact Hd | lia]].
  - unfold preprocessorRangesOf.
    induction (seq 0 (lineCount document)) as [|i js IH]; [reflexivity|].
    cbn [map]. rewrite !filter_cons.
    change (text (lineAt document i)) with (nth i (lines document) []) in *.
    destruct (decide (test PREPROCESSOR_REGEX (nth i (lines document) []) = true));
      [|exact IH].
    cbn [map fmap list_fmap]. f_equal. exact IH.
Qed.

(** C7.  For the same editor and cache, the ranges decorated in [hidden]
    or [hiddenFolded] mode are the ranges decorated in [visible] mode (the
    cached inactive ranges) followed by the directive-line ranges, and so
    include them; and the ranges that follow are exactly the ranges of the
    directive lines of the document (whitespace, [#], whitespace, a keyword
    at a word end), one whole-line range for each such line, in the order of
    the lines, and no other range. *)
Theorem hidden_decorations_extend_visible editor d s mode :
  mode <> visible ->
  let shown :=
    decoratedRanges
      (traceOf (updateEditorDecoration toLowerCase editor d (withMode s visible))) in
  let hid :=
    decoratedRanges
      (traceOf (updateEditorDecoration toLowerCase editor d (withMode s mode))) in
  hid = shown ++ (if unsupported (document editor) then []
                  else preprocessorRangesOf (document editor))
  /\ shown ⊆ hid
  /\ (unsupported (document editor) = false ->
      shown = Map_get_or_empty (inactiveRegionsMap s)
                (docKeyOf toLowerCase (document editor)))
  /\ exists directiveLines,
       StronglySorted lt directiveLines
       /\ (forall i,
              i ∈ directiveLines
              <-> i < lineCount (document editor)
                  /\ DirectiveLine (text (lineAt (document editor) i)))
       /\ hid = shown ++ (if unsupported (document editor) then []
                          else lineRange (document editor) <$> directiveLines).
Proof.
  intros Hmode shown hid. subst shown hid.
  destruct (preprocessorRangesOf_directive_lines (document editor))
    as (directiveLines & Hsorted & Hlines & Hranges).
  rewrite !updateEditorDecoration_run. simpl.
  destruct (unsupported (document editor)); simpl.
  - repeat split; [set_solver | discriminate |].
    exists directiveLines. repeat split; try apply Hlines; assumption.
  - unfold decorationRanges. rewrite decide_True by exact Hmode.
    rewrite decide_False by (intros H; apply H; reflexivity).
    rewrite !app_nil_r. repeat split.
    + intros r Hr. apply elem_of_app. auto.
    + exists directiveLines. rewrite <- Hranges.
      repeat split; try apply Hlines; assumption.
Qed.

(** C8.  Writing the cache replaces the entry: after two writes to a key
    the map is what the second write alone gives, and reading the key gives
    the second list; writing the same list twice is writing it once; after
    writing the empty list the folding aggregator sees no inactive range; a
    key never written reads as the empty list; and the notification
    handler's only change to the cache is one such write. *)
Theorem region_cache_update_replaces :
  (forall m key R1 R2,
      Map_set (Map_set m key R1) key R2 = Map_set m key R2
      /\ Map_get_or_empty (Map_set (Map_set m key R1) key R2) key = R2)
  /\ (forall m key R,
         Map_set (Map_set m key R) key R = Map_set m key R
         /\ Map_get_or_empty (Map_set m key R) key = R)
  /\ (forall m key document,
         collectHiddenFoldingRanges document
           (Map_get_or_empty (Map_set m key []) key)
         = collectHiddenFoldingRanges document [])
  /\ (forall (updates : list (JSString * list Range.t)) key,
         key ∉ updates.*1 ->
         Map_get_or_empty (foldl (fun m u => Map_set m u.1 u.2) ∅ updates) key = [])
  /\ (forall params s,
         inactiveRegionsMap
           (stateOf (onInactiveRegions toLowerCase parseFsPath toString host params s))
         = Map_set (inactiveRegionsMap s) (docKeyIn params)
             (receivedRegions params)).
Proof.
  split; [|split; [|split; [|split]]].
  - intros m key R1 R2. unfold Map_set, Map_get_or_empty.
    rewrite insert_insert_eq, lookup_insert_eq. split; reflexivity.
  - intros m key R. unfold Map_set, Map_get_or_empty.
    rewrite insert_insert_eq, lookup_insert_eq. split; reflexivity.
  - intros m key document. unfold Map_set, Map_get_or_empty.
    rewrite lookup_insert_eq. reflexivity.
  - intros updates key. unfold Map_get_or_empty.
    induction updates as [|u updates IH] using rev_ind; intros Hkey.
    + simpl. rewrite lookup_empty. reflexivity.
    + rewrite fmap_app, not_elem_of_app in Hkey. destruct Hkey as [Hkey Hu].
      rewrite foldl_snoc. unfold Map_set at 1.
      rewrite lookup_insert_ne; [apply IH, Hkey|].
      intros E. apply Hu. simpl. rewrite E. apply list_elem_of_here.
  - intros params s.
    destruct (onInactiveRegions_run params s) as (s' & decorate & Hrun & [Hs' _] & _).
    rewrite Hrun. exact Hs'.
Qed.

(** C9.  [getDecoration] aims at the local opacity outside [visible] mode
    and at clangd's in [visible] mode.  When the last style has that
    opacity it returns it, and changes and does nothing else; otherwise it
    disposes of the last style, if there is one, and creates, records and
    returns a style of that opacity. *)
Theorem getDecoration_reuses_or_recreates :
  (forall mode, targetOpacityOf toString host mode = styleOpacity toString host mode)
  /\ (forall s, styleRecorded s ->
                styleRecorded (stateOf (getDecoration toString host s)))
  /\ (forall s d,
         lastDecoration s = Some d -> styleRecorded s ->
         opacity d = styleOpacity toString host (hideIfdefMode s) ->
         getDecoration toString host s = (d, s, []))
  /\ (forall s d,
         lastDecoration s = Some d -> styleRecorded s ->
         opacity d <> styleOpacity toString host (hideIfdefMode s) ->
         let fresh := mkDecoration (created s) (styleOpacity toString host (hideIfdefMode s)) in
         getDecoration toString host s
         = (fresh,
            withDecoration s (Some fresh) (styleOpacity toString host (hideIfdefMode s))
              (S (created s)),
            [DisposeDecorationType d; CreateDecorationType fresh]))
  /\ (forall s,
         lastDecoration s = None ->
         let fresh := mkDecoration (created s) (styleOpacity toString host (hideIfdefMode s)) in
         getDecoration toString host s
         = (fresh,
            withDecoration s (Some fresh) (styleOpacity toString host (hideIfdefMode s))
              (S (created s)),
            [CreateDecorationType fresh])).
Proof.
  assert (Htarget : forall mode,
             targetOpacityOf toString host mode = styleOpacity toString host mode).
  { intros []; reflexivity. }
  split; [exact Htarget|]. split; [|split; [|split]].
  - intros s Hs. rewrite getDecoration_run. cbv zeta.
    destruct (lastDecoration s) as [d|] eqn:Ed.
    + destruct (decide _); [exact Hs|]. intros d' E. simpl in E.
      injection E as <-. reflexivity.
    + intros d' E. simpl in E. injection E as <-. reflexivity.
  - intros s d Ed Hs Hop. rewrite getDecoration_run. cbv zeta. rewrite Ed.
    rewrite decide_True; [reflexivity|]. rewrite Htarget, <- (Hs d Ed). exact Hop.
  - intros s d Ed Hs Hop fresh. rewrite getDecoration_run. cbv zeta. rewrite Ed.
    rewrite decide_False; [rewrite Htarget; reflexivity|].
    rewrite Htarget, <- (Hs d Ed). exact Hop.
  - intros s Ed fresh. rewrite getDecoration_run. cbv zeta. rewrite Ed, Htarget.
    reflexivity.
Qed.

(** C3.  For the five-line document and a cached inactive region from line
    2 to line 3: the directive lines are 0, 2 and 4; outside [visible] mode
    the decorated ranges are the region and the three directive lines,
    which cover exactly the lines 0, 2, 3 and 4; and the only fold block is
    [2, 4]. *)
Theorem scenario_if_else_endif path c1 c2 editor d mode :
  mode <> visible ->
  let document := scenarioDocument path in
  let region := Range.mk (mkPosition 2 c1) (mkPosition 3 c2) in
  let s := mkState (Map_set ∅ (docKeyOf toLowerCase document) [region])
             None [] mode 0 in
  let decorated :=
    decoratedRanges
      (traceOf (updateEditorDecoration toLowerCase (mkTextEditor editor document) d s)) in
  hiddenLinesOf document [] = [0; 2; 4]
  /\ preprocessorRangesOf document
     = [Range.mk (mkPosition 0 0) (mkPosition 0 5);
        Range.mk (mkPosition 2 0) (mkPosition 2 5);
        Range.mk (mkPosition 4 0) (mkPosition 4 6)]
  /\ decorated = region :: preprocessorRangesOf document
  /\ (forall i, coversLine decorated i <-> i ∈ [0; 2; 3; 4])
  /\ collectHiddenFoldingRanges document [region] = [FoldingRange.mk 2 4 Region].
Proof.
  intros Hmode document region s decorated.
  assert (Hdirective : preprocessorRangesOf document
            = [Range.mk (mkPosition 0 0) (mkPosition 0 5);
               Range.mk (mkPosition 2 0) (mkPosition 2 5);
               Range.mk (mkPosition 4 0) (mkPosition 4 6)])
    by (vm_compute; reflexivity).
  assert (Hdecorated : decorated = region :: preprocessorRangesOf document).
  { subst decorated. rewrite updateEditorDecoration_run.
    change (unsupported _) with false. simpl.
    unfold decorationRanges. rewrite decide_True by exact Hmode.
    unfold Map_get_or_empty, Map_set. rewrite lookup_insert_eq.
    rewrite app_nil_r. reflexivity. }
  split; [vm_compute; reflexivity|]. split; [exact Hdirective|].
  split; [exact Hdecorated|]. split; [|vm_compute; reflexivity].
  intros i. rewrite Hdecorated, Hdirective. unfold coversLine, region.
  rewrite !elem_of_cons, elem_of_nil. split.
  - intros (r & Hr & Hi). rewrite !elem_of_cons, elem_of_nil in Hr.
    destruct Hr as [-> | [-> | [-> | [-> | []]]]]; simpl in Hi; lia.
  - intros [-> | [-> | [-> | [-> | []]]]].
    + exists (Range.mk (mkPosition 0 0) (mkPosition 0 5)).
      rewrite !elem_of_cons. simpl. split; [auto | lia].
    + exists (Range.mk (mkPosition 2 0) (mkPosition 2 5)).
      rewrite !elem_of_cons. simpl. split; [auto | lia].
    + exists (Range.mk (mkPosition 2 c1) (mkPosition 3 c2)).
      rewrite !elem_of_cons. simpl. split; [auto | lia].
    + exists (Range.mk (mkPosition 4 0) (mkPosition 4 6)).
      rewrite !elem_of_cons. simpl. split; [auto 6 | lia].
Qed.

(** The record of the last style's opacity holds at start-up and after
    every handler. *)
Lemma styleRecorded_kept :
  (forall mode, styleRecorded (mkState ∅ None [] mode 0))
  /\ (forall params s,
         styleRecorded s ->
         styleRecorded
           (stateOf (onInactiveRegions toLowerCase parseFsPath toString host params s)))
  /\ (forall s,
         styleRecorded s ->
         styleRecorded (stateOf (toggleCommand toLowerCase toString host s)))
  /\ (forall s, styleRecorded (stateOf (deactivateIfDefHider s))).
Proof.
  split; [|split; [|split]].
  - intros mode d E. discriminate.
  - intros params s Hs.
    destruct (onInactiveRegions_run params s) as (s' & decorate & Hrun & _ & _ & Hstyle).
    rewrite Hrun. apply Hstyle, Hs.
  - intros s Hs.
    destruct (toggleCommand_run s) as (s' & decorate & Hrun & _ & _ & Hstyle).
    rewrite Hrun. apply Hstyle, Hs.
  - intros s d. unfold deactivateIfDefHider.
    cbv [mbind M_bind getState putState emit mret M_ret].
    destruct (lastDecoration s); simpl; discriminate.
Qed.

(** X1.  A notification for a document that no visible editor shows
    writes the cache and fires the change signal, and nothing else: no
    decoration, no fold, no unfold. *)
Theorem notification_without_editor_only_stores params s :
  affectedBy params = [] ->
  onInactiveRegions toLowerCase parseFsPath toString host params s
  = (tt,
     withRegions s (Map_set (inactiveRegionsMap s)
                      (docKeyIn params)
                      (receivedRegions params)),
     [InactiveRegionsSet (docKeyIn params)
        (receivedRegions params);
      FoldingChangeFire]).
Proof.
  intros Hnone. unfold onInactiveRegions.
  fold (docKeyIn params) (receivedRegions params)
    (affectedBy params).
  rewrite Hnone. cbv [mbind M_bind getState putState emit mret M_ret forEach].
  destruct (decide (hideIfdefMode s = hiddenFolded)); reflexivity.
Qed.

End ExtensionProperties.

(** C6.  [nextMode] steps through visible, hidden, hiddenFolded and back
    to visible, so three steps return to the start; the toggle command
    leaves the module in the next mode, and three toggles in the mode they
    started from. *)
Theorem mode_cycle_closed :
  nextMode visible = hidden
  /\ nextMode hidden = hiddenFolded
  /\ nextMode hiddenFolded = visible
  /\ (forall mode, nextMode (nextMode (nextMode mode)) = mode)
  /\ (forall toLowerCase number (toString : number -> JSString) (host : Host number) s,
         hideIfdefMode (stateOf (toggleCommand toLowerCase toString host s))
         = nextMode (hideIfdefMode s))
  /\ (forall toLowerCase number (toString : number -> JSString)
        (host1 host2 host3 : Host number) s,
         hideIfdefMode
           (stateOf (toggleCommand toLowerCase toString host3
              (stateOf (toggleCommand toLowerCase toString host2
                 (stateOf (toggleCommand toLowerCase toString host1 s))))))
         = hideIfdefMode s).
Proof.
  assert (Hstep : forall toLowerCase number (toString : number -> JSString)
                    (host : Host number) s,
             hideIfdefMode (stateOf (toggleCommand toLowerCase toString host s))
             = nextMode (hideIfdefMode s)).
  { intros toLowerCase number toString host s.
    destruct (toggleCommand_run toLowerCase number toString host s)
      as (s' & decorate & Hrun & [_ Hmode] & _).
    rewrite Hrun. exact Hmode. }
  repeat split; try reflexivity.
  - intros []; reflexivity.
  - exact Hstep.
  - intros. rewrite !Hstep. destruct (hideIfdefMode s); reflexivity.
Qed.

(** C4, as the code has it.  A line is flagged if and only if it is
    whitespace, a [#], whitespace and one of the six keywords followed by the
    end of the line or a non-word character; the directive lines that the
    folding aggregator collects are the lines of the document of that form. *)
Theorem directive_scanner_requires_hash_and_word_end :
  (forall l, test PREPROCESSOR_REGEX l = true <-> DirectiveLine l)
  /\ (forall document i,
         i ∈ hiddenLinesOf document []
         <-> i < lineCount document /\ DirectiveLine (text (lineAt document i))).
Proof.
  split; [exact PREPROCESSOR_REGEX_spec|].
  intros document i. rewrite elem_of_hiddenLinesOf, PREPROCESSOR_REGEX_spec. split.
  - intros [(r & Hr & _) | H]; [inversion Hr | exact H].
  - auto.
Qed.

(** C4 as the specification words it fails: [if (x)] has no [#] and [#iffy]
    only starts with a keyword; the specification's reading flags both, the
    pattern flags neither. *)
Lemma directive_scanner_optional_hash_counterexample :
  spec_directiveLine (utf16 "if (x)") = true
  /\ test PREPROCESSOR_REGEX (utf16 "if (x)") = false
  /\ spec_directiveLine (utf16 "#iffy") = true
  /\ test PREPROCESSOR_REGEX (utf16 "#iffy") = false.
Proof. repeat split; vm_compute; reflexivity. Qed.

(** ** The scenario of section 8, run *)

Example notification_example :
  traceOf (onInactiveRegions id id exampleToString exampleHost exampleParams exampleState)
  = [EditorUnfold [2] 1;
     InactiveRegionsSet (utf16 "/a.c") [];
     FoldingChangeFire;
     CreateDecorationType (mkDecoration 0 [0%N]);
     SetDecorations 1 (mkDecoration 0 [0%N])
       [Range.mk (mkPosition 0 0) (mkPosition 0 5);
        Range.mk (mkPosition 2 0) (mkPosition 2 5);
        Range.mk (mkPosition 4 0) (mkPosition 4 6)]].
Proof. vm_compute. reflexivity. Qed.

Example toggle_example :
  traceOf (toggleCommand id exampleToString exampleHost exampleState)
  = [WorkspaceStateUpdate visible;
     FoldingChangeFire;
     StatusBarAssign visible;
     CreateDecorationType (mkDecoration 0 [55%N]);
     SetDecorations 1 (mkDecoration 0 [55%N]) [exampleRegion];
     EditorUnfold [2] 1].
Proof. vm_compute. reflexivity. Qed.

(** ** The theorems at the scenario *)

Lemma notification_unfolds_old_stores_then_folds_new_witness :
  exists before after decorate,
    traceOf (onInactiveRegions id id exampleToString exampleHost exampleParams exampleState)
    = before ++ InactiveRegionsSet (utf16 "/a.c") [] :: after
    /\ before = flat_map (unfoldTrace (inactiveRegionsMap exampleState) (utf16 "/a.c"))
                  [exampleEditor]
    /\ after = FoldingChangeFire :: decorate ++ flat_map (foldTrace []) [exampleEditor]
    /\ Forall (fun e => isDecorationEffect e = true) decorate
    /\ Forall (fun e => isUnfold e = true) before
    /\ Forall (fun e => isUnfold e = false /\ isInactiveRegionsSet e = false) after
    /\ Map_get_or_empty
         (inactiveRegionsMap
            (stateOf (onInactiveRegions id id exampleToString exampleHost
                        exampleParams exampleState)))
         (utf16 "/a.c")
       = [].
Proof.
  exact (notification_unfolds_old_stores_then_folds_new id id nat exampleToString
           exampleHost exampleParams exampleState eq_refl).
Defined.

Lemma scenario_if_else_endif_witness :
  let document := scenarioDocument (utf16 "/a.c") in
  let decorated :=
    decoratedRanges
      (traceOf (updateEditorDecoration id exampleEditor (mkDecoration 0 [0%N])
                  (mkState (Map_set ∅ (utf16 "/a.c") [exampleRegion]) None [] hidden 0))) in
  hiddenLinesOf document [] = [0; 2; 4]
  /\ preprocessorRangesOf document
     = [Range.mk (mkPosition 0 0) (mkPosition 0 5);
        Range.mk (mkPosition 2 0) (mkPosition 2 5);
        Range.mk (mkPosition 4 0) (mkPosition 4 6)]
  /\ decorated = exampleRegion :: preprocessorRangesOf document
  /\ (forall i, coversLine decorated i <-> i ∈ [0; 2; 3; 4])
  /\ collectHiddenFoldingRanges document [exampleRegion] = [FoldingRange.mk 2 4 Region].
Proof.
  apply (scenario_if_else_endif id (utf16 "/a.c") 0 6 1 (mkDecoration 0 [0%N]) hidden).
  discriminate.
Defined.

Lemma toggle_unfolds_only_when_leaving_hiddenFolded_witness :
  hideIfdefMode exampleState = hiddenFolded
  /\ exists selectionLines,
       EditorUnfold selectionLines 1
         ∈ traceOf (toggleCommand id exampleToString exampleHost exampleState)
       /\ 2 ∈ selectionLines.
Proof.
  split; [reflexivity|].
  destruct (proj1 (toggle_unfolds_only_when_leaving_hiddenFolded id nat exampleToString
                     exampleHost) exampleState eq_refl)
    as (decorate & _ & _ & _ & _ & Hblocks).
  apply (Hblocks exampleEditor (FoldingRange.mk 2 4 Region)).
  - apply list_elem_of_here.
  - vm_compute. apply list_elem_of_here.
Defined.

Lemma hidden_decorations_extend_visible_witness :
  let shown :=
    decoratedRanges
      (traceOf (updateEditorDecoration id exampleEditor (mkDecoration 0 [0%N])
                  (withMode exampleState visible))) in
  let hid :=
    decoratedRanges
      (traceOf (updateEditorDecoration id exampleEditor (mkDecoration 0 [0%N])
                  (withMode exampleState hidden))) in
  hid = shown ++ (if unsupported (document exampleEditor) then []
                  else preprocessorRangesOf (document exampleEditor))
  /\ shown ⊆ hid
  /\ (unsupported (document exampleEditor) = false ->
      shown = Map_get_or_empty (inactiveRegionsMap exampleState)
                (docKeyOf id (document exampleEditor)))
  /\ exists directiveLines,
       StronglySorted lt directiveLines
       /\ (forall i,
              i ∈ directiveLines
              <-> i < lineCount (document exampleEditor)
                  /\ DirectiveLine (text (lineAt (document exampleEditor) i)))
       /\ hid = shown ++ (if unsupported (document exampleEditor) then []
                          else lineRange (document exampleEditor) <$> directiveLines).
Proof.
  apply (hidden_decorations_extend_visible id exampleEditor (mkDecoration 0 [0%N])
           exampleState hidden).
  discriminate.
Defined.

(** In the scenario the cached region is followed by the ranges of lines 0,
    2 and 4, the three directive lines. *)
Example decorations_in_the_scenario :
  decoratedRanges
    (traceOf (updateEditorDecoration id exampleEditor (mkDecoration 0 [0%N])
                (withMode exampleState hidden)))
  = exampleRegion :: (lineRange (document exampleEditor) <$> [0; 2; 4]).
Proof. vm_compute. reflexivity. Qed.

Lemma region_cache_update_replaces_witness :
  Map_get_or_empty
    (foldl (fun m u => Map_set m u.1 u.2) ∅ [(utf16 "/a.c", [exampleRegion])])
    (utf16 "/b.c")
  = [].
Proof.
  apply (proj1 (proj2 (proj2 (proj2
           (region_cache_update_replaces id id nat exampleToString exampleHost))))).
  simpl. apply not_elem_of_cons. split; [discriminate | apply not_elem_of_nil].
Defined.

Lemma getDecoration_reuses_or_recreates_witness :
  let d := mkDecoration 0 [0%N] in
  let s := mkState ∅ (Some d) [0%N] hidden 1 in
  getDecoration exampleToString exampleHost s = (d, s, []).
Proof.
  intros d s.
  apply (proj1 (proj2 (proj2
           (getDecoration_reuses_or_recreates nat exampleToString exampleHost)))).
  - reflexivity.
  - intros d' E. injection E as <-. reflexivity.
  - reflexivity.
Defined.

Lemma notification_without_editor_only_stores_witness :
  onInactiveRegions id id exampleToString (mkHost [] None 0 55) exampleParams exampleState
  = (tt, withRegions exampleState (Map_set (inactiveRegionsMap exampleState) (utf16 "/a.c") []),
     [InactiveRegionsSet (utf16 "/a.c") []; FoldingChangeFire]).
Proof.
  apply (notification_without_editor_only_stores id id nat exampleToString
           (mkHost [] None 0 55) exampleParams exampleState).
  reflexivity.
Defined.

(** * Further properties *)

(** ** The blocks of the folding aggregator *)

Lemma pushBlock_app blockStart blockEnd foldingRanges :
  pushBlock blockStart blockEnd foldingRanges
  = foldingRanges ++ pushBlock blockStart blockEnd [].
Proof.
  unfold pushBlock. destruct (blockStart <? blockEnd); [reflexivity|].
  rewrite app_nil_r. reflexivity.
Qed.

Lemma fold_groupStep_runs sorted : forall blockStart blockEnd foldingRanges,
  (let '(blockStart', blockEnd', foldingRanges') :=
     fold_left groupStep sorted (blockStart, blockEnd, foldingRanges) in
   pushBlock blockStart' blockEnd' foldingRanges')
  = foldingRanges ++ runsFrom blockStart blockEnd sorted.
Proof.
  induction sorted as [|x sorted IH]; intros blockStart blockEnd foldingRanges.
  - simpl. apply pushBlock_app.
  - cbn [fold_left runsFrom groupStep]. destruct (x =? blockEnd + 1).
    + apply IH.
    + rewrite IH, (pushBlock_app blockStart blockEnd foldingRanges), app_assoc.
      reflexivity.
Qed.

Lemma groupConsecutive_runs first others :
  groupConsecutive (first :: others) = runsFrom first first others.
Proof.
  unfold groupConsecutive.
  pose proof (fold_groupStep_runs others first first []) as H.
  destruct (fold_left groupStep others (first, first, [])) as [[bs be] out].
  exact H.
Qed.

Lemma runsFrom_spans sorted : forall blockStart blockEnd,
  Forall spansTwoLines (runsFrom blockStart blockEnd sorted).
Proof.
  induction sorted as [|x sorted IH]; intros bs be; cbn [runsFrom].
  - unfold pushBlock. destruct (Nat.ltb_spec bs be); repeat constructor. exact H.
  - destruct (x =? be + 1); [apply IH|]. apply Forall_app. split; [|apply IH].
    unfold pushBlock. destruct (Nat.ltb_spec bs be); repeat constructor. exact H.
Qed.

(** The recursion emits the maximal runs of two or more of the lines in
    hand: each block lies within them and is bordered by lines that are not
    among them, and every line that has a neighbour among them is in a
    block. *)
Lemma runsFrom_spec sorted : forall blockStart blockEnd,
  blockStart <= blockEnd ->
  StronglySorted lt (blockEnd :: sorted) ->
  (forall b,
      b ∈ runsFrom blockStart blockEnd sorted ->
      blockStart <= FoldingRange.start b
      /\ (forall i, inBlock b i -> pendingLine blockStart blockEnd sorted i)
      /\ ~ pendingLine blockStart blockEnd sorted (S (FoldingRange.end_ b))
      /\ (forall j, S j = FoldingRange.start b ->
                    ~ pendingLine blockStart blockEnd sorted j))
  /\ (forall i,
         pendingLine blockStart blockEnd sorted i ->
         pendingLine blockStart blockEnd sorted (S i)
         \/ (exists j, S j = i /\ pendingLine blockStart blockEnd sorted j) ->
         exists b, b ∈ runsFrom blockStart blockEnd sorted /\ inBlock b i).
Proof.
  induction sorted as [|x sorted IH]; intros bs be Hle Hs.
  - unfold pendingLine, inBlock. simpl. unfold pushBlock.
    destruct (Nat.ltb_spec bs be) as [Hlt | Hge]; split.
    + intros b Hb. apply list_elem_of_singleton in Hb as ->. simpl.
      split; [lia|]. split; [intros i Hi; left; lia|]. split.
      * intros [H | H]; [lia | inversion H].
      * intros j Hj [H | H]; [lia | inversion H].
    + intros i [Hi | Hi] _; [|inversion Hi].
      exists (FoldingRange.mk bs be Region). split; [apply list_elem_of_here|].
      simpl. lia.
    + intros b Hb. inversion Hb.
    + intros i [Hi | Hi] Hn; [|inversion Hi]. exfalso.
      destruct Hn as [[H | H] | (j & Hj & [H | H])];
        try lia; inversion H.
  - apply StronglySorted_inv in Hs as [Hs Hbe].
    apply Forall_cons in Hbe as [Hx Hbe].
    pose proof Hs as Hs'. apply StronglySorted_inv in Hs' as [_ Hxs].
    rewrite Forall_forall in Hbe, Hxs.
    cbn [runsFrom]. destruct (Nat.eqb_spec x (be + 1)) as [-> | Hne].
    + assert (Heq : forall i, pendingLine bs be ((be + 1) :: sorted) i
                              <-> pendingLine bs (be + 1) sorted i).
      { intros i. unfold pendingLine. rewrite elem_of_cons. intuition lia. }
      destruct (IH bs (be + 1)) as [IH1 IH2]; [lia | exact Hs |]. split.
      * intros b Hb. destruct (IH1 b Hb) as (H1 & H2 & H3 & H4).
        split; [exact H1|]. split; [intros i Hi; apply Heq, H2, Hi|].
        split; [intros H; apply H3, Heq, H|].
        intros j Hj H. apply (H4 j Hj), Heq, H.
      * intros i Hi Hn. apply IH2; [apply Heq, Hi|].
        destruct Hn as [H | (j & Hj & H)]; [left; apply Heq, H|].
        right. exists j. split; [exact Hj | apply Heq, H].
    + assert (Hgap : be + 1 < x) by lia.
      destruct (IH x x) as [IH1 IH2]; [lia | exact Hs |].
      assert (Hsplit : forall i, pendingLine bs be (x :: sorted) i
                                 <-> bs <= i <= be \/ pendingLine x x sorted i).
      { intros i. unfold pendingLine. rewrite elem_of_cons. intuition lia. }
      assert (Hlater : forall i, pendingLine x x sorted i -> x <= i).
      { intros i [H | H]; [lia|]. specialize (Hxs i H). lia. }
      split.
      * intros b Hb. apply elem_of_app in Hb as [Hb | Hb].
        -- unfold pushBlock in Hb. destruct (Nat.ltb_spec bs be); [|inversion Hb].
           apply list_elem_of_singleton in Hb as ->. unfold inBlock. simpl.
           split; [lia|]. split; [intros i Hi; apply Hsplit; left; lia|].
           split.
           ++ intros Hp. apply Hsplit in Hp as [Hp | Hp]; [lia|].
              apply Hlater in Hp. lia.
           ++ intros j Hj Hp. apply Hsplit in Hp as [Hp | Hp]; [lia|].
              apply Hlater in Hp. lia.
        -- destruct (IH1 b Hb) as (H1 & H2 & H3 & H4).
           assert (Hend : FoldingRange.start b < FoldingRange.end_ b).
           { pose proof (runsFrom_spans sorted x x) as Hall.
             rewrite Forall_forall in Hall. apply Hall, Hb. }
           split; [lia|]. split; [intros i Hi; apply Hsplit; right; apply H2, Hi|].
           split.
           ++ intros Hp. apply Hsplit in Hp as [Hp | Hp]; [lia | exact (H3 Hp)].
           ++ intros j Hj Hp. apply Hsplit in Hp as [Hp | Hp]; [lia | exact (H4 j Hj Hp)].
      * intros i Hi Hn. apply Hsplit in Hi as [Hi | Hi].
        -- exists (FoldingRange.mk bs be Region). unfold inBlock. simpl.
           split; [|lia]. apply elem_of_app. left. unfold pushBlock.
           assert (bs < be) as Hlt.
           { destruct Hn as [Hp | (j & Hj & Hp)]; apply Hsplit in Hp as [Hp | Hp];
               try lia; apply Hlater in Hp; lia. }
           apply Nat.ltb_lt in Hlt. rewrite Hlt. apply list_elem_of_here.
        -- destruct (IH2 i Hi) as (b & Hb & Hin).
           ++ pose proof (Hlater i Hi) as Hxi.
              destruct Hn as [Hp | (j & Hj & Hp)]; apply Hsplit in Hp as [Hp | Hp];
                try lia; [left; exact Hp | right; exists j; auto].
           ++ exists b. split; [apply elem_of_app; right; exact Hb | exact Hin].
Qed.

Lemma hiddenLine_elem_of document inactiveRanges i :
  hiddenLine document inactiveRanges i <-> i ∈ hiddenLinesOf document inactiveRanges.
Proof. rewrite elem_of_hiddenLinesOf. reflexivity. Qed.

Lemma collectHiddenFoldingRanges_runs document inactiveRanges :
  collectHiddenFoldingRanges document inactiveRanges = []
  \/ exists first others,
       StronglySorted lt (first :: others)
       /\ (forall i, i ∈ first :: others <-> hiddenLine document inactiveRanges i)
       /\ collectHiddenFoldingRanges document inactiveRanges
          = runsFrom first first others.
Proof.
  unfold collectHiddenFoldingRanges.
  destruct (length (hiddenLinesOf document inactiveRanges) =? 0); [left; reflexivity|].
  pose proof (Array_sort_strict _ (NoDup_hiddenLinesOf document inactiveRanges)) as Hs.
  pose proof (Array_sort_Permutation compareNumbers
                (hiddenLinesOf document inactiveRanges)) as Hp.
  destruct (Array_sort compareNumbers (hiddenLinesOf document inactiveRanges))
    as [|first others]; [left; reflexivity|].
  right. exists first, others. split; [exact Hs|]. split.
  - intros i. rewrite hiddenLine_elem_of, Hp. reflexivity.
  - apply groupConsecutive_runs.
Qed.

(** What the blocks are, in terms of the hidden lines. *)
Lemma collectHiddenFoldingRanges_spec document inactiveRanges :
  (forall b,
      b ∈ collectHiddenFoldingRanges document inactiveRanges ->
      (forall i, inBlock b i -> hiddenLine document inactiveRanges i)
      /\ ~ hiddenLine document inactiveRanges (S (FoldingRange.end_ b))
      /\ (forall j, S j = FoldingRange.start b ->
                    ~ hiddenLine document inactiveRanges j))
  /\ (forall i,
         hiddenLine document inactiveRanges i ->
         hiddenLine document inactiveRanges (S i)
         \/ (exists j, S j = i /\ hiddenLine document inactiveRanges j) ->
         exists b, b ∈ collectHiddenFoldingRanges document inactiveRanges
                   /\ inBlock b i).
Proof.
  destruct (collectHiddenFoldingRanges_runs document inactiveRanges)
    as [Hnil | (first & others & Hs & Hmem & Hruns)].
  - rewrite Hnil. split; [intros b Hb; inversion Hb|].
    intros i Hi Hn. exfalso.
    unfold collectHiddenFoldingRanges in Hnil.
    destruct (Nat.eqb_spec (length (hiddenLinesOf document inactiveRanges)) 0)
      as [Hlen | Hlen].
    + apply nil_length_inv in Hlen. apply hiddenLine_elem_of in Hi.
      rewrite Hlen in Hi. inversion Hi.
    + clear Hlen.
      pose proof (Array_sort_strict _ (NoDup_hiddenLinesOf document inactiveRanges))
        as Hs.
      pose proof (Array_sort_Permutation compareNumbers
                    (hiddenLinesOf document inactiveRanges)) as Hp.
      assert (Hin : forall k, hiddenLine document inactiveRanges k
                              <-> k ∈ Array_sort compareNumbers
                                        (hiddenLinesOf document inactiveRanges)).
      { intros k. rewrite hiddenLine_elem_of, Hp. reflexivity. }
      destruct (Array_sort compareNumbers (hiddenLinesOf document inactiveRanges))
        as [|first others].
      * apply Hin in Hi. inversion Hi.
      * rewrite groupConsecutive_runs in Hnil.
        destruct (runsFrom_spec others first first (le_n _) Hs) as [_ H2].
        assert (Hpend : forall k, pendingLine first first others k
                                  <-> hiddenLine document inactiveRanges k).
        { intros k. rewrite Hin. unfold pendingLine. rewrite elem_of_cons.
          intuition lia. }
        destruct (H2 i) as (b & Hb & _).
        -- apply Hpend, Hi.
        -- destruct Hn as [H | (j & Hj & H)]; [left; apply Hpend, H|].
           right. exists j. split; [exact Hj | apply Hpend, H].
        -- rewrite Hnil in Hb. inversion Hb.
  - rewrite Hruns.
    assert (Hpend : forall k, pendingLine first first others k
                              <-> hiddenLine document inactiveRanges k).
    { intros k. rewrite <- Hmem. unfold pendingLine. rewrite elem_of_cons.
      intuition lia. }
    destruct (runsFrom_spec others first first (le_n _) Hs) as [H1 H2]. split.
    + intros b Hb. destruct (H1 b Hb) as (_ & Ha & Hb' & Hc).
      split; [intros i Hi; apply Hpend, Ha, Hi|].
      split; [intros H; apply Hb', Hpend, H|].
      intros j Hj H. apply (Hc j Hj), Hpend, H.
    + intros i Hi Hn. apply H2; [apply Hpend, Hi|].
      destruct Hn as [H | (j & Hj & H)]; [left; apply Hpend, H|].
      right. exists j. split; [exact Hj | apply Hpend, H].
Qed.

Lemma collectHiddenFoldingRanges_sorted document inactiveRanges :
  StronglySorted byStart (collectHiddenFoldingRanges document inactiveRanges)
  /\ Forall spansTwoLines (collectHiddenFoldingRanges document inactiveRanges).
Proof.
  unfold collectHiddenFoldingRanges.
  destruct (length (hiddenLinesOf document inactiveRanges) =? 0).
  - split; constructor.
  - apply groupConsecutive_sorted, Array_sort_strict, NoDup_hiddenLinesOf.
Qed.

(** X2.  Every block that [collectHiddenFoldingRanges] returns is a maximal
    run of hidden lines: each line from its start to its end is hidden (it
    lies in an inactive range or is a directive line), and neither the line
    before its start nor the line after its end is. *)
Theorem fold_blocks_are_maximal_runs document inactiveRanges b :
  b ∈ collectHiddenFoldingRanges document inactiveRanges ->
  (forall i, inBlock b i -> hiddenLine document inactiveRanges i)
  /\ ~ hiddenLine document inactiveRanges (S (FoldingRange.end_ b))
  /\ (forall j, S j = FoldingRange.start b -> ~ hiddenLine document inactiveRanges j).
Proof.
  intros Hb.
  exact (proj1 (collectHiddenFoldingRanges_spec document inactiveRanges) b Hb).
Qed.

Lemma fold_blocks_are_maximal_runs_witness :
  let document := scenarioDocument (utf16 "/a.c") in
  let b := FoldingRange.mk 2 4 Region in
  (forall i, inBlock b i -> hiddenLine document [exampleRegion] i)
  /\ ~ hiddenLine document [exampleRegion] 5
  /\ (forall j, S j = 2 -> ~ hiddenLine document [exampleRegion] j).
Proof.
  apply (fold_blocks_are_maximal_runs (scenarioDocument (utf16 "/a.c"))
           [exampleRegion] (FoldingRange.mk 2 4 Region)).
  vm_compute. apply list_elem_of_here.
Defined.

(** X3.  Two hidden lines that follow one another are folded together: some
    returned block contains both.  So no run of two or more hidden lines is
    left without a block. *)
Theorem consecutive_hidden_lines_share_a_block document inactiveRanges i :
  hiddenLine document inactiveRanges i ->
  hiddenLine document inactiveRanges (S i) ->
  exists b,
    b ∈ collectHiddenFoldingRanges document inactiveRanges
    /\ inBlock b i /\ inBlock b (S i).
Proof.
  intros Hi Hsi.
  destruct (collectHiddenFoldingRanges_spec document inactiveRanges) as [H1 H2].
  destruct (H2 i Hi (or_introl Hsi)) as (b & Hb & Hin).
  exists b. split; [exact Hb|]. split; [exact Hin|].
  destruct (H1 b Hb) as (_ & Hend & _). unfold inBlock in *.
  destruct (Nat.eq_dec i (FoldingRange.end_ b)) as [-> | Hne]; [|lia].
  exfalso. exact (Hend Hsi).
Qed.

Lemma consecutive_hidden_lines_share_a_block_witness :
  exists b,
    b ∈ collectHiddenFoldingRanges (scenarioDocument (utf16 "/a.c")) [exampleRegion]
    /\ inBlock b 3 /\ inBlock b 4.
Proof.
  apply (consecutive_hidden_lines_share_a_block (scenarioDocument (utf16 "/a.c"))
           [exampleRegion] 3).
  - left. exists exampleRegion. split; [apply list_elem_of_here | simpl; lia].
  - right. split; [vm_compute; lia | reflexivity].
Defined.

(** X4.  The returned blocks do not touch: between the end of a block and
    the start of every later block there is at least one line that is not
    hidden, so [end + 1 < start]. *)
Theorem fold_blocks_are_separated document inactiveRanges :
  StronglySorted (fun a b => S (FoldingRange.end_ a) < FoldingRange.start b)
    (collectHiddenFoldingRanges document inactiveRanges).
Proof.
  destruct (collectHiddenFoldingRanges_sorted document inactiveRanges) as [Hs Hspan].
  pose proof (proj1 (collectHiddenFoldingRanges_spec document inactiveRanges)) as Hmax.
  rewrite Forall_forall in Hspan.
  induction Hs as [|a l Hs IH Ha]; [constructor|].
  constructor.
  - apply IH.
    + intros b Hb. apply Hspan, list_elem_of_further, Hb.
    + intros b Hb. apply Hmax, list_elem_of_further, Hb.
  - rewrite Forall_forall in Ha. apply Forall_forall. intros b Hb.
    specialize (Ha b Hb). unfold byStart in Ha.
    destruct (Hmax a (list_elem_of_here _ _)) as (Hina & Henda & _).
    destruct (Hmax b (list_elem_of_further _ _ _ Hb)) as (Hinb & _ & Hstartb).
    pose proof (Hspan b (list_elem_of_further _ _ _ Hb)) as Hb2.
    unfold spansTwoLines in Hb2.
    destruct (Nat.lt_ge_cases (S (FoldingRange.end_ a)) (FoldingRange.start b))
      as [Hlt | Hge]; [exact Hlt | exfalso].
    destruct (Nat.eq_dec (FoldingRange.start b) (S (FoldingRange.end_ a)))
      as [Heq | Hne].
    + apply Henda. rewrite <- Heq. apply Hinb. unfold inBlock. lia.
    + destruct (FoldingRange.start b) as [|j] eqn:Ej; [lia|].
      apply (Hstartb j eq_refl). apply Hina. unfold inBlock. lia.
Qed.

(** X5.  The blocks depend on the inactive ranges only through the lines
    they hide: two range lists that hide the same lines of a document (in
    another order, overlapping, repeated, with other character offsets) give
    the same blocks. *)
Theorem fold_blocks_depend_on_hidden_lines_only document ranges1 ranges2 :
  (forall i, hiddenLine document ranges1 i <-> hiddenLine document ranges2 i) ->
  collectHiddenFoldingRanges document ranges1
  = collectHiddenFoldingRanges document ranges2.
Proof.
  intros Hsame.
  assert (Hp : hiddenLinesOf document ranges1 ≡ₚ hiddenLinesOf document ranges2).
  { apply NoDup_Permutation; try apply NoDup_hiddenLinesOf.
    intros i. rewrite <- !hiddenLine_elem_of. apply Hsame. }
  unfold collectHiddenFoldingRanges. rewrite (Permutation_length Hp).
  destruct (length (hiddenLinesOf document ranges2) =? 0); [reflexivity|].
  f_equal. apply (StronglySorted_unique_strong lt).
  - intros x1 x2 _ _ H1 H2. lia.
  - apply Array_sort_strict, NoDup_hiddenLinesOf.
  - apply Array_sort_strict, NoDup_hiddenLinesOf.
  - rewrite !Array_sort_Permutation. exact Hp.
Qed.

Lemma fold_blocks_depend_on_hidden_lines_only_witness :
  collectHiddenFoldingRanges (scenarioDocument (utf16 "/a.c")) [exampleRegion]
  = collectHiddenFoldingRanges (scenarioDocument (utf16 "/a.c"))
      [Range.mk (mkPosition 3 1) (mkPosition 3 2);
       Range.mk (mkPosition 2 5) (mkPosition 3 0);
       Range.mk (mkPosition 3 1) (mkPosition 3 2)].
Proof.
  apply fold_blocks_depend_on_hidden_lines_only.
  intros i. unfold hiddenLine, coversLine.
  split; (intros [(r & Hr & Hi) | H]; [left | right; exact H]).
  - apply list_elem_of_singleton in Hr as ->. simpl in Hi.
    exists (Range.mk (mkPosition 2 5) (mkPosition 3 0)).
    split; [apply list_elem_of_further, list_elem_of_here | simpl; lia].
  - exists exampleRegion. split; [apply list_elem_of_here|].
    rewrite !elem_of_cons, elem_of_nil in Hr.
    destruct Hr as [-> | [-> | [-> | []]]]; simpl in *; lia.
Defined.

(** X6.  When every inactive range ends inside the document, so does every
    block: the fold commands then name lines of the document only. *)
Theorem fold_blocks_stay_in_document document inactiveRanges :
  Forall (fun r => line (Range.end_ r) < lineCount document) inactiveRanges ->
  Forall (fun b => FoldingRange.end_ b < lineCount document)
    (collectHiddenFoldingRanges document inactiveRanges).
Proof.
  intros Hin. rewrite Forall_forall in Hin. apply Forall_forall. intros b Hb.
  destruct (collectHiddenFoldingRanges_sorted document inactiveRanges) as [_ Hspan].
  rewrite Forall_forall in Hspan. specialize (Hspan b Hb). unfold spansTwoLines in Hspan.
  destruct (proj1 (collectHiddenFoldingRanges_spec document inactiveRanges) b Hb)
    as (Hlines & _ & _).
  destruct (Hlines (FoldingRange.end_ b)) as [(r & Hr & Hi) | [Hi _]].
  - unfold inBlock. lia.
  - specialize (Hin r Hr). lia.
  - exact Hi.
Qed.

Lemma fold_blocks_stay_in_document_witness :
  Forall (fun b => FoldingRange.end_ b < lineCount (scenarioDocument (utf16 "/a.c")))
    (collectHiddenFoldingRanges (scenarioDocument (utf16 "/a.c")) [exampleRegion]).
Proof.
  apply fold_blocks_stay_in_document.
  constructor; [vm_compute; lia | constructor].
Defined.

Lemma coversLine_preprocessorRangesOf document i :
  coversLine (preprocessorRangesOf document) i
  <-> i < lineCount document
      /\ test PREPROCESSOR_REGEX (text (lineAt document i)) = true.
Proof.
  unfold coversLine, preprocessorRangesOf. split.
  - intros (r & Hr & Hi). apply list_elem_of_fmap in Hr as (l & -> & Hl).
    apply list_elem_of_filter in Hl as [Ht Hl].
    apply list_elem_of_fmap in Hl as (j & -> & Hj). apply elem_of_seq in Hj.
    simpl in Hi. assert (i = j) as -> by lia. split; [lia | exact Ht].
  - intros [Hi Ht]. exists (range (lineAt document i)). split; [|simpl; lia].
    apply list_elem_of_fmap. exists (lineAt document i). split; [reflexivity|].
    apply list_elem_of_filter. split; [exact Ht|].
    apply list_elem_of_fmap. exists i. split; [reflexivity|].
    apply elem_of_seq. lia.
Qed.

(** X7.  Outside [visible] mode the ranges handed to [setDecorations] touch
    exactly the hidden lines that the folding aggregator groups, so every
    line of every fold block is decorated as hidden; in [visible] mode they
    touch the lines of the inactive ranges only. *)
Theorem decorated_lines_are_the_folded_lines document inactiveRanges :
  (forall mode i,
      mode <> visible ->
      coversLine
        (decorationRanges mode inactiveRanges (preprocessorRangesOf document)) i
      <-> hiddenLine document inactiveRanges i)
  /\ (forall mode b i,
         mode <> visible ->
         b ∈ collectHiddenFoldingRanges document inactiveRanges ->
         inBlock b i ->
         coversLine
           (decorationRanges mode inactiveRanges (preprocessorRangesOf document)) i)
  /\ (forall i,
         coversLine
           (decorationRanges visible inactiveRanges (preprocessorRangesOf document)) i
         <-> coversLine inactiveRanges i).
Proof.
  assert (Hcov : forall mode i,
             mode <> visible ->
             coversLine
               (decorationRanges mode inactiveRanges (preprocessorRangesOf document)) i
             <-> hiddenLine document inactiveRanges i).
  { intros mode i Hmode. unfold decorationRanges, hiddenLine.
    rewrite decide_True by exact Hmode.
    rewrite <- coversLine_preprocessorRangesOf. unfold coversLine. split.
    - intros (r & Hr & Hi). apply elem_of_app in Hr as [Hr | Hr]; eauto.
    - intros [(r & Hr & Hi) | (r & Hr & Hi)]; exists r;
        (split; [apply elem_of_app; auto | exact Hi]). }
  split; [exact Hcov|]. split.
  - intros mode b i Hmode Hb Hi. apply Hcov; [exact Hmode|].
    apply (proj1 (collectHiddenFoldingRanges_spec document inactiveRanges) b Hb), Hi.
  - intros i. unfold decorationRanges.
    rewrite decide_False by (intros H; apply H; reflexivity). reflexivity.
Qed.

Lemma decorated_lines_are_the_folded_lines_witness :
  coversLine
    (decorationRanges hidden [exampleRegion]
       (preprocessorRangesOf (scenarioDocument (utf16 "/a.c")))) 3.
Proof.
  apply (proj1 (proj2 (decorated_lines_are_the_folded_lines
                         (scenarioDocument (utf16 "/a.c")) [exampleRegion]))
           hidden (FoldingRange.mk 2 4 Region) 3).
  - discriminate.
  - vm_compute. apply list_elem_of_here.
  - unfold inBlock. simpl. lia.
Defined.

(** ** The filter around clangd's folding ranges *)

(** X8.  The filter around clangd's folding ranges answers the empty list
    when clangd answers nothing, and clangd's list unchanged in [visible]
    mode.  In the other modes it keeps, in their order, exactly the ranges
    that do not start on a directive line of the document (a range that
    starts past the last line is kept), and filtering its answer again
    changes nothing. *)
Theorem clangd_ranges_lose_directive_starts :
  (forall s document, clangdProvideFoldingRanges s document None = [])
  /\ (forall s document ranges,
         hideIfdefMode s = visible ->
         clangdProvideFoldingRanges s document (Some ranges) = ranges)
  /\ (forall s document ranges r,
         hideIfdefMode s <> visible ->
         r ∈ clangdProvideFoldingRanges s document (Some ranges)
         <-> r ∈ ranges
             /\ ~ (FoldingRange.start r < lineCount document
                   /\ test PREPROCESSOR_REGEX
                        (text (lineAt document (FoldingRange.start r))) = true))
  /\ (forall s document ranges,
         clangdProvideFoldingRanges s document (Some ranges) `sublist_of` ranges)
  /\ (forall s document ranges,
         clangdProvideFoldingRanges s document
           (Some (clangdProvideFoldingRanges s document (Some ranges)))
         = clangdProvideFoldingRanges s document (Some ranges)).
Proof.
  split; [reflexivity|]. split; [|split; [|split]].
  - intros s document ranges Hmode. unfold clangdProvideFoldingRanges.
    rewrite decide_True by exact Hmode. reflexivity.
  - intros s document ranges r Hmode. unfold clangdProvideFoldingRanges.
    rewrite decide_False by exact Hmode. rewrite list_elem_of_filter. split.
    + intros [[H | H] Hr]; (split; [exact Hr|]); intros [H1 H2]; [lia | congruence].
    + intros [Hr Hn]. split; [|exact Hr].
      destruct (test PREPROCESSOR_REGEX _) eqn:E; [left | right; reflexivity].
      destruct (Nat.le_gt_cases (lineCount document) (FoldingRange.start r))
        as [Hle | Hgt]; [exact Hle | exfalso; apply Hn; auto].
  - intros s document ranges. unfold clangdProvideFoldingRanges.
    destruct (decide (hideIfdefMode s = visible)); [reflexivity | apply sublist_filter].
  - intros s document ranges. unfold clangdProvideFoldingRanges.
    destruct (decide (hideIfdefMode s = visible)); [reflexivity|].
    apply list_filter_filter_l. auto.
Qed.

Lemma clangd_ranges_lose_directive_starts_witness :
  let document := scenarioDocument (utf16 "/a.c") in
  let s := exampleState in
  let ranges := [FoldingRange.mk 0 1 Region; FoldingRange.mk 1 3 Region;
                 FoldingRange.mk 2 3 Region; FoldingRange.mk 7 9 Region] in
  FoldingRange.mk 7 9 Region ∈ clangdProvideFoldingRanges s document (Some ranges)
  <-> FoldingRange.mk 7 9 Region ∈ ranges
      /\ ~ (7 < lineCount document
            /\ test PREPROCESSOR_REGEX (text (lineAt document 7)) = true).
Proof.
  intros document s ranges.
  apply (proj1 (proj2 (proj2 clangd_ranges_lose_directive_starts))
           s document ranges (FoldingRange.mk 7 9 Region)).
  discriminate.
Defined.

Example clangd_filter_example :
  clangdProvideFoldingRanges exampleState (scenarioDocument (utf16 "/a.c"))
    (Some [FoldingRange.mk 0 1 Region; FoldingRange.mk 1 3 Region;
           FoldingRange.mk 2 3 Region; FoldingRange.mk 7 9 Region])
  = [FoldingRange.mk 1 3 Region; FoldingRange.mk 7 9 Region].
Proof. vm_compute. reflexivity. Qed.

(** ** The handlers, further *)

Section FurtherProperties.

Variable toLowerCase : JSString -> JSString.
Variable parseFsPath : JSString -> JSString.
Variable number : Type.
Variable toString : number -> JSString.

Local Abbreviation docKeyIn params := (receivedDocKey toLowerCase parseFsPath params).
Local Abbreviation decorateOne host :=
  (fun editor : TextEditor =>
     getDecoration toString host
       ≫= fun d => updateEditorDecoration toLowerCase editor d).

(** After [getDecoration] the style it returned is the recorded one, and a
    second call finds it. *)
Lemma getDecoration_settles (host : Host number) s :
  lastDecoration (stateOf (getDecoration toString host s))
  = Some (valueOf (getDecoration toString host s))
  /\ getDecoration toString host (stateOf (getDecoration toString host s))
     = (valueOf (getDecoration toString host s),
        stateOf (getDecoration toString host s), []).
Proof.
  rewrite (getDecoration_run number toString host s). cbv zeta.
  destruct (lastDecoration s) as [d|] eqn:Ed.
  - destruct (decide (lastOpacity s = _)) as [E | E]; simpl.
    + split; [exact Ed|]. rewrite getDecoration_run. cbv zeta. rewrite Ed.
      rewrite decide_True by exact E. reflexivity.
    + split; [reflexivity|]. rewrite getDecoration_run. cbv zeta. simpl.
      rewrite decide_True by reflexivity. reflexivity.
  - simpl. split; [reflexivity|]. rewrite getDecoration_run. cbv zeta. simpl.
    rewrite decide_True by reflexivity. reflexivity.
Qed.

(** [getDecoration] looks at the style variables and the mode only. *)
Lemma getDecoration_withRegions (host : Host number) s m :
  getDecoration toString host (withRegions s m)
  = (valueOf (getDecoration toString host s),
     withRegions (stateOf (getDecoration toString host s)) m,
     traceOf (getDecoration toString host s)).
Proof.
  rewrite !getDecoration_run. cbv zeta. simpl.
  destruct (lastDecoration s) as [d|]; [|reflexivity].
  destruct (decide (lastOpacity s = _)); reflexivity.
Qed.

Lemma decorationsOf_app t1 t2 :
  decorationsOf (t1 ++ t2) = decorationsOf t1 ++ decorationsOf t2.
Proof. unfold decorationsOf. apply flat_map_app. Qed.

Lemma decorationsOf_updateEditorDecoration editor d s :
  decorationsOf (traceOf (updateEditorDecoration toLowerCase editor d s))
  = decorationOf toLowerCase (hideIfdefMode s) (inactiveRegionsMap s) d editor.
Proof.
  rewrite updateEditorDecoration_run. unfold decorationOf. simpl.
  destruct (unsupported (document editor)); reflexivity.
Qed.

Lemma decorationsOf_getDecoration (host : Host number) s :
  decorationsOf (traceOf (getDecoration toString host s)) = [].
Proof.
  rewrite getDecoration_run. cbv zeta. destruct (lastDecoration s); [|reflexivity].
  destruct (decide (lastOpacity s = _)); reflexivity.
Qed.

(** The loop [affectedEditors.forEach(editor => updateEditorDecoration(editor,
    getDecoration()))]: the first turn settles the style, every turn
    decorates with it. *)
Lemma decorateLoop_run (host : Host number) l s :
  let g := getDecoration toString host s in
  forEach l (decorateOne host) s
  = match l with
    | [] => (tt, s, [])
    | _ :: _ =>
        (tt, stateOf g,
         traceOf g
         ++ flat_map
              (fun editor =>
                 traceOf (updateEditorDecoration toLowerCase editor (valueOf g)
                            (stateOf g)))
              l)
    end.
Proof.
  intros g. destruct l as [|x l]; [reflexivity|].
  assert (Hsettled : forall l',
             forEach l' (decorateOne host) (stateOf g)
             = (tt, stateOf g,
                flat_map
                  (fun editor =>
                     traceOf (updateEditorDecoration toLowerCase editor (valueOf g)
                                (stateOf g)))
                  l')).
  { induction l' as [|y l' IH]; [reflexivity|].
    cbn [forEach]. rewrite run_bind. rewrite (run_bind (getDecoration toString host)).
    destruct (getDecoration_settles host s) as [_ Hagain]. fold g in Hagain.
    rewrite Hagain. cbn [valueOf stateOf traceOf fst snd].
    rewrite updateEditorDecoration_run. cbn [valueOf stateOf traceOf fst snd].
    rewrite IH. cbn [valueOf stateOf traceOf fst snd app flat_map].
    rewrite updateEditorDecoration_run. reflexivity. }
  cbn [forEach]. rewrite run_bind. rewrite (run_bind (getDecoration toString host)).
  fold g. rewrite updateEditorDecoration_run. cbn [valueOf stateOf traceOf fst snd].
  rewrite Hsettled. cbn [valueOf stateOf traceOf fst snd flat_map].
  rewrite updateEditorDecoration_run. cbn [traceOf snd]. rewrite <- app_assoc.
  reflexivity.
Qed.

(** X9.  Called again at once, [getDecoration] returns the style it has just
    returned, does nothing and changes nothing, so a run of redecorations
    creates at most one style; and, [$lastOpacity] being the last style's
    opacity, the style it returns has the opacity that the mode asks for. *)
Theorem getDecoration_settles_the_style (host : Host number) :
  (forall s,
      getDecoration toString host (stateOf (getDecoration toString host s))
      = (valueOf (getDecoration toString host s),
         stateOf (getDecoration toString host s), []))
  /\ (forall s,
         lastDecoration (stateOf (getDecoration toString host s))
         = Some (valueOf (getDecoration toString host s)))
  /\ (forall s,
         styleRecorded s ->
         opacity (valueOf (getDecoration toString host s))
         = styleOpacity toString host (hideIfdefMode s)).
Proof.
  split; [intros s; apply getDecoration_settles|].
  split; [intros s; apply getDecoration_settles|].
  intros s Hs. rewrite getDecoration_run. cbv zeta.
  assert (Htarget : targetOpacityOf toString host (hideIfdefMode s)
                    = styleOpacity toString host (hideIfdefMode s))
    by (destruct (hideIfdefMode s); reflexivity).
  destruct (lastDecoration s) as [d|] eqn:Ed; [|simpl; exact Htarget].
  destruct (decide (lastOpacity s = _)) as [E | E]; simpl; [|exact Htarget].
  rewrite (Hs d Ed), E. exact Htarget.
Qed.

Lemma decorationsOf_quiet t :
  Forall (fun e => isDecorationEffect e = false) t -> decorationsOf t = [].
Proof.
  induction 1 as [|e t He _ IH]; [reflexivity|].
  unfold decorationsOf in *. simpl. rewrite IH.
  destruct e; simpl in He; try discriminate; reflexivity.
Qed.

Lemma unfoldTrace_quiet m docKey editor :
  Forall (fun e => isDecorationEffect e = false) (unfoldTrace m docKey editor).
Proof. unfold unfoldTrace. destruct (0 <? _); repeat constructor. Qed.

Lemma foldTrace_quiet inactiveRanges editor :
  Forall (fun e => isDecorationEffect e = false) (foldTrace inactiveRanges editor).
Proof.
  unfold foldTrace. destruct (unsupported _); [constructor|].
  destruct (_ =? 0); repeat constructor.
Qed.

Lemma decorationsOf_flat_map_quiet {A : Type} (f : A -> list Effect) l :
  (forall x, Forall (fun e => isDecorationEffect e = false) (f x)) ->
  decorationsOf (flat_map f l) = [].
Proof.
  intros Hf. apply decorationsOf_quiet, Forall_flat_map, Forall_forall.
  intros x _. apply Hf.
Qed.

(** The notification handler, with its decoration loop spelled out. *)
Lemma onInactiveRegions_exact (host : Host number) params s :
  let affected := affectedEditorsOf toLowerCase parseFsPath host params in
  let s2 := withRegions s (Map_set (inactiveRegionsMap s) (docKeyIn params)
                             (receivedRegions params)) in
  let loop := forEach affected (decorateOne host) s2 in
  onInactiveRegions toLowerCase parseFsPath toString host params s
  = (tt, stateOf loop,
     (if decide (hideIfdefMode s = hiddenFolded)
      then flat_map (unfoldTrace (inactiveRegionsMap s) (docKeyIn params)) affected
      else [])
     ++ InactiveRegionsSet (docKeyIn params) (receivedRegions params)
        :: FoldingChangeFire
        :: traceOf loop
        ++ (if decide (hideIfdefMode s = hiddenFolded)
            then flat_map (foldTrace (receivedRegions params)) affected
            else [])).
Proof.
  intros affected s2 loop. subst loop. unfold onInactiveRegions.
  fold (docKeyIn params) (receivedRegions params) affected.
  set (unfoldLoop := forEach _ (unfoldHiddenRanges _)).
  set (decorateLoop := forEach _ (fun editor => _ ≫= _)).
  set (foldLoop := forEach _ (autoFoldHiddenRanges _)).
  assert (Hunfold : forall s0, unfoldLoop s0
            = (tt, s0, flat_map (unfoldTrace (inactiveRegionsMap s0) (docKeyIn params))
                         affected)).
  { apply (forEach_readonly _ (fun s0 => unfoldTrace (inactiveRegionsMap s0) _)).
    intros; apply unfoldHiddenRanges_run. }
  assert (Hfold : forall s0, foldLoop s0
            = (tt, s0, flat_map
                         (fun editor =>
                            if decide (hideIfdefMode s0 = hiddenFolded)
                            then foldTrace
                                   (Map_get_or_empty (inactiveRegionsMap s0)
                                      (docKeyOf toLowerCase (document editor)))
                                   editor
                            else [])
                         affected)).
  { apply (forEach_readonly _
             (fun s0 editor =>
                if decide (hideIfdefMode s0 = hiddenFolded)
                then foldTrace
                       (Map_get_or_empty (inactiveRegionsMap s0)
                          (docKeyOf toLowerCase (document editor))) editor
                else [])).
    intros; apply autoFoldHiddenRanges_run. }
  assert (Hdecorate : decorates decorateLoop).
  { apply decorates_forEach. intros editor.
    apply decorates_bind; [apply decorates_getDecoration|].
    intros d. apply decorates_updateEditorDecoration. }
  clearbody unfoldLoop decorateLoop foldLoop.
  specialize (Hdecorate s2).
  destruct (decorateLoop s2) as [[[] s3] decorate] eqn:Edecorate.
  simpl in Hdecorate. destruct Hdecorate as ([Hmap Hmode] & _ & _).
  cbv [mbind M_bind getState putState emit mret M_ret].
  assert (Hfirst : (if decide (hideIfdefMode s = hiddenFolded)
                    then unfoldLoop else (fun s0 => (tt, s0, []))) s
                   = (tt, s, if decide (hideIfdefMode s = hiddenFolded)
                             then flat_map (unfoldTrace (inactiveRegionsMap s)
                                              (docKeyIn params)) affected
                             else [])).
  { destruct (decide (hideIfdefMode s = hiddenFolded)); [apply Hunfold | reflexivity]. }
  rewrite Hfirst. fold s2. rewrite Edecorate, Hfold.
  rewrite Hmode. simpl hideIfdefMode.
  cbn [app stateOf traceOf fst snd]. do 5 f_equal.
  destruct (decide (hideIfdefMode s = hiddenFolded)).
  - apply flat_map_ext_elem. intros editor Hin.
    unfold affected, affectedEditorsOf in Hin.
    apply list_elem_of_filter in Hin as [Hkey _].
    rewrite Hkey, Hmap. unfold s2, Map_get_or_empty, Map_set. simpl.
    rewrite lookup_insert_eq. reflexivity.
  - apply flat_map_nil.
Qed.

Lemma decorationsOf_flat_map {A : Type} (f : A -> list Effect) l :
  decorationsOf (flat_map f l) = flat_map (fun x => decorationsOf (f x)) l.
Proof.
  induction l as [|x l IH]; [reflexivity|].
  simpl. rewrite decorationsOf_app, IH. reflexivity.
Qed.

Lemma decorationsOf_decorateLoop (host : Host number) l s :
  decorationsOf (traceOf (forEach l (decorateOne host) s))
  = flat_map
      (decorationOf toLowerCase (hideIfdefMode s) (inactiveRegionsMap s)
         (valueOf (getDecoration toString host s)))
      l.
Proof.
  rewrite decorateLoop_run. destruct l as [|x l]; [reflexivity|].
  cbn [traceOf snd]. rewrite decorationsOf_app, decorationsOf_getDecoration.
  rewrite decorationsOf_flat_map. cbn [app].
  destruct (decorates_getDecoration number toString host s) as ([Hmap Hmode] & _).
  apply flat_map_ext. intros editor.
  rewrite decorationsOf_updateEditorDecoration, Hmap, Hmode. reflexivity.
Qed.

(** X10.  A notification redecorates each affected editor of a supported
    document exactly once, in the order of the visible editors, all with the
    one current style, and with the regions it has just received (followed,
    outside [visible] mode, by the directive lines); it decorates no other
    editor. *)
Theorem notification_redecorates_with_received_regions
  (host : Host number) params s :
  decorationsOf
    (traceOf (onInactiveRegions toLowerCase parseFsPath toString host params s))
  = flat_map
      (fun editor =>
         if unsupported (document editor) then []
         else [(editorId editor,
                valueOf (getDecoration toString host s),
                decorationRanges (hideIfdefMode s) (receivedRegions params)
                  (preprocessorRangesOf (document editor)))])
      (affectedEditorsOf toLowerCase parseFsPath host params).
Proof.
  rewrite onInactiveRegions_exact. cbv zeta. cbn [traceOf snd].
  rewrite decorationsOf_app.
  change (?a :: ?b :: ?t) with ([a; b] ++ t).
  rewrite decorationsOf_app, decorationsOf_app.
  rewrite decorationsOf_decorateLoop.
  assert (Hu : decorationsOf
                 (if decide (hideIfdefMode s = hiddenFolded)
                  then flat_map (unfoldTrace (inactiveRegionsMap s) (docKeyIn params))
                         (affectedEditorsOf toLowerCase parseFsPath host params)
                  else []) = []).
  { destruct (decide _); [|reflexivity].
    apply decorationsOf_flat_map_quiet. intros x. apply unfoldTrace_quiet. }
  assert (Hf : decorationsOf
                 (if decide (hideIfdefMode s = hiddenFolded)
                  then flat_map (foldTrace (receivedRegions params))
                         (affectedEditorsOf toLowerCase parseFsPath host params)
                  else []) = []).
  { destruct (decide _); [|reflexivity].
    apply decorationsOf_flat_map_quiet. intros x. apply foldTrace_quiet. }
  rewrite Hu, Hf, app_nil_r. cbn [app decorationsOf flat_map].
  rewrite getDecoration_withRegions. cbn [valueOf fst hideIfdefMode withRegions
                                            inactiveRegionsMap].
  apply flat_map_ext_elem. intros editor Hin.
  unfold affectedEditorsOf in Hin. apply list_elem_of_filter in Hin as [Hkey _].
  unfold decorationOf. rewrite Hkey. unfold Map_get_or_empty, Map_set.
  rewrite lookup_insert_eq. reflexivity.
Qed.

(** X11.  Outside [hiddenFolded] mode a notification neither folds nor
    unfolds: it writes the cache, fires the change signal and redecorates. *)
Theorem notification_outside_hiddenFolded_only_redecorates
  (host : Host number) params s :
  hideIfdefMode s <> hiddenFolded ->
  exists decorate,
    traceOf (onInactiveRegions toLowerCase parseFsPath toString host params s)
    = InactiveRegionsSet (docKeyIn params) (receivedRegions params)
      :: FoldingChangeFire :: decorate
    /\ Forall (fun e => isDecorationEffect e = true) decorate.
Proof.
  intros Hmode.
  destruct (onInactiveRegions_run toLowerCase parseFsPath number toString host params s)
    as (s' & decorate & Hrun & _ & Hdec & _).
  rewrite Hrun. rewrite !decide_False by exact Hmode.
  exists decorate. cbn [traceOf snd app]. rewrite app_nil_r. auto.
Qed.

Lemma updateActiveEditor_run (host : Host number) s :
  let g := getDecoration toString host s in
  updateActiveEditor toLowerCase toString host s
  = (tt, stateOf g,
     traceOf g
     ++ flat_map
          (fun editor =>
             traceOf (updateEditorDecoration toLowerCase editor (valueOf g) (stateOf g)))
          (editorsInTurn host)).
Proof.
  intros g. unfold updateActiveEditor, editorsInTurn. rewrite run_bind. fold g.
  rewrite run_bind.
  assert (Hactive : forall s0,
             (match activeTextEditor host with
              | Some a => updateEditorDecoration toLowerCase a (valueOf g)
              | None => mret tt
              end) s0
             = (tt, s0,
                flat_map
                  (fun editor =>
                     traceOf (updateEditorDecoration toLowerCase editor (valueOf g) s0))
                  (option_list (activeTextEditor host)))).
  { intros s0. destruct (activeTextEditor host) as [a|]; [|reflexivity].
    simpl. rewrite app_nil_r, updateEditorDecoration_run. reflexivity. }
  rewrite Hactive. cbn [valueOf stateOf traceOf fst snd].
  rewrite (forEach_readonly _
             (fun s0 editor =>
                traceOf (updateEditorDecoration toLowerCase editor (valueOf g) s0)))
    by (intros; rewrite updateEditorDecoration_run; reflexivity).
  cbn [valueOf stateOf traceOf fst snd]. rewrite flat_map_app. reflexivity.
Qed.

Lemma editorsInTurn_NoDup (host : Host number) :
  NoDup (editorId <$> visibleTextEditors host) ->
  NoDup (editorId <$> editorsInTurn host).
Proof.
  intros Hnd. unfold editorsInTurn. rewrite fmap_app.
  assert (Hrest : NoDup (editorId <$> filter
                           (fun e => Some (editorId e)
                                     <> editorId <$> activeTextEditor host)
                           (visibleTextEditors host))).
  { eapply sublist_NoDup; [exact Hnd|]. apply fmap_sublist, sublist_filter. }
  destruct (activeTextEditor host) as [a|]; simpl; [|exact Hrest].
  apply NoDup_cons. split; [|exact Hrest].
  intros Hin. apply list_elem_of_fmap in Hin as (e & He & Hin).
  apply list_elem_of_filter in Hin as [Hne _]. apply Hne. rewrite He. reflexivity.
Qed.

Lemma decorationOf_ids mode m d l :
  (flat_map (decorationOf toLowerCase mode m d) l).*1.*1
  `sublist_of` editorId <$> l.
Proof.
  induction l as [|e l IH]; [constructor|].
  simpl. unfold decorationOf at 1. destruct (unsupported (document e)); simpl.
  - apply sublist_cons, IH.
  - apply sublist_skip, IH.
Qed.

(** X12.  [updateActiveEditor] decorates the active editor first and then
    the other visible editors, each editor of a supported document once, all
    with the style that [getDecoration] returns and with the cached regions
    of the editor's document; when the visible editors are distinct, no
    editor is decorated twice, the active one included. *)
Theorem updateActiveEditor_decorates_each_editor_once (host : Host number) s :
  decorationsOf (traceOf (updateActiveEditor toLowerCase toString host s))
  = flat_map
      (decorationOf toLowerCase (hideIfdefMode s) (inactiveRegionsMap s)
         (valueOf (getDecoration toString host s)))
      (editorsInTurn host)
  /\ (NoDup (editorId <$> visibleTextEditors host) ->
      NoDup (decorationsOf
               (traceOf (updateActiveEditor toLowerCase toString host s))).*1.*1).
Proof.
  assert (Heq : decorationsOf (traceOf (updateActiveEditor toLowerCase toString host s))
                = flat_map
                    (decorationOf toLowerCase (hideIfdefMode s) (inactiveRegionsMap s)
                       (valueOf (getDecoration toString host s)))
                    (editorsInTurn host)).
  { rewrite updateActiveEditor_run. cbv zeta. cbn [traceOf snd].
    rewrite decorationsOf_app, decorationsOf_getDecoration, decorationsOf_flat_map.
    cbn [app].
    destruct (decorates_getDecoration number toString host s) as ([Hmap Hmode] & _).
    apply flat_map_ext. intros editor.
    rewrite decorationsOf_updateEditorDecoration, Hmap, Hmode. reflexivity. }
  split; [exact Heq|]. intros Hnd. rewrite Heq.
  eapply sublist_NoDup; [apply editorsInTurn_NoDup, Hnd | apply decorationOf_ids].
Qed.

(** ** The life of the decoration style *)

Lemma stylesAfter_app live t1 t2 :
  stylesAfter live (t1 ++ t2) = stylesAfter live t1 ≫= fun live' => stylesAfter live' t2.
Proof.
  revert live. induction t1 as [|e t1 IH]; intros live; [reflexivity|].
  simpl. destruct (stylesStep live e) as [live'|]; [apply IH | reflexivity].
Qed.

Lemma stylesAfter_quiet live t :
  Forall (fun e => isDecorationEffect e = false) t -> stylesAfter live t = Some live.
Proof.
  induction 1 as [|e t He _ IH]; [reflexivity|].
  simpl. destruct e; simpl in He; try discriminate; exact IH.
Qed.

Lemma keepsStyles_bind {A B : Type} (m : M A) (f : A -> M B) s :
  keepsStyles m s ->
  keepsStyles (f (valueOf (m s))) (stateOf (m s)) ->
  keepsStyles (m ≫= f) s.
Proof.
  unfold keepsStyles. intros Hm Hf. rewrite run_bind. cbn [traceOf stateOf fst snd].
  rewrite stylesAfter_app, Hm. exact Hf.
Qed.

(** A step that leaves the style variables alone and touches no style. *)
Lemma keepsStyles_quiet {A : Type} (m : M A) s :
  lastDecoration (stateOf (m s)) = lastDecoration s ->
  Forall (fun e => isDecorationEffect e = false) (traceOf (m s)) ->
  keepsStyles m s.
Proof. unfold keepsStyles. intros -> Ht. apply stylesAfter_quiet, Ht. Qed.

Lemma keepsStyles_forEach {A : Type} (body : A -> M unit) l :
  (forall x s, keepsStyles (body x) s) -> forall s, keepsStyles (forEach l body) s.
Proof.
  intros Hbody. induction l as [|x l IH]; intros s.
  - apply keepsStyles_quiet; [reflexivity | constructor].
  - cbn [forEach]. apply keepsStyles_bind; [apply Hbody | apply IH].
Qed.

Lemma keepsStyles_getDecoration (host : Host number) s :
  keepsStyles (getDecoration toString host) s.
Proof.
  unfold keepsStyles. rewrite getDecoration_run. cbv zeta.
  destruct (lastDecoration s) as [d|] eqn:Hlast; [|reflexivity].
  destruct (decide (lastOpacity s = _));
    [cbn [traceOf stateOf fst snd]; rewrite Hlast; reflexivity|].
  cbn [traceOf stateOf fst snd option_list stylesAfter stylesStep].
  rewrite decide_True by apply list_elem_of_here.
  cbn [mbind option_bind]. change (option_list (Some d)) with [d].
  rewrite filter_cons, decide_False by auto. reflexivity.
Qed.

Lemma keepsStyles_updateEditorDecoration editor d s :
  lastDecoration s = Some d ->
  keepsStyles (updateEditorDecoration toLowerCase editor d) s.
Proof.
  intros Hd. unfold keepsStyles. rewrite updateEditorDecoration_run.
  cbn [traceOf stateOf fst snd]. rewrite Hd.
  destruct (unsupported (document editor)); [reflexivity|].
  cbn [option_list stylesAfter stylesStep].
  rewrite decide_True by apply list_elem_of_here. reflexivity.
Qed.

Lemma keepsStyles_unfoldHiddenRanges docKey editor s :
  keepsStyles (unfoldHiddenRanges docKey editor) s.
Proof.
  apply keepsStyles_quiet; rewrite unfoldHiddenRanges_run;
    [reflexivity | apply unfoldTrace_quiet].
Qed.

Lemma keepsStyles_autoFoldHiddenRanges editor s :
  keepsStyles (autoFoldHiddenRanges toLowerCase editor) s.
Proof.
  apply keepsStyles_quiet; rewrite autoFoldHiddenRanges_run; [reflexivity|].
  cbn [traceOf snd]. destruct (decide _); [apply foldTrace_quiet | constructor].
Qed.

Lemma keepsStyles_decorateOne (host : Host number) editor s :
  keepsStyles (decorateOne host editor) s.
Proof.
  apply keepsStyles_bind; [apply keepsStyles_getDecoration|].
  apply keepsStyles_updateEditorDecoration, getDecoration_settles.
Qed.

Lemma keepsStyles_updateActiveEditor (host : Host number) s :
  keepsStyles (updateActiveEditor toLowerCase toString host) s.
Proof.
  unfold updateActiveEditor.
  apply keepsStyles_bind; [apply keepsStyles_getDecoration|].
  pose proof (proj1 (getDecoration_settles host s)) as Hlive.
  set (d := valueOf (getDecoration toString host s)) in *.
  set (s1 := stateOf (getDecoration toString host s)) in *.
  apply keepsStyles_bind.
  - destruct (activeTextEditor host);
      [apply keepsStyles_updateEditorDecoration, Hlive
      | apply keepsStyles_quiet; [reflexivity | constructor]].
  - assert (Hsame : stateOf ((match activeTextEditor host with
                              | Some a => updateEditorDecoration toLowerCase a d
                              | None => mret tt
                              end) s1) = s1).
    { destruct (activeTextEditor host); [|reflexivity].
      rewrite updateEditorDecoration_run. reflexivity. }
    rewrite Hsame.
    unfold keepsStyles.
    rewrite (forEach_readonly _
               (fun s0 editor =>
                  traceOf (updateEditorDecoration toLowerCase editor d s0)))
      by (intros; rewrite updateEditorDecoration_run; reflexivity).
    cbn [traceOf stateOf fst snd]. rewrite Hlive.
    induction (filter _ (visibleTextEditors host)) as [|e l IH]; [reflexivity|].
    cbn [flat_map]. rewrite stylesAfter_app.
    pose proof (keepsStyles_updateEditorDecoration e d s1 Hlive) as He.
    unfold keepsStyles in He. rewrite updateEditorDecoration_run in He.
    cbn [traceOf stateOf fst snd] in He. rewrite Hlive in He.
    rewrite updateEditorDecoration_run. cbn [traceOf snd]. rewrite He. exact IH.
Qed.

Lemma keepsStyles_onInactiveRegions (host : Host number) params s :
  keepsStyles (onInactiveRegions toLowerCase parseFsPath toString host params) s.
Proof.
  unfold keepsStyles. rewrite onInactiveRegions_exact. cbv zeta.
  cbn [traceOf stateOf fst snd].
  set (s2 := withRegions s _).
  pose proof (keepsStyles_forEach (decorateOne host)
                (affectedEditorsOf toLowerCase parseFsPath host params)
                (keepsStyles_decorateOne host) s2) as Hloop.
  unfold keepsStyles in Hloop. change (lastDecoration s2) with (lastDecoration s) in Hloop.
  rewrite stylesAfter_app.
  rewrite (stylesAfter_quiet _ (if decide (hideIfdefMode s = hiddenFolded) then _ else _)).
  - cbn [mbind option_bind stylesAfter stylesStep]. rewrite stylesAfter_app, Hloop.
    cbn [mbind option_bind]. apply stylesAfter_quiet.
    destruct (decide _); [|constructor].
    apply Forall_flat_map, Forall_forall. intros x _. apply foldTrace_quiet.
  - destruct (decide _); [|constructor].
    apply Forall_flat_map, Forall_forall. intros x _. apply unfoldTrace_quiet.
Qed.

Lemma keepsStyles_mret {A : Type} (a : A) s : keepsStyles (mret a) s.
Proof. apply keepsStyles_quiet; [reflexivity | constructor]. Qed.

Lemma keepsStyles_getState_bind {B : Type} (f : State -> M B) s :
  keepsStyles (f s) s -> keepsStyles (getState ≫= f) s.
Proof. intros Hf. apply keepsStyles_bind; [apply keepsStyles_mret | exact Hf]. Qed.

Lemma keepsStyles_putState_bind {B : Type} (f : unit -> M B) s' s :
  lastDecoration s' = lastDecoration s ->
  keepsStyles (f tt) s' -> keepsStyles (putState s' ≫= f) s.
Proof.
  intros Hsame Hf. apply keepsStyles_bind; [|exact Hf].
  unfold keepsStyles. cbn. rewrite Hsame. reflexivity.
Qed.

Lemma keepsStyles_emit e s :
  isDecorationEffect e = false -> keepsStyles (emit e) s.
Proof. intros He. apply keepsStyles_quiet; [reflexivity | repeat constructor; exact He]. Qed.

Lemma keepsStyles_emit_bind {B : Type} (f : unit -> M B) e s :
  isDecorationEffect e = false ->
  keepsStyles (f tt) s -> keepsStyles (emit e ≫= f) s.
Proof.
  intros He Hf. apply keepsStyles_bind; [apply keepsStyles_emit, He | exact Hf].
Qed.

Lemma keepsStyles_toggleCommand (host : Host number) s :
  keepsStyles (toggleCommand toLowerCase toString host) s.
Proof.
  unfold toggleCommand.
  apply keepsStyles_getState_bind. cbv zeta.
  apply keepsStyles_putState_bind; [reflexivity|].
  do 3 (apply keepsStyles_emit_bind; [reflexivity|]).
  apply keepsStyles_bind; [apply keepsStyles_updateActiveEditor|]. cbv beta.
  apply keepsStyles_getState_bind.
  apply keepsStyles_bind.
  - destruct (decide _); [|apply keepsStyles_mret].
    apply keepsStyles_forEach. intros. apply keepsStyles_unfoldHiddenRanges.
  - cbv beta. apply keepsStyles_getState_bind.
    destruct (decide _); [|apply keepsStyles_mret].
    apply keepsStyles_forEach. intros. apply keepsStyles_autoFoldHiddenRanges.
Qed.

Lemma keepsStyles_handle (host : Host number) e s :
  keepsStyles (handle toLowerCase parseFsPath toString host e) s.
Proof.
  destruct e as [params| |ofActiveDocument|editor|affectsIfdef]; cbn [handle].
  - apply keepsStyles_onInactiveRegions.
  - apply keepsStyles_toggleCommand.
  - unfold onDidChangeTextDocument.
    destruct (activeTextEditor host) as [active|]; [|apply keepsStyles_mret].
    destruct ofActiveDocument; [|apply keepsStyles_mret].
    apply keepsStyles_decorateOne.
  - unfold onDidChangeActiveTextEditor.
    destruct editor as [editor|]; [|apply keepsStyles_mret].
    apply keepsStyles_bind; [apply keepsStyles_getDecoration|].
    apply keepsStyles_bind;
      [apply keepsStyles_updateEditorDecoration, getDecoration_settles|].
    apply keepsStyles_autoFoldHiddenRanges.
  - unfold onDidChangeConfiguration.
    apply keepsStyles_bind.
    + destruct affectsIfdef;
        [apply keepsStyles_updateActiveEditor | apply keepsStyles_mret].
    + cbv beta. apply keepsStyles_getState_bind. apply keepsStyles_emit. reflexivity.
Qed.

Lemma keepsStyles_initializeHideIfdefSetting storedMode configuredMode s :
  keepsStyles (initializeHideIfdefSetting storedMode configuredMode) s.
Proof.
  unfold initializeHideIfdefSetting.
  destruct (storedMode ≫= modeOfName) as [mode|];
    apply keepsStyles_getState_bind; cbv zeta.
  - unfold keepsStyles. reflexivity.
  - apply keepsStyles_putState_bind; [reflexivity|].
    apply keepsStyles_emit. reflexivity.
Qed.

Lemma keepsStyles_activateIfDefHider (host : Host number) storedMode configuredMode s :
  keepsStyles (activateIfDefHider toLowerCase toString host storedMode configuredMode) s.
Proof.
  unfold activateIfDefHider.
  apply keepsStyles_bind; [apply keepsStyles_initializeHideIfdefSetting|]. cbv beta.
  apply keepsStyles_getState_bind.
  apply keepsStyles_emit_bind; [reflexivity|].
  apply keepsStyles_bind; [apply keepsStyles_updateActiveEditor|]. cbv beta.
  apply keepsStyles_forEach. intros. apply keepsStyles_autoFoldHiddenRanges.
Qed.

Lemma keepsStyles_handleAll events s :
  keepsStyles (handleAll toLowerCase parseFsPath toString events) s.
Proof.
  unfold handleAll. apply keepsStyles_forEach. intros. apply keepsStyles_handle.
Qed.

(** When the extension is deactivated the last style, if there is one, is
    disposed of and forgotten. *)
Lemma deactivateIfDefHider_styles s :
  stylesAfter (option_list (lastDecoration s)) (traceOf (deactivateIfDefHider s))
  = Some []
  /\ lastDecoration (stateOf (deactivateIfDefHider s)) = None.
Proof.
  unfold deactivateIfDefHider.
  destruct (lastDecoration s) as [d|] eqn:Hlast.
  - cbv [mbind M_bind getState putState emit mret M_ret]. rewrite Hlast.
    cbn [traceOf stateOf fst snd app option_list stylesAfter stylesStep].
    rewrite decide_True by apply list_elem_of_here.
    cbn [mbind option_bind]. change (option_list (Some d)) with [d].
    rewrite filter_cons, decide_False by auto. split; reflexivity.
  - cbv [mbind M_bind getState putState emit mret M_ret]. rewrite Hlast.
    split; reflexivity.
Qed.

(** X13. In a session (the activation, then any events, each handled to its
    end before the next, each with any host) the decoration styles are used
    soundly: a style is disposed of, or set on an editor, only while it is
    alive (created and not yet disposed of), and at the end of the session
    the only style alive is the one the module remembers, if any. When the
    extension is then deactivated, no style is left alive. *)
Theorem session_uses_styles_soundly (host : Host number) storedMode configuredMode
    events :
  let session :=
    activateIfDefHider toLowerCase toString host storedMode configuredMode;;
    handleAll toLowerCase parseFsPath toString events in
  stylesAfter [] (traceOf (session initialState))
  = Some (option_list (lastDecoration (stateOf (session initialState))))
  /\ length (option_list (lastDecoration (stateOf (session initialState)))) <= 1
  /\ stylesAfter [] (traceOf ((session;; deactivateIfDefHider) initialState))
     = Some [].
Proof.
  intros session.
  assert (Hsession : keepsStyles session initialState).
  { apply keepsStyles_bind;
      [apply keepsStyles_activateIfDefHider | apply keepsStyles_handleAll]. }
  split; [exact Hsession|]. split.
  - destruct (lastDecoration _); simpl; lia.
  - rewrite run_bind. cbn [traceOf snd]. rewrite stylesAfter_app.
    unfold keepsStyles in Hsession.
    change (option_list (lastDecoration initialState)) with (@nil TextEditorDecorationType)
      in Hsession.
    rewrite Hsession. cbn [mbind option_bind].
    apply deactivateIfDefHider_styles.
Qed.

(** ** The toggle command and the fold commands *)

(** X14. The toggle command folds exactly when it enters [hiddenFolded]:
    from [hidden] its trace ends, after the bookkeeping and the decorations,
    with the fold commands of the visible editors, and every visible
    supported editor for which the folding provider then has ranges is
    folded at the start lines of those ranges; from any other mode the
    command folds nothing. *)
Theorem toggle_folds_only_when_entering_hiddenFolded (host : Host number) :
  (forall s,
      hideIfdefMode s = hidden ->
      exists decorate,
        traceOf (toggleCommand toLowerCase toString host s)
        = WorkspaceStateUpdate hiddenFolded :: FoldingChangeFire
          :: StatusBarAssign hiddenFolded
          :: decorate ++ toggleFolds toLowerCase host s
        /\ Forall (fun e => isDecorationEffect e = true) decorate
        /\ hideIfdefMode (stateOf (toggleCommand toLowerCase toString host s))
           = hiddenFolded
        /\ forall editor,
             editor ∈ visibleTextEditors host ->
             unsupported (document editor) = false ->
             let blocks :=
               provideFoldingRanges toLowerCase
                 (stateOf (toggleCommand toLowerCase toString host s))
                 (document editor) in
             blocks <> [] ->
             EditorFold (map FoldingRange.start blocks) 1
               ∈ traceOf (toggleCommand toLowerCase toString host s))
  /\ (forall s,
         hideIfdefMode s <> hidden ->
         Forall (fun e => isFold e = false)
           (traceOf (toggleCommand toLowerCase toString host s))).
Proof.
  split; intros s Hmode;
    destruct (toggleCommand_run toLowerCase number toString host s)
      as (s' & decorate & Hrun & Hs' & Hdec & _);
    rewrite Hrun; cbn [traceOf stateOf fst snd].
  - rewrite Hmode. change (nextMode hidden) with hiddenFolded.
    rewrite decide_False by (intros [E _]; discriminate).
    rewrite decide_True by reflexivity. cbn [app].
    destruct Hs' as [Hmap Hm]. cbn in Hmap, Hm. rewrite Hmode in Hm.
    exists decorate. split; [reflexivity|]. split; [exact Hdec|].
    split; [exact Hm|].
    intros editor Hed Hsup Hblocks.
    do 3 apply list_elem_of_further. apply elem_of_app. right.
    unfold toggleFolds. apply list_elem_of_In, in_flat_map.
    exists editor. split; [apply list_elem_of_In, Hed|]. apply list_elem_of_In.
    unfold provideFoldingRanges in *.
    rewrite decide_False in * by (rewrite Hm; discriminate).
    rewrite Hmap in *. unfold foldTrace. rewrite Hsup. cbv zeta.
    destruct (collectHiddenFoldingRanges _ _) as [|b blocks]; [congruence|].
    cbn [length Nat.eqb]. apply list_elem_of_further, list_elem_of_here.
  - assert (Hnext : nextMode (hideIfdefMode s) <> hiddenFolded).
    { destruct (hideIfdefMode s); [discriminate | congruence | discriminate]. }
    rewrite (decide_False (P := nextMode (hideIfdefMode s) = hiddenFolded)) by exact Hnext.
    rewrite app_nil_r.
    repeat (constructor; [reflexivity|]). apply Forall_app. split.
    + eapply Forall_impl; [exact Hdec|]. intros e He.
      apply decoration_effect_quiet in He. tauto.
    + destruct (decide _); [|constructor].
      apply Forall_flat_map, Forall_forall. intros e _.
      eapply Forall_impl; [apply unfoldTrace_unfolds|].
      intros [] He; simpl in *; congruence.
Qed.

(** X15. The fold and unfold commands follow the folding provider: while
    the provider is on (the mode is not [visible]) the unfold command of an
    editor names the start lines of the ranges the provider offers for its
    document, and in [hiddenFolded] mode so does the fold command of a
    supported editor; neither is issued when the provider offers nothing.
    Outside [hiddenFolded] mode, and for an unsupported document, there is
    no fold command. *)
Theorem fold_commands_follow_the_provider s editor :
  let blocks := provideFoldingRanges toLowerCase s (document editor) in
  (hideIfdefMode s = hiddenFolded ->
   unsupported (document editor) = false ->
   traceOf (autoFoldHiddenRanges toLowerCase editor s)
   = if decide (blocks = []) then []
     else [Delay 100; EditorFold (map FoldingRange.start blocks) 1])
  /\ (hideIfdefMode s <> visible ->
      traceOf (unfoldHiddenRanges (docKeyOf toLowerCase (document editor)) editor s)
      = if decide (blocks = []) then []
        else [EditorUnfold (map FoldingRange.start blocks) 1])
  /\ (hideIfdefMode s <> hiddenFolded \/ unsupported (document editor) = true ->
      traceOf (autoFoldHiddenRanges toLowerCase editor s) = []).
Proof.
  intros blocks. subst blocks. unfold provideFoldingRanges.
  rewrite autoFoldHiddenRanges_run, unfoldHiddenRanges_run.
  cbn [traceOf snd]. unfold foldTrace, unfoldTrace. cbv zeta.
  split; [|split].
  - intros Hmode Hsup. rewrite Hsup.
    rewrite (decide_True (P := hideIfdefMode s = hiddenFolded)) by exact Hmode.
    rewrite (decide_False (P := hideIfdefMode s = visible))
      by (rewrite Hmode; discriminate).
    destruct (collectHiddenFoldingRanges _ _) as [|b blocks]; reflexivity.
  - intros Hmode.
    rewrite (decide_False (P := hideIfdefMode s = visible)) by exact Hmode.
    destruct (collectHiddenFoldingRanges _ _) as [|b blocks]; reflexivity.
  - intros [Hmode | Hsup].
    + rewrite (decide_False (P := hideIfdefMode s = hiddenFolded)) by exact Hmode.
      reflexivity.
    + rewrite Hsup. destruct (decide (hideIfdefMode s = hiddenFolded)); reflexivity.
Qed.

(** ** The mode and the cache over a session *)

Lemma stateOf_bind {A B : Type} (m : M A) (f : A -> M B) s :
  stateOf ((m ≫= f) s) = stateOf (f (valueOf (m s)) (stateOf (m s))).
Proof. rewrite run_bind. reflexivity. Qed.

Lemma handle_state (host : Host number) e s :
  hideIfdefMode (stateOf (handle toLowerCase parseFsPath toString host e s))
  = match e with
    | ToggleInvoked => nextMode (hideIfdefMode s)
    | _ => hideIfdefMode s
    end
  /\ inactiveRegionsMap (stateOf (handle toLowerCase parseFsPath toString host e s))
     = match e with
       | InactiveRegionsChanged params =>
           Map_set (inactiveRegionsMap s) (docKeyIn params) (receivedRegions params)
       | _ => inactiveRegionsMap s
       end.
Proof.
  destruct e as [params| |ofActiveDocument|editor|affectsIfdef]; cbn [handle].
  - destruct (onInactiveRegions_run toLowerCase parseFsPath number toString host params s)
      as (s' & decorate & Hrun & [Hmap Hm] & _).
    rewrite Hrun. cbn [stateOf fst]. split; [exact Hm | exact Hmap].
  - destruct (toggleCommand_run toLowerCase number toString host s)
      as (s' & decorate & Hrun & [Hmap Hm] & _).
    rewrite Hrun. cbn [stateOf fst]. split; [exact Hm | exact Hmap].
  - assert (H : decorates (onDidChangeTextDocument toLowerCase toString host
                             ofActiveDocument)).
    { unfold onDidChangeTextDocument.
      destruct (activeTextEditor host); [|apply decorates_ret].
      destruct ofActiveDocument; [|apply decorates_ret].
      apply decorates_bind; [apply decorates_getDecoration|].
      intros d. apply decorates_updateEditorDecoration. }
    destruct (H s) as ([Hmap Hm] & _). split; [exact Hm | exact Hmap].
  - unfold onDidChangeActiveTextEditor.
    destruct editor as [editor|]; [|split; reflexivity].
    rewrite stateOf_bind, stateOf_bind, autoFoldHiddenRanges_run.
    cbn [stateOf fst].
    rewrite updateEditorDecoration_run. cbn [stateOf fst].
    destruct (decorates_getDecoration number toString host s) as ([Hmap Hm] & _).
    split; [exact Hm | exact Hmap].
  - unfold onDidChangeConfiguration. rewrite stateOf_bind.
    destruct affectsIfdef; [|split; reflexivity].
    destruct (decorates_updateActiveEditor toLowerCase number toString host s)
      as ([Hmap Hm] & _).
    split; [exact Hm | exact Hmap].
Qed.

(** X16. Over a session's events the mode is stepped by the toggle
    command and by nothing else, and the cache is written by the
    notifications and by nothing else: after the events the mode is the
    start mode stepped once for each toggle, and the cache is the start cache
    with the regions of each notification stored, in turn, under its document
    key. *)
Theorem session_steps_mode_and_cache events s :
  let s' := stateOf (handleAll toLowerCase parseFsPath toString events s) in
  hideIfdefMode s' = modeAfter events (hideIfdefMode s)
  /\ inactiveRegionsMap s'
     = regionsAfter toLowerCase parseFsPath events (inactiveRegionsMap s).
Proof.
  cbv zeta. unfold handleAll, modeAfter, regionsAfter.
  revert s. induction events as [|[host e] events IH]; intros s; [split; reflexivity|].
  cbn [forEach foldl]. rewrite stateOf_bind.
  destruct (IH (stateOf (handle toLowerCase parseFsPath toString host e s)))
    as [IHmode IHmap].
  destruct (handle_state host e s) as [Hmode Hmap].
  cbn [fst snd]. rewrite IHmode, IHmap, Hmode, Hmap.
  split; destruct e; reflexivity.
Qed.

(** ** Activation and deactivation *)

Lemma modeOfName_modeName mode : modeOfName (modeName mode) = Some mode.
Proof. destruct mode; vm_compute; reflexivity. Qed.

Lemma modeOfName_Some name mode :
  modeOfName name = Some mode <-> name = modeName mode.
Proof.
  split; [|intros ->; apply modeOfName_modeName].
  unfold modeOfName, MODES. cbn [find].
  repeat case_bool_decide; intros E; try discriminate;
    injection E as <-; symmetry; assumption.
Qed.

Lemma initializeHideIfdefSetting_run storedMode configuredMode s :
  initializeHideIfdefSetting storedMode configuredMode s
  = (tt, withMode s (startMode storedMode configuredMode),
     match storedMode ≫= modeOfName with
     | Some _ => []
     | None => [WorkspaceStateUpdate (startMode storedMode configuredMode)]
     end).
Proof.
  unfold initializeHideIfdefSetting, startMode.
  destruct (storedMode ≫= modeOfName); reflexivity.
Qed.

(** X17. The stored mode makes a round trip: the names of the three modes
    are distinct and [modeOfName] reads each back; the mode that the toggle
    command persists is the mode it leaves, and an activation that finds
    that mode's name in the workspace state restores it, whatever the
    configuration says, and persists nothing. With no stored mode, or a
    string that names none, the configured mode (or [visible]) is taken and
    persisted. *)
Theorem stored_mode_round_trip (host : Host number) :
  (forall name mode, modeOfName name = Some mode <-> name = modeName mode)
  /\ (forall s configuredMode s0,
        let mode := hideIfdefMode (stateOf (toggleCommand toLowerCase toString host s)) in
        WorkspaceStateUpdate mode ∈ traceOf (toggleCommand toLowerCase toString host s)
        /\ initializeHideIfdefSetting (Some (modeName mode)) configuredMode s0
           = (tt, withMode s0 mode, []))
  /\ (forall storedMode configuredMode s0,
        (forall mode, storedMode <> Some (modeName mode)) ->
        initializeHideIfdefSetting storedMode configuredMode s0
        = (tt, withMode s0 (default visible configuredMode),
           [WorkspaceStateUpdate (default visible configuredMode)])).
Proof.
  split; [exact modeOfName_Some|]. split.
  - intros s configuredMode s0.
    destruct (toggleCommand_run toLowerCase number toString host s)
      as (s' & decorate & Hrun & [_ Hm] & _).
    rewrite Hrun. cbn [traceOf stateOf fst snd]. rewrite Hm. cbn [withMode hideIfdefMode].
    split; [apply list_elem_of_here|].
    rewrite initializeHideIfdefSetting_run. unfold startMode.
    cbn [mbind option_bind]. rewrite modeOfName_modeName. reflexivity.
  - intros storedMode configuredMode s0 Hnone.
    rewrite initializeHideIfdefSetting_run. unfold startMode.
    destruct (storedMode ≫= modeOfName) as [mode|] eqn:E; [|reflexivity].
    exfalso. destruct storedMode as [name|]; [|discriminate].
    apply (Hnone mode). f_equal. apply modeOfName_Some, E.
Qed.

Lemma activateIfDefHider_run (host : Host number) storedMode configuredMode :
  let mode := startMode storedMode configuredMode in
  let style := mkDecoration 0 (targetOpacityOf toString host mode) in
  activateIfDefHider toLowerCase toString host storedMode configuredMode initialState
  = (tt, mkState ∅ (Some style) (targetOpacityOf toString host mode) mode 1,
     match storedMode ≫= modeOfName with
     | Some _ => []
     | None => [WorkspaceStateUpdate mode]
     end
     ++ StatusBarAssign mode
     :: CreateDecorationType style
     :: flat_map
          (fun editor =>
             if unsupported (document editor) then []
             else [SetDecorations (editorId editor) style
                     (if decide (mode = visible) then []
                      else preprocessorRangesOf (document editor))])
          (editorsInTurn host)
     ++ (if decide (mode = hiddenFolded)
         then flat_map (foldTrace []) (visibleTextEditors host)
         else [])).
Proof.
  intros mode style. unfold activateIfDefHider.
  set (foldLoop := forEach _ (autoFoldHiddenRanges _)).
  assert (Hfold : forall s0,
             foldLoop s0
             = (tt, s0,
                flat_map
                  (fun editor =>
                     if decide (hideIfdefMode s0 = hiddenFolded)
                     then foldTrace (Map_get_or_empty (inactiveRegionsMap s0)
                                       (docKeyOf toLowerCase (document editor)))
                            editor
                     else [])
                  (visibleTextEditors host))).
  { apply (forEach_readonly _
             (fun s0 editor =>
                if decide (hideIfdefMode s0 = hiddenFolded)
                then foldTrace (Map_get_or_empty (inactiveRegionsMap s0)
                                  (docKeyOf toLowerCase (document editor))) editor
                else [])).
    intros; apply autoFoldHiddenRanges_run. }
  clearbody foldLoop.
  pose proof (updateActiveEditor_run host (withMode initialState mode)) as Hupdate.
  cbv zeta in Hupdate. rewrite getDecoration_run in Hupdate.
  cbn [withMode initialState lastDecoration hideIfdefMode created
       inactiveRegionsMap lastOpacity withDecoration
       valueOf stateOf traceOf fst snd] in Hupdate.
  fold style in Hupdate.
  rewrite run_bind, initializeHideIfdefSetting_run.
  cbn [valueOf stateOf traceOf fst snd]. fold mode.
  cbv [mbind M_bind getState emit]. cbn [withMode initialState hideIfdefMode].
  cbn [withMode initialState] in Hupdate. rewrite Hupdate, Hfold.
  cbn [valueOf stateOf traceOf fst snd app hideIfdefMode inactiveRegionsMap].
  f_equal. do 3 f_equal. f_equal.
  - apply flat_map_ext_elem. intros editor _.
    rewrite updateEditorDecoration_run.
    cbn [traceOf snd hideIfdefMode inactiveRegionsMap withDecoration withMode
         initialState].
    destruct (unsupported (document editor)); [reflexivity|].
    unfold decorationRanges, Map_get_or_empty. rewrite lookup_empty.
    destruct mode; reflexivity.
  - cbn [hideIfdefMode inactiveRegionsMap withDecoration withMode initialState].
    destruct (decide (mode = hiddenFolded)); [|apply flat_map_nil].
    apply flat_map_ext_elem. intros editor _.
    unfold Map_get_or_empty. rewrite lookup_empty. reflexivity.
Qed.

(** X18. The activation, from the module's initial variables: the mode is
    the stored one, or else the configured one, or else [visible], and it is
    persisted only in the latter two cases; then the status bar is set, one
    style is created, and every supported editor (the active one first) is
    decorated with it, on its directive lines when the mode is not
    [visible] and on nothing when it is, the cache being empty; then, in
    [hiddenFolded] mode only, the visible editors are folded at the blocks of
    their directive lines. Nothing is unfolded. *)
Theorem activation_trace (host : Host number) storedMode configuredMode :
  let mode := startMode storedMode configuredMode in
  let run :=
    activateIfDefHider toLowerCase toString host storedMode configuredMode
      initialState in
  let style := mkDecoration 0 (targetOpacityOf toString host mode) in
  stateOf run = mkState ∅ (Some style) (targetOpacityOf toString host mode) mode 1
  /\ traceOf run
     = match storedMode ≫= modeOfName with
       | Some _ => []
       | None => [WorkspaceStateUpdate mode]
       end
       ++ StatusBarAssign mode
       :: CreateDecorationType style
       :: flat_map
            (fun editor =>
               if unsupported (document editor) then []
               else [SetDecorations (editorId editor) style
                       (if decide (mode = visible) then []
                        else preprocessorRangesOf (document editor))])
            (editorsInTurn host)
       ++ (if decide (mode = hiddenFolded)
           then flat_map (foldTrace []) (visibleTextEditors host)
           else [])
  /\ Forall (fun e => isUnfold e = false) (traceOf run).
Proof.
  intros mode run style. subst run.
  rewrite (activateIfDefHider_run host storedMode configuredMode). cbv zeta.
  fold mode style. cbn [stateOf traceOf fst snd].
  split; [reflexivity|]. split; [reflexivity|].
  apply Forall_app. split; [destruct (storedMode ≫= modeOfName); repeat constructor|].
  repeat (constructor; [reflexivity|]). apply Forall_app. split.
  - apply Forall_flat_map, Forall_forall. intros editor _.
    destruct (unsupported (document editor)); repeat constructor.
  - destruct (decide (mode = hiddenFolded)); [|constructor].
    apply Forall_flat_map, Forall_forall. intros editor _.
    eapply Forall_impl; [apply foldTrace_folds|]. intros x [Hx _]. exact Hx.
Qed.

(** X19. The deactivation leaves nothing behind: it disposes of the last
    style when there is one and of nothing otherwise, every document key
    then reads the empty region list from the cache, so that the folding
    provider answers from the directive lines alone, and a later request
    for the style creates a new one without disposing of the old one a
    second time. *)
Theorem deactivation_leaves_nothing (host : Host number) s :
  let s' := stateOf (deactivateIfDefHider s) in
  traceOf (deactivateIfDefHider s)
  = match lastDecoration s with
    | Some d => [DisposeDecorationType d]
    | None => []
    end ++ [InactiveRegionsClear; FoldingChangeDispose]
  /\ hideIfdefMode s' = hideIfdefMode s
  /\ (forall docKey, Map_get_or_empty (inactiveRegionsMap s') docKey = [])
  /\ (forall document,
        provideFoldingRanges toLowerCase s' document
        = if decide (hideIfdefMode s = visible) then []
          else collectHiddenFoldingRanges document [])
  /\ traceOf (getDecoration toString host s')
     = [CreateDecorationType (valueOf (getDecoration toString host s'))].
Proof.
  assert (Hrun : deactivateIfDefHider s
    = (tt, withRegions (withDecoration s None (lastOpacity s) (created s)) ∅,
       match lastDecoration s with
       | Some d => [DisposeDecorationType d]
       | None => []
       end ++ [InactiveRegionsClear; FoldingChangeDispose])).
  { unfold deactivateIfDefHider. cbv [mbind M_bind getState putState emit mret M_ret].
    destruct (lastDecoration s); reflexivity. }
  cbv zeta. rewrite Hrun. cbn [stateOf traceOf fst snd].
  split; [reflexivity|]. split; [reflexivity|]. split; [|split].
  - intros docKey. unfold Map_get_or_empty. cbn [withRegions inactiveRegionsMap].
    rewrite lookup_empty. reflexivity.
  - intros document. unfold provideFoldingRanges, Map_get_or_empty.
    cbn [withRegions withDecoration inactiveRegionsMap hideIfdefMode].
    rewrite lookup_empty. reflexivity.
  - rewrite getDecoration_run. reflexivity.
Qed.



(** ** When the handlers fold and unfold *)

Lemma Forall_decoration_effects (P Q : Prop) t :
  Forall (fun e => isDecorationEffect e = true) t ->
  Forall (fun x => (isFold x = true -> P) /\ (isUnfold x = true -> Q)) t.
Proof.
  intros H. eapply Forall_impl; [exact H|]. intros x Hx.
  apply decoration_effect_quiet in Hx as (Hf & Hu & _).
  rewrite Hf, Hu. split; discriminate.
Qed.

Lemma Forall_unfoldTraces (P Q : Prop) (f : TextEditor -> list Effect) l :
  (forall x, Forall (fun e => isUnfold e = true) (f x)) ->
  Q ->
  Forall (fun x => (isFold x = true -> P) /\ (isUnfold x = true -> Q)) (flat_map f l).
Proof.
  intros Hf HQ. apply Forall_flat_map, Forall_forall. intros x _.
  eapply Forall_impl; [apply Hf|]. intros [] He; simpl in *; try discriminate.
  split; [discriminate | auto].
Qed.

Lemma Forall_foldTraces (P Q : Prop) (f : TextEditor -> list Effect) l :
  (forall x, Forall (fun e => isUnfold e = false /\ isInactiveRegionsSet e = false)
               (f x)) ->
  P ->
  Forall (fun x => (isFold x = true -> P) /\ (isUnfold x = true -> Q)) (flat_map f l).
Proof.
  intros Hf HP. apply Forall_flat_map, Forall_forall. intros x _.
  eapply Forall_impl; [apply Hf|]. intros e [He _]. rewrite He.
  split; [auto | discriminate].
Qed.

(** X20. A handler issues a fold command only when it leaves the mode at
    [hiddenFolded], and an unfold command only when it found the mode at
    [hiddenFolded]; and only the notification handler and the toggle command
    unfold at all. *)
Theorem handlers_fold_only_in_hiddenFolded (host : Host number) e s :
  let run := handle toLowerCase parseFsPath toString host e s in
  (forall selectionLines levels,
      EditorFold selectionLines levels ∈ traceOf run ->
      hideIfdefMode (stateOf run) = hiddenFolded)
  /\ (forall selectionLines levels,
         EditorUnfold selectionLines levels ∈ traceOf run ->
         hideIfdefMode s = hiddenFolded
         /\ (e = ToggleInvoked \/ exists params, e = InactiveRegionsChanged params)).
Proof.
  intros run.
  set (P := hideIfdefMode (stateOf run) = hiddenFolded).
  set (Q := hideIfdefMode s = hiddenFolded
            /\ (e = ToggleInvoked \/ exists params, e = InactiveRegionsChanged params)).
  assert (H : Forall (fun x => (isFold x = true -> P) /\ (isUnfold x = true -> Q))
                (traceOf run)).
  { pose proof (proj1 (handle_state host e s)) as Hmode. fold run in Hmode.
    subst P Q run.
    destruct e as [params| |ofActiveDocument|editor|affectsIfdef]; cbn [handle] in *.
    - destruct (onInactiveRegions_run toLowerCase parseFsPath number toString host params s)
        as (s' & decorate & Hrun & _ & Hdec & _).
      rewrite Hrun in *. cbn [traceOf stateOf fst snd] in *.
      apply Forall_app. split.
      + destruct (decide (hideIfdefMode s = hiddenFolded)) as [E|E]; [|constructor].
        apply Forall_unfoldTraces; [intros x; apply unfoldTrace_unfolds|].
        split; [exact E | right; eexists; reflexivity].
      + do 2 (constructor; [split; discriminate|]). apply Forall_app. split.
        * apply Forall_decoration_effects, Hdec.
        * destruct (decide (hideIfdefMode s = hiddenFolded)) as [E|E]; [|constructor].
          apply Forall_foldTraces; [intros x; apply foldTrace_folds|].
          rewrite Hmode. exact E.
    - destruct (toggleCommand_run toLowerCase number toString host s)
        as (s' & decorate & Hrun & _ & Hdec & _).
      rewrite Hrun in *. cbn [traceOf stateOf fst snd] in *.
      do 3 (constructor; [split; discriminate|]). apply Forall_app. split.
      + apply Forall_decoration_effects, Hdec.
      + apply Forall_app. split.
        * destruct (decide (nextMode (hideIfdefMode s) = visible
                            /\ hideIfdefMode s = hiddenFolded)) as [[_ E]|E];
            [|constructor].
          apply Forall_unfoldTraces; [intros x; apply unfoldTrace_unfolds|].
          split; [exact E | left; reflexivity].
        * destruct (decide (nextMode (hideIfdefMode s) = hiddenFolded)) as [E|E];
            [|constructor].
          apply Forall_foldTraces; [intros x; apply foldTrace_folds|].
          rewrite Hmode. exact E.
    - apply Forall_decoration_effects.
      unfold onDidChangeTextDocument.
      destruct (activeTextEditor host); [|constructor].
      destruct ofActiveDocument; [|constructor].
      apply (decorates_bind (getDecoration toString host)
               (updateEditorDecoration toLowerCase t));
        [apply decorates_getDecoration
        | intros d; apply decorates_updateEditorDecoration].
    - unfold onDidChangeActiveTextEditor in *.
      destruct editor as [editor|]; [|constructor].
      rewrite run_bind. cbn [traceOf snd].
      rewrite run_bind. cbn [traceOf snd].
      rewrite autoFoldHiddenRanges_run. cbn [traceOf snd].
      rewrite updateEditorDecoration_run. cbn [traceOf stateOf fst snd].
      destruct (decorates_getDecoration number toString host s)
        as ([_ Hm] & Hdec & _).
      apply Forall_app. split; [apply Forall_decoration_effects, Hdec|].
      apply Forall_app. split.
      + apply Forall_decoration_effects.
        destruct (unsupported (document editor)); repeat constructor.
      + destruct (decide (hideIfdefMode (stateOf (getDecoration toString host s))
                          = hiddenFolded)) as [E|E]; [|constructor].
        eapply Forall_impl; [apply foldTrace_folds|]. intros x [Hx _].
        rewrite Hx. split; [intros _ | discriminate]. exact E.
    - unfold onDidChangeConfiguration. rewrite run_bind. cbn [traceOf snd].
      apply Forall_app. split.
      + apply Forall_decoration_effects.
        destruct affectsIfdef; [|constructor].
        apply decorates_updateActiveEditor.
      + repeat constructor; discriminate. }
  rewrite Forall_forall in H.
  split; intros selectionLines levels Hin; apply (H _ Hin); reflexivity.
Qed.

End FurtherProperties.

Lemma updateActiveEditor_decorates_each_editor_once_witness :
  NoDup (decorationsOf
           (traceOf (updateActiveEditor id exampleToString exampleHost exampleState))).*1.*1.
Proof.
  apply (proj2 (updateActiveEditor_decorates_each_editor_once id nat exampleToString
                  exampleHost exampleState)).
  simpl. apply NoDup_singleton.
Defined.

Lemma getDecoration_settles_the_style_witness :
  opacity (valueOf (getDecoration exampleToString exampleHost exampleState))
  = styleOpacity exampleToString exampleHost hiddenFolded.
Proof.
  apply (proj2 (proj2 (getDecoration_settles_the_style nat exampleToString exampleHost))
           exampleState).
  intros d E. discriminate E.
Defined.

Lemma notification_outside_hiddenFolded_only_redecorates_witness :
  exists decorate,
    traceOf (onInactiveRegions id id exampleToString exampleHost exampleParams
               (withMode exampleState hidden))
    = InactiveRegionsSet (utf16 "/a.c") (receivedRegions exampleParams)
      :: FoldingChangeFire :: decorate
    /\ Forall (fun e => isDecorationEffect e = true) decorate.
Proof.
  apply (notification_outside_hiddenFolded_only_redecorates id id nat exampleToString
           exampleHost exampleParams (withMode exampleState hidden)).
  discriminate.
Defined.

Lemma toggle_folds_only_when_entering_hiddenFolded_witness :
  hideIfdefMode
    (stateOf (toggleCommand id exampleToString exampleHost (withMode exampleState hidden)))
  = hiddenFolded.
Proof.
  destruct (proj1 (toggle_folds_only_when_entering_hiddenFolded id nat exampleToString
                     exampleHost)
              (withMode exampleState hidden) eq_refl)
    as (decorate & _ & _ & Hmode & _).
  exact Hmode.
Defined.

Lemma fold_commands_follow_the_provider_witness :
  let blocks := provideFoldingRanges id exampleState (document exampleEditor) in
  traceOf (autoFoldHiddenRanges id exampleEditor exampleState)
  = if decide (blocks = []) then []
    else [Delay 100; EditorFold (map FoldingRange.start blocks) 1].
Proof.
  apply (proj1 (fold_commands_follow_the_provider id exampleState exampleEditor));
    reflexivity.
Defined.

Lemma stored_mode_round_trip_witness :
  initializeHideIfdefSetting None (Some hidden) initialState
  = (tt, withMode initialState hidden, [WorkspaceStateUpdate hidden]).
Proof.
  apply (proj2 (proj2 (stored_mode_round_trip id nat exampleToString exampleHost))
           None (Some hidden) initialState).
  intros mode. discriminate.
Defined.

Lemma handlers_fold_only_in_hiddenFolded_witness :
  hideIfdefMode
    (stateOf (handle id id exampleToString exampleHost
                (ActiveTextEditorChanged (Some exampleEditor)) exampleState))
  = hiddenFolded.
Proof.
  apply (proj1 (handlers_fold_only_in_hiddenFolded id id nat exampleToString exampleHost
                  (ActiveTextEditorChanged (Some exampleEditor)) exampleState)
           [2] 1).
  vm_compute. do 3 apply list_elem_of_further. apply list_elem_of_here.
Defined.

(** * The tracker of [extension.ts] and the tracker of [ifdef.ts] *)

Lemma Legacy_run_bind {A B : Type} (m : Legacy.M A) (f : A -> Legacy.M B) l :
  (m ≫= f) l
  = let '(a, l1, t1) := m l in
    let '(b, l2, t2) := f a l1 in
    (b, l2, t1 ++ t2).
Proof. reflexivity. Qed.

Lemma refinesAt_bind {A B : Type} (m : M A) (m' : Legacy.M A)
    (f : A -> M B) (f' : A -> Legacy.M B) s :
  refinesAt s m m' ->
  refinesAt (stateOf (m s)) (f (valueOf (m s))) (f' (valueOf (m s))) ->
  refinesAt s (m ≫= f) (m' ≫= f').
Proof.
  unfold refinesAt. intros Hm Hf. rewrite run_bind, Legacy_run_bind, Hm, Hf.
  cbn [valueOf stateOf traceOf fst snd]. rewrite flat_map_app. reflexivity.
Qed.

Lemma refines_bind {A B : Type} (m : M A) (m' : Legacy.M A)
    (f : A -> M B) (f' : A -> Legacy.M B) :
  refines m m' -> (forall a, refines (f a) (f' a)) -> refines (m ≫= f) (m' ≫= f').
Proof. intros Hm Hf s. apply refinesAt_bind; [apply Hm | apply Hf]. Qed.

Lemma refines_ret {A : Type} (a : A) : refines (mret a) (mret a).
Proof. intros s. reflexivity. Qed.

Lemma refines_forEach {A : Type} (body : A -> M unit) (body' : A -> Legacy.M unit) l :
  (forall x, refines (body x) (body' x)) ->
  refines (forEach l body) (Legacy.forEach l body').
Proof.
  intros Hbody. induction l as [|x l IH]; [apply refines_ret|].
  cbn [forEach Legacy.forEach]. apply refines_bind; [apply Hbody | intros _; exact IH].
Qed.

(** The two files read the state in step. *)
Lemma refinesAt_getState {B : Type} (f : State -> M B) (f' : Legacy.State -> Legacy.M B) s :
  refinesAt s (f s) (f' (legacyStateOf s)) ->
  refinesAt s (getState ≫= f) (Legacy.getState ≫= f').
Proof.
  unfold refinesAt. intros Hf. rewrite run_bind, Legacy_run_bind.
  cbn [getState Legacy.getState valueOf stateOf traceOf fst snd app].
  unfold getState, Legacy.getState. cbn [valueOf stateOf traceOf fst snd app].
  rewrite Hf. reflexivity.
Qed.

Lemma refinesAt_putState {B : Type} (f : unit -> M B) (f' : unit -> Legacy.M B) s1 l1 s :
  l1 = legacyStateOf s1 ->
  refinesAt s1 (f tt) (f' tt) ->
  refinesAt s (putState s1 ≫= f) (Legacy.putState l1 ≫= f').
Proof.
  unfold refinesAt. intros -> Hf. rewrite run_bind, Legacy_run_bind.
  unfold putState, Legacy.putState. cbn [valueOf stateOf traceOf fst snd app].
  rewrite Hf. reflexivity.
Qed.

Lemma refinesAt_emit {B : Type} (f : unit -> M B) (f' : unit -> Legacy.M B) e e' s :
  legacyView e = [e'] ->
  refinesAt s (f tt) (f' tt) ->
  refinesAt s (emit e ≫= f) (Legacy.emit e' ≫= f').
Proof.
  unfold refinesAt. intros He Hf. rewrite run_bind, Legacy_run_bind.
  unfold emit, Legacy.emit. cbn [valueOf stateOf traceOf fst snd app flat_map].
  rewrite Hf, He. reflexivity.
Qed.

(** A step that [ifdef.ts] does not see can be passed over, before ... *)
Lemma refinesAt_silent {A B : Type} (m : M A) (f : A -> M B) (m' : Legacy.M B) s :
  silent m ->
  refinesAt s (f (valueOf (m s))) m' ->
  refinesAt s (m ≫= f) m'.
Proof.
  unfold refinesAt. intros Hm Hf. destruct (Hm s) as [Hstate Htrace].
  rewrite run_bind. cbn [valueOf stateOf traceOf fst snd].
  rewrite flat_map_app, Htrace, Hstate. exact Hf.
Qed.

(** ... and at the end. *)
Lemma refinesAt_silent_end (k m : M unit) (m' : Legacy.M unit) s :
  refinesAt s k m' ->
  silent m ->
  refinesAt s (k;; m) m'.
Proof.
  unfold refinesAt. intros Hk Hm. destruct (Hm (stateOf (k s))) as [Hstate Htrace].
  rewrite run_bind. cbn [valueOf stateOf traceOf fst snd].
  rewrite flat_map_app, Htrace, Hstate, app_nil_r, Hk.
  destruct (valueOf (m (stateOf (k s)))), (valueOf (k s)). reflexivity.
Qed.

Lemma silent_ret {A : Type} (a : A) : silent (mret a).
Proof. intros s. split; reflexivity. Qed.

Lemma silent_getState : silent getState.
Proof. intros s. split; reflexivity. Qed.

Lemma silent_emit e : legacyView e = [] -> silent (emit e).
Proof. intros He s. split; [reflexivity|]. simpl. rewrite He. reflexivity. Qed.

Lemma silent_bind {A B : Type} (m : M A) (f : A -> M B) :
  silent m -> (forall a, silent (f a)) -> silent (m ≫= f).
Proof.
  intros Hm Hf s. rewrite run_bind. cbn [stateOf traceOf fst snd].
  destruct (Hm s) as [Hs Ht]. destruct (Hf (valueOf (m s)) (stateOf (m s))) as [Hs' Ht'].
  rewrite flat_map_app, Ht, Ht', Hs', Hs. split; reflexivity.
Qed.

Lemma silent_forEach {A : Type} (body : A -> M unit) l :
  (forall x, silent (body x)) -> silent (forEach l body).
Proof.
  intros Hbody. induction l as [|x l IH]; [apply silent_ret|].
  cbn [forEach]. apply silent_bind; [apply Hbody | intros _; exact IH].
Qed.

Section LegacyRefinement.

Variable toLowerCase : JSString -> JSString.
Variable parseFsPath : JSString -> JSString.
Variable number : Type.
Variable toString : number -> JSString.

Lemma Legacy_getDecoration_run (host : Host number) l :
  Legacy.getDecoration toString host l
  = let targetOpacity :=
      toString (if Legacy.hideIfdefEnabled l
                then getHideIfdefOpacity host else getClangdOpacity host) in
    let fresh := mkDecoration (Legacy.created l) targetOpacity in
    let l' := Legacy.withDecoration l (Some fresh) targetOpacity (S (Legacy.created l)) in
    match Legacy.lastDecoration l with
    | Some d =>
        if decide (Legacy.lastOpacity l = targetOpacity) then (d, l, [])
        else (fresh, l',
              [Legacy.DisposeDecorationType d; Legacy.CreateDecorationType fresh])
    | None => (fresh, l', [Legacy.CreateDecorationType fresh])
    end.
Proof.
  unfold Legacy.getDecoration. rewrite Legacy_run_bind.
  unfold Legacy.getState. cbv zeta.
  destruct (Legacy.lastDecoration l) as [d|].
  - destruct (decide (Legacy.lastOpacity l = _)); reflexivity.
  - reflexivity.
Qed.

Lemma targetOpacityOf_enabledOf (host : Host number) mode :
  toString (if enabledOf mode then getHideIfdefOpacity host else getClangdOpacity host)
  = targetOpacityOf toString host mode.
Proof. destruct mode; reflexivity. Qed.

Lemma refines_getDecoration (host : Host number) :
  refines (getDecoration toString host) (Legacy.getDecoration toString host).
Proof.
  intros s. unfold refinesAt.
  rewrite getDecoration_run, Legacy_getDecoration_run. cbv zeta.
  cbn [legacyStateOf Legacy.hideIfdefEnabled Legacy.lastDecoration Legacy.lastOpacity
       Legacy.created].
  rewrite targetOpacityOf_enabledOf.
  destruct (lastDecoration s) as [d|]; [|reflexivity].
  destruct (decide (lastOpacity s = _)); reflexivity.
Qed.

Lemma refines_updateEditorDecoration editor d :
  refines (updateEditorDecoration toLowerCase editor d)
    (Legacy.updateEditorDecoration toLowerCase editor d).
Proof.
  intros s. unfold refinesAt. rewrite updateEditorDecoration_run.
  unfold Legacy.updateEditorDecoration.
  destruct (unsupported (document editor)); [reflexivity|].
  rewrite Legacy_run_bind. unfold Legacy.getState, Legacy.emit, decorationRanges.
  cbn [legacyStateOf Legacy.hideIfdefEnabled Legacy.inactiveRegionsMap
       valueOf stateOf traceOf fst snd flat_map legacyView app].
  destruct (hideIfdefMode s); reflexivity.
Qed.

Lemma refines_decorateOne (host : Host number) editor :
  refines
    (d ← getDecoration toString host; updateEditorDecoration toLowerCase editor d)
    (d ← Legacy.getDecoration toString host;
     Legacy.updateEditorDecoration toLowerCase editor d).
Proof.
  apply refines_bind; [apply refines_getDecoration|].
  intros d. apply refines_updateEditorDecoration.
Qed.

Lemma refines_updateActiveEditor (host : Host number) :
  refines (updateActiveEditor toLowerCase toString host)
    (Legacy.updateActiveEditor toLowerCase toString host).
Proof.
  unfold updateActiveEditor, Legacy.updateActiveEditor.
  apply refines_bind; [apply refines_getDecoration|]. intros d.
  apply refines_bind.
  - destruct (activeTextEditor host);
      [apply refines_updateEditorDecoration | apply refines_ret].
  - intros _. apply refines_forEach. intros editor.
    apply refines_updateEditorDecoration.
Qed.

Lemma silent_unfoldHiddenRanges docKey editor :
  silent (unfoldHiddenRanges docKey editor).
Proof.
  intros s. rewrite unfoldHiddenRanges_run. split; [reflexivity|].
  cbn [traceOf snd]. unfold unfoldTrace. destruct (0 <? _); reflexivity.
Qed.

Lemma silent_autoFoldHiddenRanges editor :
  silent (autoFoldHiddenRanges toLowerCase editor).
Proof.
  intros s. rewrite autoFoldHiddenRanges_run. split; [reflexivity|].
  cbn [traceOf snd]. destruct (decide _); [|reflexivity].
  unfold foldTrace. destruct (unsupported _); [reflexivity|].
  destruct (_ =? 0); reflexivity.
Qed.

Lemma refines_onInactiveRegions (host : Host number) params :
  refines (onInactiveRegions toLowerCase parseFsPath toString host params)
    (Legacy.onInactiveRegions toLowerCase parseFsPath toString host params).
Proof.
  intros s. unfold onInactiveRegions, Legacy.onInactiveRegions. cbv zeta.
  apply refinesAt_silent; [apply silent_getState|]. cbv beta.
  apply refinesAt_silent.
  { destruct (decide _); [|apply silent_ret].
    apply silent_forEach. intros editor. apply silent_unfoldHiddenRanges. }
  cbv beta. apply refinesAt_getState.
  apply refinesAt_putState; [reflexivity|].
  apply refinesAt_emit; [reflexivity|].
  apply refinesAt_silent; [apply silent_emit; reflexivity|]. cbv beta.
  apply refinesAt_silent_end.
  - apply refines_forEach. intros editor. apply refines_decorateOne.
  - apply silent_forEach. intros editor. apply silent_autoFoldHiddenRanges.
Qed.

Lemma enabledOf_nextMode mode :
  mode <> hidden -> enabledOf (nextMode mode) = negb (enabledOf mode).
Proof. destruct mode; [reflexivity | congruence | reflexivity]. Qed.

Lemma refinesAt_toggleCommand (host : Host number) s :
  hideIfdefMode s <> hidden ->
  refinesAt s (toggleCommand toLowerCase toString host)
    (Legacy.toggleCommand toLowerCase toString host).
Proof.
  intros Hmode. pose proof (enabledOf_nextMode _ Hmode) as Hnext.
  unfold toggleCommand, Legacy.toggleCommand.
  apply refinesAt_getState. cbv zeta.
  cbn [legacyStateOf Legacy.hideIfdefEnabled]. rewrite <- Hnext.
  apply refinesAt_putState; [reflexivity|].
  apply refinesAt_emit; [reflexivity|].
  apply refinesAt_silent; [apply silent_emit; reflexivity|]. cbv beta.
  apply refinesAt_emit; [reflexivity|].
  apply refinesAt_silent_end; [apply refines_updateActiveEditor|].
  apply silent_bind; [apply silent_getState|]. intros s1.
  apply silent_bind.
  - destruct (decide _); [|apply silent_ret].
    apply silent_forEach. intros editor. apply silent_unfoldHiddenRanges.
  - intros _. apply silent_bind; [apply silent_getState|]. intros s2.
    destruct (decide _); [|apply silent_ret].
    apply silent_forEach. intros editor. apply silent_autoFoldHiddenRanges.
Qed.

Lemma refinesAt_handle (host : Host number) e s :
  (e = ToggleInvoked -> hideIfdefMode s <> hidden) ->
  refinesAt s (handle toLowerCase parseFsPath toString host e)
    (Legacy.handle toLowerCase parseFsPath toString host e).
Proof.
  intros Htoggle.
  destruct e as [params| |ofActiveDocument|editor|affectsIfdef];
    cbn [handle Legacy.handle].
  - apply refines_onInactiveRegions.
  - apply refinesAt_toggleCommand, Htoggle. reflexivity.
  - unfold onDidChangeTextDocument, Legacy.onDidChangeTextDocument.
    destruct (activeTextEditor host); [|apply refines_ret].
    destruct ofActiveDocument; [apply refines_decorateOne | apply refines_ret].
  - unfold onDidChangeActiveTextEditor, Legacy.onDidChangeActiveTextEditor.
    destruct editor as [editor|]; [|apply refines_ret].
    apply refinesAt_bind; [apply refines_getDecoration|]. cbv beta.
    apply refinesAt_silent_end;
      [apply refines_updateEditorDecoration | apply silent_autoFoldHiddenRanges].
  - unfold onDidChangeConfiguration, Legacy.onDidChangeConfiguration.
    apply refinesAt_bind.
    + destruct affectsIfdef; [apply refines_updateActiveEditor | apply refines_ret].
    + cbv beta. apply refinesAt_getState. reflexivity.
Qed.

Lemma refinesAt_handleAll events : forall s,
  togglesAsLegacy events (hideIfdefMode s) ->
  refinesAt s (handleAll toLowerCase parseFsPath toString events)
    (Legacy.handleAll toLowerCase parseFsPath toString events).
Proof.
  unfold handleAll, Legacy.handleAll.
  induction events as [|[host e] events IH]; intros s Hevents; [reflexivity|].
  destruct Hevents as [Htoggle Hrest]. cbn [fst snd] in Htoggle, Hrest.
  cbn [forEach Legacy.forEach fst snd].
  apply refinesAt_bind; [apply refinesAt_handle, Htoggle|]. cbv beta.
  apply IH.
  rewrite (proj1 (handle_state toLowerCase parseFsPath number toString host e s)).
  exact Hrest.
Qed.

Lemma refines_initializeHideIfdefSetting storedMode configuredMode :
  refines (initializeHideIfdefSetting storedMode configuredMode)
    (Legacy.initializeHideIfdefSetting (enabledOf <$> (storedMode ≫= modeOfName))
       (enabledOf <$> configuredMode)).
Proof.
  intros s. unfold refinesAt, initializeHideIfdefSetting, Legacy.initializeHideIfdefSetting.
  destruct (storedMode ≫= modeOfName) as [mode|]; [reflexivity|].
  destruct configuredMode; reflexivity.
Qed.

Lemma refines_activateIfDefHider (host : Host number) storedMode configuredMode :
  refines (activateIfDefHider toLowerCase toString host storedMode configuredMode)
    (Legacy.activateIfDefHider toLowerCase toString host
       (enabledOf <$> (storedMode ≫= modeOfName)) (enabledOf <$> configuredMode)).
Proof.
  unfold activateIfDefHider, Legacy.activateIfDefHider.
  apply refines_bind; [apply refines_initializeHideIfdefSetting|]. intros _ s.
  apply refinesAt_getState.
  apply refinesAt_emit; [reflexivity|].
  apply refinesAt_silent_end; [apply refines_updateActiveEditor|].
  apply silent_forEach. intros editor. apply silent_autoFoldHiddenRanges.
Qed.

Lemma refines_deactivateIfDefHider :
  refines deactivateIfDefHider Legacy.deactivateIfDefHider.
Proof.
  intros s. unfold refinesAt, deactivateIfDefHider, Legacy.deactivateIfDefHider.
  cbv [mbind M_bind Legacy.M_bind getState Legacy.getState putState Legacy.putState
       emit Legacy.emit mret M_ret Legacy.M_ret].
  unfold legacyStateOf, Legacy.withRegions, Legacy.withDecoration.
  cbn [Legacy.lastDecoration Legacy.inactiveRegionsMap Legacy.lastOpacity
       Legacy.hideIfdefEnabled Legacy.created].
  destruct (lastDecoration s); reflexivity.
Qed.

(** X21. Each handler of [extension.ts] does what the handler of
    [ifdef.ts] does, once the fold and unfold commands, the delays and the
    folding signals are left out and the mode is read as "hiding is on unless
    [visible]": the same decoration effects and cache writes in the same
    order, and final variables that read the same. For the toggle command
    this holds from [visible] and from [hiddenFolded]; from [hidden] the
    three-mode toggle goes on hiding where the two-mode toggle stops. *)
Theorem handlers_refine_the_two_state_tracker (host : Host number) e s :
  (e = ToggleInvoked -> hideIfdefMode s <> hidden) ->
  let run := handle toLowerCase parseFsPath toString host e s in
  Legacy.handle toLowerCase parseFsPath toString host e (legacyStateOf s)
  = (tt, legacyStateOf (stateOf run), flat_map legacyView (traceOf run)).
Proof.
  intros Htoggle run. subst run.
  rewrite (refinesAt_handle host e s Htoggle).
  destruct (valueOf _). reflexivity.
Qed.

(** X22. A whole session of [extension.ts] (the activation from the initial
    variables, then any events among which no toggle is invoked in [hidden]
    mode, then the deactivation) does, folding left out, what the session of
    [ifdef.ts] does on the same events, with the stored and the configured
    mode read as the stored and the configured boolean. *)
Theorem session_refines_the_two_state_tracker (host : Host number)
    storedMode configuredMode events :
  let session :=
    activateIfDefHider toLowerCase toString host storedMode configuredMode;;
    handleAll toLowerCase parseFsPath toString events;;
    deactivateIfDefHider in
  let session' :=
    Legacy.activateIfDefHider toLowerCase toString host
      (enabledOf <$> (storedMode ≫= modeOfName)) (enabledOf <$> configuredMode);;
    Legacy.handleAll toLowerCase parseFsPath toString events;;
    Legacy.deactivateIfDefHider in
  togglesAsLegacy events (startMode storedMode configuredMode) ->
  session' Legacy.initialState
  = (tt, legacyStateOf (stateOf (session initialState)),
     flat_map legacyView (traceOf (session initialState))).
Proof.
  intros session session' Hevents.
  assert (H : refinesAt initialState session session').
  { apply refinesAt_bind; [apply refines_activateIfDefHider|]. cbv beta.
    apply refinesAt_bind; [|apply refines_deactivateIfDefHider].
    apply refinesAt_handleAll.
    rewrite (activateIfDefHider_run toLowerCase number toString host storedMode
               configuredMode).
    exact Hevents. }
  unfold refinesAt in H. change (legacyStateOf initialState) with Legacy.initialState in H.
  rewrite H. destruct (valueOf _). reflexivity.
Qed.

End LegacyRefinement.

Lemma handlers_refine_the_two_state_tracker_witness :
  Legacy.handle id id exampleToString exampleHost ToggleInvoked
    (legacyStateOf exampleState)
  = (tt,
     legacyStateOf (stateOf (handle id id exampleToString exampleHost ToggleInvoked
                               exampleState)),
     flat_map legacyView
       (traceOf (handle id id exampleToString exampleHost ToggleInvoked exampleState))).
Proof.
  apply (handlers_refine_the_two_state_tracker id id nat exampleToString exampleHost
           ToggleInvoked exampleState).
  intros _. discriminate.
Defined.

Lemma session_refines_the_two_state_tracker_witness :
  (Legacy.activateIfDefHider id exampleToString exampleHost None None;;
   Legacy.handleAll id id exampleToString
     [(exampleHost, ToggleInvoked); (exampleHost, InactiveRegionsChanged exampleParams)];;
   Legacy.deactivateIfDefHider) Legacy.initialState
  = (tt,
     legacyStateOf
       (stateOf ((activateIfDefHider id exampleToString exampleHost None None;;
                  handleAll id id exampleToString
                    [(exampleHost, ToggleInvoked);
                     (exampleHost, InactiveRegionsChanged exampleParams)];;
                  deactivateIfDefHider) initialState)),
     flat_map legacyView
       (traceOf ((activateIfDefHider id exampleToString exampleHost None None;;
                  handleAll id id exampleToString
                    [(exampleHost, ToggleInvoked);
                     (exampleHost, InactiveRegionsChanged exampleParams)];;
                  deactivateIfDefHider) initialState))).
Proof.
  apply (session_refines_the_two_state_tracker id id nat exampleToString exampleHost
           None None
           [(exampleHost, ToggleInvoked);
            (exampleHost, InactiveRegionsChanged exampleParams)]).
  simpl. split; [intros _; discriminate | split; [discriminate | exact I]].
Defined.

(** * Refreshing twice *)

Section Refresh.

Variable toLowerCase : JSString -> JSString.
Variable parseFsPath : JSString -> JSString.
Variable number : Type.
Variable toString : number -> JSString.

Lemma withRegions_same s : withRegions s (inactiveRegionsMap s) = s.
Proof. destruct s. reflexivity. Qed.

Lemma decorationsOf_setDecorationsOf calls :
  decorationsOf (setDecorationsOf calls) = calls.
Proof.
  induction calls as [|[[e d] r] calls IH]; [reflexivity|].
  unfold decorationsOf, setDecorationsOf in *. cbn [fmap list_fmap flat_map app fst snd].
  f_equal. exact IH.
Qed.

(** The decorations of some editors, one after the other, are their
    [setDecorations] calls and nothing else. *)
Lemma updates_setDecorationsOf d s0 l :
  flat_map (fun editor => traceOf (updateEditorDecoration toLowerCase editor d s0)) l
  = setDecorationsOf
      (decorationsOf
         (flat_map
            (fun editor => traceOf (updateEditorDecoration toLowerCase editor d s0)) l)).
Proof.
  induction l as [|editor l IH]; [reflexivity|].
  cbn [flat_map]. rewrite decorationsOf_app. unfold setDecorationsOf in *.
  rewrite fmap_app, <- IH. f_equal.
  rewrite updateEditorDecoration_run. cbn [traceOf snd].
  destruct (unsupported (document editor)); reflexivity.
Qed.

(** X23. [updateActiveEditor] is idempotent: run again at once, it changes
    no variable, creates and disposes of no style, and repeats exactly the
    [setDecorations] calls of the first run. *)
Theorem updateActiveEditor_is_idempotent (host : Host number) s :
  let run1 := updateActiveEditor toLowerCase toString host s in
  let run2 := updateActiveEditor toLowerCase toString host (stateOf run1) in
  stateOf run2 = stateOf run1
  /\ traceOf run2 = setDecorationsOf (decorationsOf (traceOf run1)).
Proof.
  cbv zeta.
  rewrite (updateActiveEditor_run toLowerCase number toString host s). cbv zeta.
  cbn [stateOf traceOf fst snd].
  rewrite (updateActiveEditor_run toLowerCase number toString host
             (stateOf (getDecoration toString host s))). cbv zeta.
  rewrite (proj2 (getDecoration_settles number toString host s)).
  cbn [valueOf stateOf traceOf fst snd app].
  split; [reflexivity|].
  rewrite decorationsOf_app, (decorationsOf_getDecoration number toString host s).
  cbn [app]. apply updates_setDecorationsOf.
Qed.

Lemma decorateLoop_again (host : Host number) l s :
  let run := forEach l
               (fun editor =>
                  d ← getDecoration toString host;
                  updateEditorDecoration toLowerCase editor d) s in
  forEach l
    (fun editor =>
       d ← getDecoration toString host;
       updateEditorDecoration toLowerCase editor d) (stateOf run)
  = (tt, stateOf run, setDecorationsOf (decorationsOf (traceOf run))).
Proof.
  cbv zeta.
  rewrite (decorateLoop_run toLowerCase number toString host l s). cbv zeta.
  destruct l as [|x l]; [reflexivity|].
  cbn [stateOf traceOf fst snd].
  rewrite (decorateLoop_run toLowerCase number toString host (x :: l)). cbv zeta.
  rewrite (proj2 (getDecoration_settles number toString host s)).
  cbn [valueOf stateOf traceOf fst snd app]. f_equal.
  rewrite decorationsOf_app, (decorationsOf_getDecoration number toString host s).
  cbn [app]. apply updates_setDecorationsOf.
Qed.

(** X24. A notification received a second time changes no variable and
    repeats the [setDecorations] calls of the first time: the cache already
    holds its regions and the style is settled. *)
Theorem notification_is_idempotent (host : Host number) params s :
  let run1 := onInactiveRegions toLowerCase parseFsPath toString host params s in
  let run2 :=
    onInactiveRegions toLowerCase parseFsPath toString host params (stateOf run1) in
  stateOf run2 = stateOf run1
  /\ decorationsOf (traceOf run2) = decorationsOf (traceOf run1).
Proof.
  cbv zeta.
  set (affected := affectedEditorsOf toLowerCase parseFsPath host params).
  set (body := fun editor : TextEditor =>
                 d ← getDecoration toString host;
                 updateEditorDecoration toLowerCase editor d).
  set (key := toLowerCase (parseFsPath (textDocument_uri params))).
  set (s2 := withRegions s (Map_set (inactiveRegionsMap s) key (receivedRegions params))).
  assert (Hdecorations : forall s0,
             decorationsOf
               (traceOf (onInactiveRegions toLowerCase parseFsPath toString host params s0))
             = decorationsOf
                 (traceOf (forEach affected body
                             (withRegions s0 (Map_set (inactiveRegionsMap s0) key
                                                (receivedRegions params)))))).
  { intros s0.
    rewrite (onInactiveRegions_exact toLowerCase parseFsPath number toString host params s0).
    cbv zeta. cbn [traceOf snd]. rewrite decorationsOf_app.
    change (?a :: ?b :: ?t) with ([a; b] ++ t).
    rewrite !decorationsOf_app.
    assert (Hu : forall (P : Prop) (dec : Decision P) m,
               decorationsOf
                 (if dec then flat_map (unfoldTrace m key) affected else []) = []).
    { intros P dec m. destruct dec; [|reflexivity].
      apply decorationsOf_flat_map_quiet. intros x. apply unfoldTrace_quiet. }
    assert (Hf : forall (P : Prop) (dec : Decision P) r,
               decorationsOf (if dec then flat_map (foldTrace r) affected else []) = []).
    { intros P dec r. destruct dec; [|reflexivity].
      apply decorationsOf_flat_map_quiet. intros x. apply foldTrace_quiet. }
    unfold decide. rewrite Hu, Hf, app_nil_r. reflexivity. }
  assert (Hstate : forall s0,
             stateOf (onInactiveRegions toLowerCase parseFsPath toString host params s0)
             = stateOf (forEach affected body
                          (withRegions s0 (Map_set (inactiveRegionsMap s0) key
                                             (receivedRegions params))))).
  { intros s0.
    rewrite (onInactiveRegions_exact toLowerCase parseFsPath number toString host params s0).
    reflexivity. }
  rewrite !Hdecorations, !Hstate. fold s2.
  set (s1 := stateOf (forEach affected body s2)).
  assert (Hs1 : withRegions s1 (Map_set (inactiveRegionsMap s1) key (receivedRegions params))
                = s1).
  { assert (Hmap : inactiveRegionsMap s1
                   = Map_set (inactiveRegionsMap s) key (receivedRegions params)).
    { subst s1.
      destruct (decorates_forEach body affected
                  (fun editor =>
                     decorates_bind _ _
                       (decorates_getDecoration number toString host)
                       (fun d => decorates_updateEditorDecoration toLowerCase editor d))
                  s2) as ([Hm _] & _).
      exact Hm. }
    rewrite Hmap. unfold Map_set. rewrite insert_insert_eq.
    fold (Map_set (inactiveRegionsMap s) key (receivedRegions params)).
    rewrite <- Hmap. apply withRegions_same. }
  rewrite Hs1. subst s1 body.
  rewrite (decorateLoop_again host affected s2). cbn [stateOf traceOf fst snd].
  split; [reflexivity | apply decorationsOf_setDecorationsOf].
Qed.

End Refresh.

(** * The opacity of the decorations *)

Section Rendering.

Variable toLowerCase : JSString -> JSString.
Variable parseFsPath : JSString -> JSString.
Variable number : Type.
Variable toString : number -> JSString.

Lemma decoratesWith_app o t1 t2 :
  decoratesWith o t1 -> decoratesWith o t2 -> decoratesWith o (t1 ++ t2).
Proof.
  intros H1 H2 editor d ranges Hin. apply elem_of_app in Hin as [Hin | Hin];
    [eapply H1 | eapply H2]; exact Hin.
Qed.

Lemma decoratesWith_quiet o t :
  Forall (fun e => isDecorationEffect e = false) t -> decoratesWith o t.
Proof.
  intros Ht editor d ranges Hin. rewrite Forall_forall in Ht.
  specialize (Ht _ Hin). discriminate Ht.
Qed.

Lemma styleOpacity_targetOpacityOf (host : Host number) mode :
  targetOpacityOf toString host mode = styleOpacity toString host mode.
Proof. destruct mode; reflexivity. Qed.

Lemma rendersMode_bind (host : Host number) {A B : Type} (m : M A) (f : A -> M B) s :
  rendersMode toString host m s ->
  rendersMode toString host (f (valueOf (m s))) (stateOf (m s)) ->
  rendersMode toString host (m ≫= f) s.
Proof.
  unfold rendersMode. intros Hm Hf Hs. rewrite run_bind. cbn [stateOf traceOf fst snd].
  destruct (Hm Hs) as (Hs1 & Hmode1 & Ht1). destruct (Hf Hs1) as (Hs2 & Hmode2 & Ht2).
  split; [exact Hs2|]. split; [congruence|].
  apply decoratesWith_app; [exact Ht1 | rewrite <- Hmode1; exact Ht2].
Qed.

Lemma rendersMode_quiet (host : Host number) {A : Type} (m : M A) s :
  lastDecoration (stateOf (m s)) = lastDecoration s ->
  lastOpacity (stateOf (m s)) = lastOpacity s ->
  hideIfdefMode (stateOf (m s)) = hideIfdefMode s ->
  Forall (fun e => isDecorationEffect e = false) (traceOf (m s)) ->
  rendersMode toString host m s.
Proof.
  intros Hd Ho Hmode Ht Hs. split; [|split; [exact Hmode | apply decoratesWith_quiet, Ht]].
  intros d E. rewrite Ho. apply Hs. rewrite <- Hd. exact E.
Qed.

Lemma rendersMode_forEach (host : Host number) {A : Type} (body : A -> M unit) l :
  (forall x s, rendersMode toString host (body x) s) ->
  forall s, rendersMode toString host (forEach l body) s.
Proof.
  intros Hbody. induction l as [|x l IH]; intros s.
  - apply rendersMode_quiet; try reflexivity. constructor.
  - cbn [forEach]. apply rendersMode_bind; [apply Hbody | apply IH].
Qed.

Lemma rendersMode_getDecoration (host : Host number) s :
  rendersMode toString host (getDecoration toString host) s.
Proof.
  intros Hs. destruct (decorates_getDecoration number toString host s)
    as ([_ Hmode] & Ht & Hstyle).
  split; [apply Hstyle, Hs|]. split; [exact Hmode|].
  intros editor d ranges Hin. exfalso. revert Hin.
  rewrite getDecoration_run. cbv zeta.
  destruct (lastDecoration s); [destruct (decide (lastOpacity s = _))|];
    cbn [traceOf snd]; intros Hin;
    repeat (apply elem_of_cons in Hin as [Hin | Hin]; [discriminate Hin|]);
    inversion Hin.
Qed.

(** The style [getDecoration] returns has the opacity of the mode. *)
Lemma getDecoration_opacity (host : Host number) s :
  styleRecorded s ->
  opacity (valueOf (getDecoration toString host s))
  = styleOpacity toString host (hideIfdefMode s).
Proof.
  intros Hs. rewrite getDecoration_run. cbv zeta.
  rewrite styleOpacity_targetOpacityOf.
  destruct (lastDecoration s) as [d|] eqn:Ed; [|reflexivity].
  destruct (decide (lastOpacity s = _)) as [E | E]; [|reflexivity].
  cbn [valueOf fst]. rewrite (Hs d Ed). exact E.
Qed.

Lemma getDecoration_opacity_after (host : Host number) s :
  styleRecorded (stateOf (getDecoration toString host s)) ->
  opacity (valueOf (getDecoration toString host s))
  = styleOpacity toString host
      (hideIfdefMode (stateOf (getDecoration toString host s))).
Proof.
  intros Hs1.
  rewrite (Hs1 _ (proj1 (getDecoration_settles number toString host s))).
  rewrite <- styleOpacity_targetOpacityOf.
  rewrite getDecoration_run. cbv zeta.
  destruct (lastDecoration s) as [d|]; [|reflexivity].
  destruct (decide (lastOpacity s = _)) as [E | E]; [exact E | reflexivity].
Qed.

Lemma rendersMode_updateEditorDecoration (host : Host number) editor d s :
  opacity d = styleOpacity toString host (hideIfdefMode s) ->
  rendersMode toString host (updateEditorDecoration toLowerCase editor d) s.
Proof.
  intros Hd Hs. rewrite updateEditorDecoration_run. cbn [stateOf traceOf fst snd].
  split; [exact Hs|]. split; [reflexivity|].
  intros editor' d' ranges Hin.
  destruct (unsupported (document editor)); [inversion Hin|].
  apply list_elem_of_singleton in Hin. injection Hin as _ -> _. exact Hd.
Qed.

Lemma rendersMode_decorateOne (host : Host number) editor s :
  rendersMode toString host
    (d ← getDecoration toString host; updateEditorDecoration toLowerCase editor d) s.
Proof.
  apply rendersMode_bind; [apply rendersMode_getDecoration|].
  intros Hs1. apply rendersMode_updateEditorDecoration; [|exact Hs1].
  apply getDecoration_opacity_after, Hs1.
Qed.

Lemma rendersMode_updateActiveEditor (host : Host number) s :
  rendersMode toString host (updateActiveEditor toLowerCase toString host) s.
Proof.
  intros Hs. rewrite updateActiveEditor_run. cbv zeta. cbn [stateOf traceOf fst snd].
  destruct (rendersMode_getDecoration host s Hs) as (Hs1 & Hmode & Ht).
  split; [exact Hs1|]. split; [exact Hmode|].
  apply decoratesWith_app; [exact Ht|].
  intros editor d ranges Hin.
  apply list_elem_of_In, in_flat_map in Hin as (x & _ & Hin).
  apply list_elem_of_In in Hin.
  destruct (rendersMode_updateEditorDecoration host x
              (valueOf (getDecoration toString host s))
              (stateOf (getDecoration toString host s))) as (_ & _ & Hx);
    [rewrite Hmode; apply getDecoration_opacity, Hs | exact Hs1 |].
  rewrite <- Hmode. eapply Hx, Hin.
Qed.

Lemma rendersMode_unfoldHiddenRanges (host : Host number) docKey editor s :
  rendersMode toString host (unfoldHiddenRanges docKey editor) s.
Proof.
  apply rendersMode_quiet; rewrite unfoldHiddenRanges_run; try reflexivity.
  apply unfoldTrace_quiet.
Qed.

Lemma rendersMode_autoFoldHiddenRanges (host : Host number) editor s :
  rendersMode toString host (autoFoldHiddenRanges toLowerCase editor) s.
Proof.
  apply rendersMode_quiet; rewrite autoFoldHiddenRanges_run; try reflexivity.
  cbn [traceOf snd]. destruct (decide _); [apply foldTrace_quiet | constructor].
Qed.

Lemma rendersMode_getState_bind (host : Host number) {B : Type} (f : State -> M B) s :
  rendersMode toString host (f s) s ->
  rendersMode toString host (getState ≫= f) s.
Proof.
  intros Hf. apply rendersMode_bind; [|exact Hf].
  apply rendersMode_quiet; try reflexivity. constructor.
Qed.

Lemma rendersMode_emit (host : Host number) e s :
  isDecorationEffect e = false -> rendersMode toString host (emit e) s.
Proof.
  intros He. apply rendersMode_quiet; try reflexivity. repeat constructor. exact He.
Qed.

Lemma rendersMode_emit_bind (host : Host number) {B : Type} (f : unit -> M B) e s :
  isDecorationEffect e = false ->
  rendersMode toString host (f tt) s ->
  rendersMode toString host (emit e ≫= f) s.
Proof.
  intros He Hf. apply rendersMode_bind; [apply rendersMode_emit, He | exact Hf].
Qed.

Lemma rendersMode_ret (host : Host number) {A : Type} (a : A) s :
  rendersMode toString host (mret a) s.
Proof. apply rendersMode_quiet; try reflexivity. constructor. Qed.

Lemma rendersMode_onInactiveRegions (host : Host number) params s :
  rendersMode toString host
    (onInactiveRegions toLowerCase parseFsPath toString host params) s.
Proof.
  unfold onInactiveRegions. cbv zeta.
  apply rendersMode_getState_bind.
  apply rendersMode_bind.
  { destruct (decide _); [|apply rendersMode_ret].
    apply rendersMode_forEach. intros. apply rendersMode_unfoldHiddenRanges. }
  cbv beta. apply rendersMode_getState_bind.
  apply rendersMode_bind.
  { apply rendersMode_quiet; try reflexivity. constructor. }
  cbv beta. do 2 (apply rendersMode_emit_bind; [reflexivity|]).
  apply rendersMode_bind.
  - apply rendersMode_forEach. intros. apply rendersMode_decorateOne.
  - cbv beta. apply rendersMode_forEach. intros. apply rendersMode_autoFoldHiddenRanges.
Qed.

Lemma getState_bind_run {B : Type} (f : State -> M B) s : (getState ≫= f) s = f s s.
Proof.
  unfold mbind, M_bind, getState. destruct (f s s) as [[b s2] t2]. reflexivity.
Qed.

Lemma putState_bind_run {B : Type} (f : unit -> M B) s' s :
  (putState s' ≫= f) s = f tt s'.
Proof.
  unfold mbind, M_bind, putState. destruct (f tt s') as [[b s2] t2]. reflexivity.
Qed.

(** X25. Every handler decorates with the opacity of the mode in force:
    when the opacity of the last style is on record (as it is at start-up),
    it is still on record after the handler, and every [setDecorations] call
    of the handler uses a style whose opacity is the one the host's
    configuration gives for the mode the handler leaves (the configured
    [ifdef.opacity] outside [visible] mode, clangd's inactive-region opacity
    in [visible] mode). *)
Theorem handlers_decorate_with_the_mode_opacity (host : Host number) e s :
  styleRecorded s ->
  let run := handle toLowerCase parseFsPath toString host e s in
  styleRecorded (stateOf run)
  /\ forall editor d ranges,
       SetDecorations editor d ranges ∈ traceOf run ->
       opacity d = styleOpacity toString host (hideIfdefMode (stateOf run)).
Proof.
  intros Hs run. subst run.
  destruct e as [params| |ofActiveDocument|editor|affectsIfdef]; cbn [handle].
  - destruct (rendersMode_onInactiveRegions host params s Hs) as (Hs' & Hmode & Ht).
    split; [exact Hs'|]. rewrite Hmode. exact Ht.
  - unfold toggleCommand. rewrite getState_bind_run. cbv zeta.
    rewrite putState_bind_run.
    set (s' := withMode s (nextMode (hideIfdefMode s))).
    assert (Hs' : styleRecorded s') by exact Hs.
    match goal with
    | |- context [stateOf (?m s')] =>
        assert (H : rendersMode toString host m s')
    end.
    { do 3 (apply rendersMode_emit_bind; [reflexivity|]).
      apply rendersMode_bind; [apply rendersMode_updateActiveEditor|]. cbv beta.
      apply rendersMode_getState_bind.
      apply rendersMode_bind.
      - destruct (decide _); [|apply rendersMode_ret].
        apply rendersMode_forEach. intros. apply rendersMode_unfoldHiddenRanges.
      - cbv beta. apply rendersMode_getState_bind.
        destruct (decide _); [|apply rendersMode_ret].
        apply rendersMode_forEach. intros. apply rendersMode_autoFoldHiddenRanges. }
    destruct (H Hs') as (Hs'' & Hmode & Ht).
    split; [exact Hs''|]. rewrite Hmode. exact Ht.
  - assert (H : rendersMode toString host
                  (onDidChangeTextDocument toLowerCase toString host ofActiveDocument) s).
    { unfold onDidChangeTextDocument.
      destruct (activeTextEditor host); [|apply rendersMode_ret].
      destruct ofActiveDocument; [apply rendersMode_decorateOne | apply rendersMode_ret]. }
    destruct (H Hs) as (Hs' & Hmode & Ht).
    split; [exact Hs'|]. rewrite Hmode. exact Ht.
  - assert (H : rendersMode toString host
                  (onDidChangeActiveTextEditor toLowerCase toString host editor) s).
    { unfold onDidChangeActiveTextEditor.
      destruct editor as [editor|]; [|apply rendersMode_ret].
      pose proof (rendersMode_decorateOne host editor s) as Hone.
      intros Hs0.
      assert (Hm : rendersMode toString host
                     ((d ← getDecoration toString host;
                       updateEditorDecoration toLowerCase editor d);;
                      autoFoldHiddenRanges toLowerCase editor) s).
      { apply rendersMode_bind; [exact Hone | apply rendersMode_autoFoldHiddenRanges]. }
      specialize (Hm Hs0). revert Hm.
      rewrite !run_bind. cbn [valueOf stateOf traceOf fst snd].
      rewrite <- app_assoc. auto. }
    destruct (H Hs) as (Hs' & Hmode & Ht).
    split; [exact Hs'|]. rewrite Hmode. exact Ht.
  - assert (H : rendersMode toString host
                  (onDidChangeConfiguration toLowerCase toString host affectsIfdef) s).
    { unfold onDidChangeConfiguration.
      apply rendersMode_bind.
      - destruct affectsIfdef;
          [apply rendersMode_updateActiveEditor | apply rendersMode_ret].
      - cbv beta. apply rendersMode_getState_bind. apply rendersMode_emit. reflexivity. }
    destruct (H Hs) as (Hs' & Hmode & Ht).
    split; [exact Hs'|]. rewrite Hmode. exact Ht.
Qed.

End Rendering.

Lemma handlers_decorate_with_the_mode_opacity_witness :
  styleRecorded
    (stateOf (handle id id exampleToString exampleHost ToggleInvoked exampleState)).
Proof.
  apply (handlers_decorate_with_the_mode_opacity id id nat exampleToString exampleHost
           ToggleInvoked exampleState).
  intros d E. discriminate E.
Defined.
